(** * Binary morphology and distance transforms of [scipy.ndimage.morphology]

    A shallow embedding of [scipy/ndimage/morphology.py]: the Python driver
    functions are translated from the source; the compiled kernels of
    [_nd_image] that the drivers call are either modelled from the
    specification (binary erosion) or taken as parameters (distance
    transforms). *)

From Stdlib Require Import ZArith Lia String.
From stdpp Require Import base list.

Local Open Scope Z_scope.
Local Open Scope nat_scope.

(** ** Dense N-dimensional arrays *)

(** A numpy array: a shape vector and a row-major buffer. *)
Record ndarray (A : Type) : Type := mk_ndarray {
  shape : list nat;
  data : list A
}.
Arguments mk_ndarray {A} _ _.
Arguments shape {A} _.
Arguments data {A} _.

(** [numpy.product(shape, axis=0)]: the number of cells. *)
Definition size (shp : list nat) : nat := foldr Nat.mul 1 shp.

(** [a.ndim] *)
Definition ndim {A} (a : ndarray A) : nat := length (shape a).

(** An array whose buffer has exactly one entry per cell. *)
Definition wf_array {A} (a : ndarray A) : Prop :=
  length (data a) = size (shape a).

(** Coordinate of a flat (row-major) index: last axis runs fastest. *)
Fixpoint unravel (shp : list nat) (i : nat) : list Z :=
  match shp with
  | [] => []
  | _ :: rest => Z.of_nat (i / size rest) :: unravel rest (i mod size rest)
  end.

(** Flat index of a coordinate. *)
Fixpoint ravel (shp : list nat) (c : list Z) : nat :=
  match shp, c with
  | _ :: rest, x :: xs => Z.to_nat x * size rest + ravel rest xs
  | _, _ => 0
  end.

(** Is the coordinate inside [[0, dims[i])] on every axis? *)
Fixpoint in_bounds (shp : list nat) (c : list Z) : bool :=
  match shp, c with
  | [], [] => true
  | d :: rest, x :: xs =>
      (0 <=? x)%Z && (x <? Z.of_nat d)%Z && in_bounds rest xs
  | _, _ => false
  end.

(** Coordinate-wise sum and difference of index vectors. *)
Definition vadd (a b : list Z) : list Z := zip_with Z.add a b.
Definition vsub (a b : list Z) : list Z := zip_with Z.sub a b.
Definition vneg (a : list Z) : list Z := map Z.opp a.

(** [a[c]] for an in-range coordinate, [None] outside the array. *)
Definition getitem {A} (a : ndarray A) (c : list Z) : option A :=
  if in_bounds (shape a) c then data a !! ravel (shape a) c else None.

(** [a[::-1, ..., ::-1]]: the view that reverses every axis; its cell at
    coordinate [c] is the cell of [a] at [dims - 1 - c]. *)
Definition flip_coord (shp : list nat) (c : list Z) : list Z :=
  zip_with (fun d x => (Z.of_nat d - 1 - x)%Z) shp c.

Definition flip_all {A} `{Inhabited A} (a : ndarray A) : ndarray A :=
  mk_ndarray (shape a)
    (map (fun i => nth (ravel (shape a) (flip_coord (shape a) (unravel (shape a) i)))
                       (data a) inhabitant)
         (seq 0 (size (shape a)))).

(** ** Element types, errors and results *)

(** What the drivers ask of an array's dtype: whether it is a complex type
    ([numpy.iscomplexobj]), the truth value of an element, and the element
    written for a boolean result. *)
Class Dtype (A : Type) : Type := {
  iscomplexobj : bool;
  nonzero : A -> bool;
  of_bool : bool -> A;
  nonzero_of_bool : forall b, nonzero (of_bool b) = b
}.
Arguments iscomplexobj A {_}.

#[export] Instance bool_dtype : Dtype bool :=
  {| iscomplexobj := false; nonzero := fun b => b; of_bool := fun b => b;
     nonzero_of_bool := fun b => eq_refl |}.

#[export] Program Instance int_dtype : Dtype Z :=
  {| iscomplexobj := false; nonzero := fun z => negb (z =? 0)%Z;
     of_bool := fun b => if b then 1%Z else 0%Z |}.
Next Obligation. by intros []. Qed.

(** A complex number with integral parts: enough to inhabit a complex
    dtype. *)
Record complex : Type := mk_complex { re : Z; im : Z }.

#[export] Program Instance complex_dtype : Dtype complex :=
  {| iscomplexobj := true;
     nonzero := fun z => negb ((re z =? 0)%Z && (im z =? 0)%Z);
     of_bool := fun b => mk_complex (if b then 1%Z else 0%Z) 0%Z |}.
Next Obligation. by intros []. Qed.

(** The exceptions the module raises, with their messages. *)
Inductive exn : Type :=
  | TypeError (msg : string)
  | RuntimeError (msg : string)
  | IndexError (msg : string).

Inductive result (R : Type) : Type :=
  | Ok (r : R)
  | Raise (e : exn).
Arguments Ok {R} _.
Arguments Raise {R} _.

Definition bind {R S} (c : result R) (k : R -> result S) : result S :=
  match c with
  | Ok r => k r
  | Raise e => Raise e
  end.

Notation "'let!' x ':=' c 'in' k" := (bind c (fun x => k))
  (at level 10, x name, c at level 100, k at level 200).

(** A computation that may also run out of fuel ([None]); only the
    [while] loops consume fuel. *)
Definition fueled (R : Type) : Type := option (result R).

(** An argument that is either one number or a sequence of them. *)
Inductive int_or_seq (A : Type) : Type :=
  | Scalar (x : A)
  | Sequence (l : list A).
Arguments Scalar {A} _.
Arguments Sequence {A} _.

(** Modelled from the spec: [_ni_support._normalize_sequence] is imported
    from a module that is not part of the source tree. The data model has
    the origin as "an integer vector of length = rank, one entry per
    dimension", and the docstrings accept "int or tuple of ints": a number
    is repeated on every axis, a sequence must have one entry per axis. *)
Definition _normalize_sequence {A} (input : int_or_seq A) (rank : nat)
  : result (list A) :=
  match input with
  | Scalar x => Ok (replicate rank x)
  | Sequence l =>
      if decide (length l = rank) then Ok l
      else Raise (RuntimeError
                    "sequence argument must have length equal to input rank")
  end.

(** numpy's reading of one index on an axis of length [d]: a negative
    index counts from the end, anything outside [[-d, d)] is an error. *)
Definition normalize_index (d : nat) (k : Z) : option Z :=
  if ((0 <=? k) && (k <? Z.of_nat d))%Z then Some k
  else if ((- Z.of_nat d <=? k) && (k <? 0))%Z then Some (k + Z.of_nat d)%Z
  else None.

Fixpoint normalize_coor (shp : list nat) (c : list Z) : option (list Z) :=
  match shp, c with
  | [], [] => Some []
  | d :: rest, k :: ks =>
      match normalize_index d k, normalize_coor rest ks with
      | Some k', Some ks' => Some (k' :: ks')
      | _, _ => None
      end
  | _, _ => None
  end.

(** [oo + ss // 2] on every axis: the centre of the structuring element. *)
Definition center (sshape : list nat) (origin : list Z) : list Z :=
  zip_with (fun ss oo => (oo + Z.of_nat (ss / 2))%Z) sshape origin.

(** [_center_is_true(structure, origin)]; the callers pass an origin with
    one entry per axis of the structure. *)
Definition _center_is_true (structure : ndarray bool) (origin : list Z)
  : result bool :=
  let coor := center (shape structure) origin in
  match normalize_coor (shape structure) coor with
  | Some c =>
      match data structure !! ravel (shape structure) c with
      | Some b => Ok b
      | None => Raise (IndexError "index out of bounds")
      end
  | None => Raise (IndexError "index out of bounds")
  end.

Definition sum_list_Z (l : list Z) : Z := foldr Z.add 0%Z l.

(** [generate_binary_structure(rank, connectivity)]; the absolute values
    are small integers, so the float array of the source is exact. *)
Definition generate_binary_structure (rank : nat) (connectivity : Z)
  : ndarray bool :=
  let connectivity := if (connectivity <? 1)%Z then 1%Z else connectivity in
  if rank <? 1 then mk_ndarray [] [true]
  else
    let shp := replicate rank 3 in
    mk_ndarray shp
      (map (fun i =>
              (sum_list_Z (map (fun x => Z.abs (x - 1)) (unravel shp i))
               <=? connectivity)%Z)
           (seq 0 (size shp))).

(** ** The binary erosion kernels *)

(** NeighborOffsetTable: one offset vector per "on" cell of the
    structuring element, its position minus the centre, in scan order. *)
Definition offsets (structure : ndarray bool) (origin : list Z)
  : list (list Z) :=
  let c := center (shape structure) origin in
  map (fun i => vsub (unravel (shape structure) i) c)
      (List.filter (fun i => nth i (data structure) false)
                   (seq 0 (size (shape structure)))).

(** Does the list have an entry? *)
Definition nonempty {A} (l : list A) : bool :=
  match l with
  | [] => false
  | _ :: _ => true
  end.

(** The truth value of the cell with flat index [i]. *)
Definition value_at {A} `{Dtype A} (l : list A) (i : nat) : bool :=
  match l !! i with
  | Some x => nonzero x
  | None => false
  end.

(** BorderPolicy: the value of a cell, the configured border value at a
    coordinate outside the array. *)
Definition effective_value {A} `{Dtype A} (input : ndarray A)
    (border_value : bool) (c : list Z) : bool :=
  if in_bounds (shape input) c
  then value_at (data input) (ravel (shape input) c)
  else border_value.

(** [mask[i]], every cell being enabled when no mask is given. *)
Definition mask_at (mask : option (ndarray bool)) (i : nat) : bool :=
  match mask with
  | None => true
  | Some m => nth i (data m) false
  end.

(** Single iteration at one voxel: true iff every offset neighbour is
    true; [invert] exchanges the roles of true and false in that test
    (dilation, the dual), the cells outside the array having the border
    value in both. A masked-off voxel copies the input value. *)
Definition erode_point {A} `{Dtype A} (input : ndarray A)
    (offs : list (list Z)) (mask : option (ndarray bool))
    (border_value invert : bool) (i : nat) : bool :=
  if mask_at mask i then
    xorb invert
      (forallb (fun o =>
                  xorb invert
                    (effective_value input border_value
                       (vadd (unravel (shape input) i) o)))
               offs)
  else value_at (data input) i.

(** Modelled from the spec: [_nd_image.binary_erosion] is a compiled
    kernel that is not part of the source tree. One full pass over the
    input ("for every voxel p ... output[p] = true iff, for every offset o
    in the NeighborOffsetTable, effective_value(input, p+o) == true"); it
    reports whether any voxel changed and, when asked, "records which
    voxels changed state, producing a worklist of changed coordinates"
    (flat voxel indices, in scan order). The result is the content written
    to the output array, the flag and the worklist. *)
Definition nd_binary_erosion {A} `{Dtype A} (input : ndarray A)
    (structure : ndarray bool) (mask : option (ndarray bool))
    (border_value : bool) (origin : list Z) (invert : bool) (cit : bool)
    (return_coordinates : bool) : list bool * bool * list nat :=
  let offs := offsets structure origin in
  let idx := seq 0 (size (shape input)) in
  let out := map (erode_point input offs mask border_value invert) idx in
  let chg :=
    List.filter (fun i => negb (eqb (nth i out false) (value_at (data input) i)))
                idx in
  (out, nonempty chg,
   if return_coordinates then chg else []).

(** The in-range structural neighbours of the voxel with flat index [c]. *)
Definition neighbours (shp : list nat) (offs : list (list Z)) (c : nat)
  : list nat :=
  omap (fun o =>
          let q := vadd (unravel shp c) o in
          if in_bounds shp q then Some (ravel shp q) else None)
       offs.

(** Re-test of one neighbour of a changed voxel: a voxel that is enabled
    by the mask and still has the value being eroded changes state and
    enters the next worklist. *)
Definition visit {C} `{Dtype C} (mask : option (ndarray bool)) (invert : bool)
    (st : list C * list nat) (j : nat) : list C * list nat :=
  if mask_at mask j && eqb (value_at st.1 j) (negb invert)
  then (<[j := of_bool invert]> st.1, st.2 ++ [j])
  else st.

(** One iteration of the propagation: the effect of every changed voxel
    is carried to its structural neighbours. *)
Definition propagate {C} `{Dtype C} (shp : list nat) (offs : list (list Z))
    (mask : option (ndarray bool)) (invert : bool)
    (arr : list C) (wl : list nat) : list C * list nat :=
  foldl (fun st c => foldl (visit mask invert) st (neighbours shp offs c))
        (arr, []) wl.

Fixpoint erosion2_loop {C} `{Dtype C} (fuel : nat) (shp : list nat)
    (offs : list (list Z)) (mask : option (ndarray bool)) (niter : Z)
    (invert : bool) (jj : Z) (arr : list C) (wl : list nat)
  : option (list C) :=
  match fuel with
  | O => None
  | S fuel' =>
      if nonempty wl && ((jj <? niter)%Z || (niter <=? 0)%Z)
      then
        let st := propagate shp offs mask invert arr wl in
        erosion2_loop fuel' shp offs mask niter invert (jj + 1)%Z st.1 st.2
      else Some arr
  end.

(** Modelled from the spec: [_nd_image.binary_erosion2] is a compiled
    kernel that is not part of the source tree. "Subsequent iterations only
    re-evaluate voxels reachable from the worklist via the (reflected,
    origin-adjusted) structuring element's neighbor offsets ... continuing
    until the worklist empties or the iteration budget is exhausted"; a
    budget below one is no budget. The array is updated in place. *)
Definition nd_binary_erosion2 {C} `{Dtype C} (fuel : nat) (array : ndarray C)
    (structure : ndarray bool) (mask : option (ndarray bool)) (niter : Z)
    (origin : list Z) (invert : bool) (coordinate_list : list nat)
  : option (ndarray C) :=
  match erosion2_loop fuel (shape array) (offsets structure origin) mask
          niter invert 0%Z (data array) coordinate_list with
  | Some d => Some (mk_ndarray (shape array) d)
  | None => None
  end.

(** ** The drivers of binary erosion and dilation *)

(** The [output] argument: a caller's array, or anything else (None or a
    type), for which a fresh boolean array is made. *)
Inductive output_arg (B : Type) : Type :=
  | OutNone
  | OutArray (buf : ndarray B).
Arguments OutNone {B}.
Arguments OutArray {B} _.

(** [numpy.zeros(shape, bool)] *)
Definition zeros (shp : list nat) : ndarray bool :=
  mk_ndarray shp (replicate (size shp) false).

(** Negation of the origin for the reflected structure, one axis after
    the other: [origin[ii] = -origin[ii]], and one less where
    [structure.shape[ii] & 1] is zero. [structure.shape[ii]] fails when
    the structure has fewer axes than the origin has entries. *)
Fixpoint reflect_origin (sshape : list nat) (origin : list Z)
  : result (list Z) :=
  match origin with
  | [] => Ok []
  | o :: os =>
      match sshape with
      | [] => Raise (IndexError "tuple index out of range")
      | ss :: rest =>
          let! os' := reflect_origin rest os in
          Ok ((if (Z.land (Z.of_nat ss) 1 =? 0)%Z then - o - 1 else - o)%Z
              :: os')
      end
  end.

(** The two buffers of a run: [bufA] is the scratch array
    [numpy.zeros(input.shape, bool)], [bufB] the output array (the
    caller's, or a fresh one). [tmp_in] and [tmp_out] are names of these
    buffers and are exchanged, the buffers are not copied. *)
Inductive slot : Type := SlotA | SlotB.

Record buffers (C : Type) : Type := mk_buffers {
  bufA : ndarray bool;
  bufB : ndarray C
}.
Arguments mk_buffers {C} _ _.
Arguments bufA {C} _.
Arguments bufB {C} _.

(** The kernel writes every cell of the array it is given as output. *)
Definition write {C} `{Dtype C} (s : slot) (out : list bool) (st : buffers C)
  : buffers C :=
  match s with
  | SlotA => mk_buffers (mk_ndarray (shape (bufA st)) out) (bufB st)
  | SlotB => mk_buffers (bufA st)
               (mk_ndarray (shape (bufB st)) (map of_bool out))
  end.

(** A kernel pass that reads the buffer named [src]. *)
Definition pass_from {C} `{Dtype C} (src : slot) (st : buffers C)
    (structure : ndarray bool) (mask : option (ndarray bool))
    (border_value : bool) (origin : list Z) (invert cit : bool)
  : list bool * bool * list nat :=
  match src with
  | SlotA => nd_binary_erosion (bufA st) structure mask border_value origin
               invert cit false
  | SlotB => nd_binary_erosion (bufB st) structure mask border_value origin
               invert cit false
  end.

(** The [while] loop of the brute-force branch; the result is the buffer
    named by [tmp_out] when the loop ends, and the buffers. *)
Fixpoint brute_force_loop {C} `{Dtype C} (fuel : nat)
    (structure : ndarray bool) (mask : option (ndarray bool))
    (border_value : bool) (origin : list Z) (invert cit : bool)
    (iterations : Z) (ii : Z) (tmp_in tmp_out : slot) (st : buffers C)
    (changed : bool) : option (slot * buffers C) :=
  match fuel with
  | O => None
  | S fuel' =>
      if (ii <? iterations)%Z || ((iterations <? 1)%Z && changed) then
        let '(tmp_in, tmp_out) := (tmp_out, tmp_in) in
        let r := pass_from tmp_in st structure mask border_value origin
                   invert cit in
        brute_force_loop fuel' structure mask border_value origin invert cit
          iterations (ii + 1)%Z tmp_in tmp_out (write tmp_out r.1.1 st) r.1.2
      else Some (tmp_out, st)
  end.

(** The three branches of [_binary_erosion] after its checks, on the
    output array [output]: the result is the name of the buffer that holds
    the last pass, and the buffers. *)
Definition erosion_passes {A C} `{Dtype A} `{Dtype C} (fuel : nat)
    (input : ndarray A) (structure : ndarray bool) (iterations : Z)
    (mask : option (ndarray bool)) (output : ndarray C)
    (border_value : bool) (origin : list Z) (invert cit brute_force : bool)
  : fueled (slot * buffers C) :=
  let st := mk_buffers (zeros (shape input)) output in
  if (iterations =? 1)%Z then
    let r := nd_binary_erosion input structure mask border_value origin
               invert cit false in
    Some (Ok (SlotB, write SlotB r.1.1 st))
  else if cit && negb brute_force then
    let r := nd_binary_erosion input structure mask border_value origin
               invert cit true in
    let st := write SlotB r.1.1 st in
    let structure := flip_all structure in
    match reflect_origin (shape structure) origin with
    | Raise e => Some (Raise e)
    | Ok origin =>
        match nd_binary_erosion2 fuel (bufB st) structure mask
                (iterations - 1)%Z origin invert r.2 with
        | Some out => Some (Ok (SlotB, mk_buffers (bufA st) out))
        | None => None
        end
    end
  else
    let '(tmp_in, tmp_out) :=
      if (Z.land iterations 1 =? 0)%Z then (SlotB, SlotA)
      else (SlotA, SlotB) in
    let r := nd_binary_erosion input structure mask border_value origin
               invert cit false in
    match brute_force_loop fuel structure mask border_value origin invert cit
            iterations 1%Z tmp_in tmp_out (write tmp_out r.1.1 st) r.1.2 with
    | Some res => Some (Ok res)
    | None => None
    end.

(** What a call leaves behind: the value it returns and, when the caller
    gave an output array, the final content of that array. *)
Record erosion_result (B : Type) : Type := mk_erosion_result {
  return_value : option (ndarray bool);
  out_buffer : option (ndarray B)
}.
Arguments mk_erosion_result {B} _ _.
Arguments return_value {B} _.
Arguments out_buffer {B} _.

(** The checks of [_binary_erosion] that come before the kernel calls;
    they give the structure, the normalized origin and [cit]. *)
Definition erosion_checks {A B} `{Dtype A} `{Dtype B} (input : ndarray A)
    (structure : option (ndarray bool)) (mask : option (ndarray bool))
    (output : output_arg B) (origin : int_or_seq Z)
  : result (ndarray bool * list Z * bool) :=
  if iscomplexobj A then Raise (TypeError "Complex type not supported")
  else
    let structure :=
      match structure with
      | None => generate_binary_structure (ndim input) 1
      | Some s => s
      end in
    if negb (ndim structure =? ndim input) then
      Raise (RuntimeError "structure and input must have same dimensionality")
    else if size (shape structure) <? 1 then
      Raise (RuntimeError "structure must not be empty")
    else if match mask with
            | Some m => negb (bool_decide (shape m = shape input))
            | None => false
            end then
      Raise (RuntimeError "mask and input must have equal sizes")
    else
      let! origin := _normalize_sequence origin (ndim input) in
      let! cit := _center_is_true structure origin in
      match output with
      | OutArray buf =>
          if iscomplexobj B then
            Raise (TypeError "Complex output type not supported")
          else if negb (bool_decide (shape buf = shape input)) then
            Raise (RuntimeError "output shape not correct")
          else Ok (structure, origin, cit)
      | OutNone => Ok (structure, origin, cit)
      end.

(** [_binary_erosion(input, structure, iterations, mask, output,
    border_value, origin, invert, brute_force)]. With a caller's array the
    function returns None ([return_value] of [_get_output] is None);
    otherwise the first two branches return the fresh output array and the
    brute-force branch returns [tmp_out]. *)
Definition _binary_erosion {A B} `{Dtype A} `{Dtype B} (fuel : nat)
    (input : ndarray A) (structure : option (ndarray bool)) (iterations : Z)
    (mask : option (ndarray bool)) (output : output_arg B)
    (border_value : bool) (origin : int_or_seq Z) (invert brute_force : bool)
  : fueled (erosion_result B) :=
  match erosion_checks input structure mask output origin with
  | Raise e => Some (Raise e)
  | Ok (structure, origin, cit) =>
      match output with
      | OutArray buf =>
          match erosion_passes fuel input structure iterations mask buf
                  border_value origin invert cit brute_force with
          | Some (Ok (_, st)) =>
              Some (Ok (mk_erosion_result None (Some (bufB st))))
          | Some (Raise e) => Some (Raise e)
          | None => None
          end
      | OutNone =>
          match erosion_passes fuel input structure iterations mask
                  (zeros (shape input)) border_value origin invert cit
                  brute_force with
          | Some (Ok (s, st)) =>
              Some (Ok (mk_erosion_result
                          (Some (match s with
                                 | SlotA => bufA st
                                 | SlotB => bufB st
                                 end)) None))
          | Some (Raise e) => Some (Raise e)
          | None => None
          end
      end
  end.

(** [binary_erosion] *)
Definition binary_erosion {A B} `{Dtype A} `{Dtype B} (fuel : nat)
    (input : ndarray A) (structure : option (ndarray bool)) (iterations : Z)
    (mask : option (ndarray bool)) (output : output_arg B)
    (border_value : bool) (origin : int_or_seq Z) (brute_force : bool)
  : fueled (erosion_result B) :=
  _binary_erosion fuel input structure iterations mask output border_value
    origin false brute_force.

(** [binary_dilation]: erosion with the structure reflected, the origin
    negated and [invert] set. *)
Definition binary_dilation {A B} `{Dtype A} `{Dtype B} (fuel : nat)
    (input : ndarray A) (structure : option (ndarray bool)) (iterations : Z)
    (mask : option (ndarray bool)) (output : output_arg B)
    (border_value : bool) (origin : int_or_seq Z) (brute_force : bool)
  : fueled (erosion_result B) :=
  let structure :=
    match structure with
    | None => generate_binary_structure (ndim input) 1
    | Some s => s
    end in
  match _normalize_sequence origin (ndim input) with
  | Raise e => Some (Raise e)
  | Ok origin =>
      let structure := flip_all structure in
      match reflect_origin (shape structure) origin with
      | Raise e => Some (Raise e)
      | Ok origin =>
          _binary_erosion fuel input (Some structure) iterations mask output
            border_value (Sequence origin) true brute_force
      end
  end.

(** ** Distance transforms *)

(** The operations on [float64] values that [distance_transform_edt]
    performs; the transforms are generic in the type that carries them. *)
Class Float64 (F : Type) : Type := {
  of_int : Z -> F;
  fmul : F -> F -> F;
  fadd : F -> F -> F;
  fsqrt : F -> F
}.

(** An element of an array of distances or indices: an integer, or a
    [float64]. *)
Inductive scalar (F : Type) : Type :=
  | SInt (z : Z)
  | SFloat (x : F).
Arguments SInt {F} _.
Arguments SFloat {F} _.

Definition as_int {F} (s : scalar F) : Z :=
  match s with
  | SInt z => z
  | SFloat _ => 0%Z
  end.

Inductive dtype : Type :=
  | dt_bool | dt_int8 | dt_int32 | dt_int64 | dt_uint32 | dt_float32
  | dt_float64.

#[export] Instance dtype_eq_dec : EqDecision dtype.
Proof. solve_decision. Defined.

(** An array together with its dtype, as a caller hands it over. *)
Record array (F : Type) : Type := mk_array {
  dtype_of : dtype;
  arr : ndarray (scalar F)
}.
Arguments mk_array {F} _ _.
Arguments dtype_of {F} _.
Arguments arr {F} _.

(** What a distance transform returns: None, one array, or a tuple. *)
Inductive retval (F : Type) : Type :=
  | RNone
  | ROne (a : array F)
  | RTwo (a b : array F).
Arguments RNone {F}.
Arguments ROne {F} _.
Arguments RTwo {F} _ _.

(** The caller's [distances] and [indices] arrays. *)
Record dt_buffers (F : Type) : Type := mk_dt_buffers {
  distances_buf : option (array F);
  indices_buf : option (array F)
}.
Arguments mk_dt_buffers {F} _ _.
Arguments distances_buf {F} _.
Arguments indices_buf {F} _.

(** The compiled distance kernels of [_nd_image], which are not part of
    the source tree: each takes the arrays it is given and yields the
    content it leaves in the arrays it writes. *)
Record nd_image (F : Type) : Type := mk_nd_image {
  nd_distance_transform_bf :
    ndarray Z -> Z -> option (list F) -> option (array F) ->
    option (ndarray Z) -> list (scalar F) * list Z;
  nd_distance_transform_op :
    ndarray bool -> ndarray Z -> option (ndarray Z) -> list Z * list Z;
  nd_euclidean_feature_transform :
    ndarray Z -> option (list F) -> ndarray Z -> list Z
}.
Arguments nd_distance_transform_bf {F} _.
Arguments nd_distance_transform_op {F} _.
Arguments nd_euclidean_feature_transform {F} _.

(** Wrap-around of a [w]-bit signed integer. *)
Definition wrap_signed (w : Z) (z : Z) : Z :=
  ((z + 2 ^ (w - 1)) mod 2 ^ w - 2 ^ (w - 1))%Z.

(** [a != 0] *)
Definition not_equal_zero {A} `{Dtype A} (a : ndarray A) : ndarray bool :=
  mk_ndarray (shape a) (map nonzero (data a)).

(** [a.astype(numpy.int8)] of a boolean array *)
Definition astype_int8 (a : ndarray bool) : ndarray Z :=
  mk_ndarray (shape a) (map (fun b : bool => if b then 1%Z else 0%Z) (data a)).

(** [numpy.logical_xor] and the [int8] difference, cell by cell. *)
Definition logical_xor (a b : ndarray bool) : ndarray bool :=
  mk_ndarray (shape a) (zip_with xorb (data a) (data b)).

Definition int8_sub (a b : ndarray Z) : ndarray Z :=
  mk_ndarray (shape a)
    (zip_with (fun x y => wrap_signed 8 (x - y)) (data a) (data b)).

(** The working array of [distance_transform_bf] (the statements from
    [tmp1 = numpy.asarray(input) != 0] to the [int8] difference). *)
Definition bf_working_array {A} `{Dtype A} (input : ndarray A)
  : fueled (ndarray Z) :=
  let tmp1 := not_equal_zero input in
  let struct := generate_binary_structure (ndim tmp1) (Z.of_nat (ndim tmp1)) in
  match binary_dilation (B := bool) 0 tmp1 (Some struct) 1 None OutNone false
          (Scalar 0%Z) false with
  | Some (Ok r) =>
      match return_value r with
      | Some tmp2 =>
          let tmp2 := logical_xor tmp1 tmp2 in
          Some (Ok (int8_sub (astype_int8 tmp1) (astype_int8 tmp2)))
      | None => Some (Raise (TypeError "NoneType"))
      end
  | Some (Raise e) => Some (Raise e)
  | None => None
  end.

(** [str.lower] on the ASCII letters. *)
Definition lower_ascii (c : Ascii.ascii) : Ascii.ascii :=
  let n := Ascii.nat_of_ascii c in
  if (65 <=? n) && (n <=? 90) then Ascii.ascii_of_nat (n + 32) else c.

Fixpoint lower (s : string) : string :=
  match s with
  | EmptyString => EmptyString
  | String c s' => String (lower_ascii c) (lower s')
  end.

Definition string_in (s : string) (l : list string) : bool :=
  existsb (String.eqb s) l.

(** [numpy.indices(shape, dtype=numpy.int32)]: on axis [ii], the [ii]-th
    coordinate of every cell. *)
Definition np_indices (shp : list nat) : ndarray Z :=
  mk_ndarray (length shp :: shp)
    (flat_map (fun ii => map (fun p => nth ii (unravel shp p) 0%Z)
                             (seq 0 (size shp)))
              (seq 0 (length shp))).

(** [a[ii, ...]] raveled, for an array whose first axis is followed by
    [n] cells. *)
Definition subarray {X} (n : nat) (l : list X) (ii : nat) : list X :=
  take n (drop (ii * n) l).

(** [row[ft]] for an index array [ft]. *)
Fixpoint take_indices {X} (row : list X) (ft : list Z) : result (list X) :=
  match ft with
  | [] => Ok []
  | k :: ks =>
      match normalize_index (length row) k with
      | Some k' =>
          match row !! Z.to_nat k' with
          | Some x => let! xs := take_indices row ks in Ok (x :: xs)
          | None => Raise (IndexError "index out of bounds")
          end
      | None => Raise (IndexError "index out of bounds")
      end
  end.

(** The loop [for ii in range(tmp.shape[0]): tmp[ii, ...] =
    numpy.ravel(tmp[ii, ...])[ft]] on the buffer of [tmp]. *)
Fixpoint gather_rows {X} (n : nat) (ft : list Z) (count : nat) (ii : nat)
    (l : list X) : result (list X) :=
  match count with
  | O => Ok l
  | S count' =>
      let! rtmp := take_indices (subarray n l ii) ft in
      gather_rows n ft count' (S ii)
        (take (ii * n) l ++ rtmp ++ drop (ii * n + length rtmp) l)
  end.

(** "construct and return the result" *)
Definition construct_result {F} (return_distances return_indices : bool)
    (dt_inplace ft_inplace : bool) (dt ft : option (array F)) : retval F :=
  let result :=
    (if return_distances && negb dt_inplace then option_list dt else [])
    ++ (if return_indices && negb ft_inplace then option_list ft else []) in
  match result with
  | [a; b] => RTwo a b
  | [a] => ROne a
  | _ => RNone
  end.

Definition is_some {X} (o : option X) : bool :=
  match o with
  | Some _ => true
  | None => false
  end.

(** The indices part shared by [distance_transform_bf] and
    [distance_transform_cdt]: the checks of a caller's [indices] array,
    and the gather through the flat feature indices [ft]. *)
Definition indices_from_features {F} (shp : list nat) (ft : list Z)
    (indices : option (array F)) : result (array F) :=
  match indices with
  | Some ind =>
      if negb (bool_decide (dtype_of ind = dt_int32)) then
        Raise (RuntimeError "indices must of int32 type")
      else if negb (bool_decide (shape (arr ind) = length shp :: shp)) then
        Raise (RuntimeError "indices has wrong shape")
      else
        let! d := gather_rows (size shp) ft (length shp) 0 (data (arr ind)) in
        Ok (mk_array dt_int32 (mk_ndarray (length shp :: shp) d))
  | None =>
      let tmp := np_indices shp in
      let! d := gather_rows (size shp) ft (length shp) 0 (data tmp) in
      Ok (mk_array dt_int32 (mk_ndarray (shape tmp) (map SInt d)))
  end.

(** The outcome of a distance transform: what it returns or raises, and
    the caller's arrays as it leaves them. *)
Definition dt_outcome (F : Type) : Type := (result (retval F) * dt_buffers F)%type.

Definition neither_requested : exn :=
  RuntimeError "at least one of distances/indices must be specified".

(** The number of the metric in [distance_transform_bf]. *)
Definition bf_metric (metric : string) : result Z :=
  let metric := lower metric in
  if String.eqb metric "euclidean" then Ok 1%Z
  else if string_in metric ["taxicab"; "cityblock"; "manhattan"]%string then Ok 2%Z
  else if String.eqb metric "chessboard" then Ok 3%Z
  else Raise (RuntimeError "distance metric not supported").

Definition normalize_sampling {F} (sampling : option (int_or_seq F))
    (rank : nat) : result (option (list F)) :=
  match sampling with
  | None => Ok None
  | Some s => let! l := _normalize_sequence s rank in Ok (Some l)
  end.

(** The distance array of [distance_transform_bf]: a fresh one of the
    metric's dtype, or the caller's after its checks. *)
Definition bf_distances {F} `{Float64 F} (shp : list nat) (metric : Z)
    (return_distances : bool) (distances : option (array F))
  : result (option (array F)) :=
  if return_distances then
    match distances with
    | None =>
        if (metric =? 1)%Z then
          Ok (Some (mk_array dt_float64
                      (mk_ndarray shp (replicate (size shp) (SFloat (of_int 0%Z))))))
        else
          Ok (Some (mk_array dt_uint32
                      (mk_ndarray shp (replicate (size shp) (SInt 0%Z)))))
    | Some d =>
        if negb (bool_decide (shape (arr d) = shp)) then
          Raise (RuntimeError "distances array has wrong shape")
        else if (metric =? 1)%Z then
          if negb (bool_decide (dtype_of d = dt_float64)) then
            Raise (RuntimeError "distances array must be float64")
          else Ok (Some d)
        else
          if negb (bool_decide (dtype_of d = dt_uint32)) then
            Raise (RuntimeError "distances array must be uint32")
          else Ok (Some d)
    end
  else Ok None.

(** [distance_transform_bf] *)
Definition distance_transform_bf {A F} `{Dtype A} `{Float64 F}
    (K : nd_image F) (input : ndarray A) (metric : string)
    (sampling : option (int_or_seq F))
    (return_distances return_indices : bool)
    (distances indices : option (array F)) : option (dt_outcome F) :=
  let bufs := mk_dt_buffers distances indices in
  if negb return_distances && negb return_indices then
    Some (Raise neither_requested, bufs)
  else
    match bf_working_array input with
    | None => None
    | Some (Raise e) => Some (Raise e, bufs)
    | Some (Ok tmp1) =>
        match
          (let! metric := bf_metric metric in
           let! sampling := normalize_sampling sampling (ndim tmp1) in
           let! dt := bf_distances (shape tmp1) metric return_distances
                        distances in
           Ok (metric, sampling, dt))
        with
        | Raise e => Some (Raise e, bufs)
        | Ok (metric, sampling, dt) =>
            let ft :=
              if return_indices
              then Some (mk_ndarray (shape tmp1)
                           (replicate (size (shape tmp1)) 0%Z))
              else None in
            let r := nd_distance_transform_bf K tmp1 metric sampling dt ft in
            let dt :=
              match dt with
              | Some d =>
                  Some (mk_array (dtype_of d) (mk_ndarray (shape (arr d)) r.1))
              | None => None
              end in
            let bufs :=
              if return_distances && is_some distances
              then mk_dt_buffers dt indices else bufs in
            if return_indices then
              match indices_from_features (shape tmp1) r.2 indices with
              | Raise e => Some (Raise e, bufs)
              | Ok ft =>
                  let bufs :=
                    if is_some indices
                    then mk_dt_buffers (distances_buf bufs) (Some ft)
                    else bufs in
                  Some (Ok (construct_result return_distances return_indices
                              (is_some distances) (is_some indices)
                              dt (Some ft)), bufs)
              end
            else
              Some (Ok (construct_result return_distances return_indices
                          (is_some distances) (is_some indices) dt None),
                    bufs)
        end
    end.

(** The [metric] argument of the chamfer transform: a name, or an array
    of local distances. *)
Inductive metric_arg : Type :=
  | MetricName (s : string)
  | MetricArray (m : ndarray bool).

(** The structure of a metric; [numpy.asarray] turns a name that is none
    of the known ones into an array without axes, which passes the loop
    over [metric.shape]. *)
Definition cdt_metric (rank : nat) (metric : metric_arg)
  : result (ndarray bool) :=
  match metric with
  | MetricName s =>
      if string_in s ["taxicab"; "cityblock"; "manhattan"]%string then
        Ok (generate_binary_structure rank 1)
      else if String.eqb s "chessboard" then
        Ok (generate_binary_structure rank (Z.of_nat rank))
      else Ok (mk_ndarray [] [true])
  | MetricArray m =>
      if forallb (fun s => s =? 3) (shape m) then Ok m
      else Raise (RuntimeError "metric sizes must be equal to 3")
  end.

(** [numpy.where(input, -1, 0).astype(numpy.int32)] *)
Definition where_minus1_0 {A} `{Dtype A} (input : ndarray A) : ndarray Z :=
  mk_ndarray (shape input)
    (map (fun x => if nonzero x then (-1)%Z else 0%Z) (data input)).

(** [numpy.arange(sz, dtype=numpy.int32)] in the shape of the input *)
Definition arange_like (shp : list nat) : ndarray Z :=
  mk_ndarray shp (map Z.of_nat (seq 0 (size shp))).

Definition int_array {F} (dt : dtype) (a : ndarray Z) : array F :=
  mk_array dt (mk_ndarray (shape a) (map SInt (data a))).

#[export] Instance Z_inhabited_for_arrays : Inhabited Z := populate 0%Z.

(** The pass sequence of [distance_transform_cdt]: the kernel, every axis
    reversed, the kernel again, every axis reversed again. *)
Definition cdt_passes {F} (K : nd_image F) (metric : ndarray bool)
    (dt : ndarray Z) (ft : option (ndarray Z)) : ndarray Z * option (ndarray Z) :=
  let r := nd_distance_transform_op K metric dt ft in
  let dt := mk_ndarray (shape dt) r.1 in
  let ft := option_map (fun f => mk_ndarray (shape f) r.2) ft in
  let dt := flip_all dt in
  let ft := option_map flip_all ft in
  let r := nd_distance_transform_op K metric dt ft in
  let dt := mk_ndarray (shape dt) r.1 in
  let ft := option_map (fun f => mk_ndarray (shape f) r.2) ft in
  (flip_all dt, option_map flip_all ft).

(** [distance_transform_cdt] *)
Definition distance_transform_cdt {A F} `{Dtype A} (K : nd_image F)
    (input : ndarray A) (metric : metric_arg)
    (return_distances return_indices : bool)
    (distances indices : option (array F)) : dt_outcome F :=
  let bufs := mk_dt_buffers distances indices in
  if negb return_distances && negb return_indices then
    (Raise neither_requested, bufs)
  else
    let ft_inplace := is_some indices in
    let dt_inplace := is_some distances in
    match cdt_metric (ndim input) metric with
    | Raise e => (Raise e, bufs)
    | Ok metric =>
        match
          (match distances with
           | Some d =>
               if negb (bool_decide (dtype_of d = dt_int32)) then
                 Raise (RuntimeError "distances must be of int32 type")
               else if negb (bool_decide (shape (arr d) = shape input)) then
                 Raise (RuntimeError "distances has wrong shape")
               else Ok (where_minus1_0 input)
           | None => Ok (where_minus1_0 input)
           end)
        with
        | Raise e => (Raise e, bufs)
        | Ok dt =>
            let ft :=
              if return_indices then Some (arange_like (shape dt)) else None in
            let r := cdt_passes K metric dt ft in
            let dt := r.1 in
            let bufs :=
              if dt_inplace
              then mk_dt_buffers (Some (int_array dt_int32 dt)) indices
              else bufs in
            match r.2 with
            | Some ft =>
                match indices_from_features (shape dt) (data ft) indices with
                | Raise e => (Raise e, bufs)
                | Ok ft =>
                    let bufs :=
                      if ft_inplace
                      then mk_dt_buffers (distances_buf bufs) (Some ft)
                      else bufs in
                    (Ok (construct_result return_distances return_indices
                           dt_inplace ft_inplace
                           (Some (int_array dt_int32 dt)) (Some ft)), bufs)
                end
            | None =>
                (Ok (construct_result return_distances return_indices
                       dt_inplace ft_inplace
                       (Some (int_array dt_int32 dt)) None), bufs)
            end
        end
    end.

(** [numpy.atleast_1d(numpy.where(input, 1, 0).astype(numpy.int8))] *)
Definition where_1_0_atleast_1d {A} `{Dtype A} (input : ndarray A) : ndarray Z :=
  mk_ndarray (match shape input with [] => [1] | shp => shp end)
    (map (fun x => if nonzero x then 1%Z else 0%Z) (data input)).

(** [ft - numpy.indices(input.shape, dtype=ft.dtype)] on [int32] *)
Definition int32_sub (a b : list Z) : list Z :=
  zip_with (fun x y => wrap_signed 32 (x - y)) a b.

(** [for ii in range(len(sampling)): dt[ii, ...] *= sampling[ii]] on the
    buffer of [dt], whose first axis is followed by [n] cells. *)
Fixpoint scale_rows {F} `{Float64 F} (n : nat) (sampling : list F) (ii : nat)
    (l : list F) : list F :=
  match sampling with
  | [] => l
  | s :: rest =>
      scale_rows n rest (S ii)
        (take (ii * n) l
         ++ map (fun x => fmul x s) (subarray n l ii)
         ++ drop (ii * n + n) l)
  end.

(** The sum of a row of floats, added from the left. *)
Definition fsum {F} `{Float64 F} (l : list F) : F :=
  match l with
  | [] => of_int 0%Z
  | x :: xs => foldl fadd x xs
  end.

(** [numpy.add.reduce(dt, axis=0)]: the rows are added one after the
    other onto the first. *)
Definition add_reduce_axis0 {F} `{Float64 F} (rank n : nat) (l : list F)
  : list F :=
  map (fun p =>
         fsum (map (fun ii => nth (ii * n + p) l (of_int 0%Z)) (seq 0 rank)))
      (seq 0 n).

(** The squared, scaled coordinate differences and their sum: the
    statements between the feature transform and the square root. *)
Definition edt_sum_of_squares {F} `{Float64 F} (shp : list nat)
    (sampling : option (list F)) (ft : list Z) : list F :=
  let dt := int32_sub ft (data (np_indices shp)) in
  let dt := map of_int dt in
  let dt :=
    match sampling with
    | Some s => scale_rows (size shp) s 0 dt
    | None => dt
    end in
  let dt := zip_with fmul dt dt in
  add_reduce_axis0 (length shp) (size shp) dt.

(** [distance_transform_edt] *)
Definition distance_transform_edt {A F} `{Dtype A} `{Float64 F}
    (K : nd_image F) (input : ndarray A) (sampling : option (int_or_seq F))
    (return_distances return_indices : bool)
    (distances indices : option (array F)) : dt_outcome F :=
  let bufs := mk_dt_buffers distances indices in
  if negb return_distances && negb return_indices then
    (Raise neither_requested, bufs)
  else
    let ft_inplace := is_some indices in
    let dt_inplace := is_some distances in
    let input := where_1_0_atleast_1d input in
    let shp := shape input in
    match
      (let! sampling := normalize_sampling sampling (ndim input) in
       let! ft :=
         match indices with
         | Some ind =>
             if negb (bool_decide (shape (arr ind) = length shp :: shp)) then
               Raise (RuntimeError "indices has wrong shape")
             else if negb (bool_decide (dtype_of ind = dt_int32)) then
               Raise (RuntimeError "indices must be of int32 type")
             else Ok (mk_ndarray (shape (arr ind)) (map as_int (data (arr ind))))
         | None =>
             Ok (mk_ndarray (length shp :: shp)
                   (replicate (length shp * size shp) 0%Z))
         end in
       Ok (sampling, ft))
    with
    | Raise e => (Raise e, bufs)
    | Ok (sampling, ft) =>
        let ft :=
          mk_ndarray (shape ft)
            (nd_euclidean_feature_transform K input sampling ft) in
        let ftarr := int_array dt_int32 ft in
        let bufs :=
          if ft_inplace then mk_dt_buffers distances (Some ftarr) else bufs in
        if return_distances then
          let dt := edt_sum_of_squares shp sampling (data ft) in
          match distances with
          | Some d =>
              if negb (bool_decide (shape (arr d) = shp)) then
                (Raise (RuntimeError "indices has wrong shape"), bufs)
              else if negb (bool_decide (dtype_of d = dt_float64)) then
                (Raise (RuntimeError "indices must be of float64 type"), bufs)
              else
                let dtarr :=
                  mk_array dt_float64
                    (mk_ndarray shp (map (fun x => SFloat (fsqrt x)) dt)) in
                (Ok (construct_result return_distances return_indices
                       dt_inplace ft_inplace (Some dtarr) (Some ftarr)),
                 mk_dt_buffers (Some dtarr) (indices_buf bufs))
          | None =>
              let dtarr :=
                mk_array dt_float64
                  (mk_ndarray shp (map (fun x => SFloat (fsqrt x)) dt)) in
              (Ok (construct_result return_distances return_indices
                     dt_inplace ft_inplace (Some dtarr) (Some ftarr)), bufs)
          end
        else
          (Ok (construct_result return_distances return_indices
                 dt_inplace ft_inplace None (Some ftarr)), bufs)
    end.

(** ** The single-iteration operator *)

(** One pass of the kernel on the buffer of a boolean array of shape
    [shp], with the offsets [offs]. *)
Definition erode_data (shp : list nat) (offs : list (list Z))
    (mask : option (ndarray bool)) (border_value invert : bool)
    (d : list bool) : list bool :=
  map (erode_point (mk_ndarray shp d) offs mask border_value invert)
      (seq 0 (size shp)).

(** The single-iteration operator on boolean arrays: one kernel pass. *)
Definition single_iteration (structure : ndarray bool)
    (mask : option (ndarray bool)) (border_value : bool) (origin : list Z)
    (invert : bool) (a : ndarray bool) : ndarray bool :=
  mk_ndarray (shape a)
    (erode_data (shape a) (offsets structure origin) mask border_value invert
       (data a)).

(** The number of cells of a buffer that hold the value [t]. *)
Definition count_value (t : bool) (d : list bool) : nat :=
  length (List.filter (eqb t) d).

(** The buffer that a name stands for. *)
Definition buffer_of (s : slot) (st : buffers bool) : ndarray bool :=
  match s with
  | SlotA => bufA st
  | SlotB => bufB st
  end.

(** What the brute-force loop keeps true of its buffers: the two names
    differ, both buffers have the shape of the input, and the one named
    [tmp_out] was filled by a pass. *)
Definition loop_invariant (shp : list nat) (tmp_in tmp_out : slot)
    (st : buffers bool) : Prop :=
  tmp_in <> tmp_out
  /\ shape (bufA st) = shp /\ shape (bufB st) = shp
  /\ length (data (buffer_of tmp_out st)) = size shp.

(** [r] is the first fixed point of [K] on the orbit of [d]: the array
    reached by repeating [K] until a pass produces no change. *)
Definition first_fixed_point {X : Type} (K : X -> X) (d r : X) : Prop :=
  exists k, r = Nat.iter k K d
            /\ K r = r
            /\ forall j, j < k -> K (Nat.iter j K d) <> Nat.iter j K d.

(** The state of the worklist propagation: the array [d] is a pass over
    [p], and the worklist holds the cells that this pass changed. *)
Definition worklist_state (shp : list nat) (offs : list (list Z))
    (mask : option (ndarray bool)) (border_value invert : bool)
    (p d : list bool) (W : list nat) : Prop :=
  d = erode_data shp offs mask border_value invert p
  /\ forall c, In c W <-> c < size shp /\ nth c d false <> nth c p false.

(** ** The working array of the brute-force distance transform *)

(** The offsets of the full neighbourhood of a cell: every vector of
    [{-1, 0, 1}^rank], the null vector included. *)
Fixpoint unit_cube (rank : nat) : list (list Z) :=
  match rank with
  | O => [[]]
  | Datatypes.S r =>
      flat_map (fun x => map (cons x) (unit_cube r)) [-1; 0; 1]%Z
  end.

(** Does the full neighbourhood of the cell with flat index [i] hold a
    foreground cell of the array? *)
Definition touches_foreground {A} `{Dtype A} (input : ndarray A) (i : nat)
  : bool :=
  existsb (fun v =>
             let q := vadd (unravel (shape input) i) v in
             in_bounds (shape input) q
             && value_at (data input) (ravel (shape input) q))
          (unit_cube (ndim input)).

(** The value of a cell of the working array: 1 on the foreground, -1 on
    the background cells that touch the foreground, 0 elsewhere. *)
Definition working_value {A} `{Dtype A} (input : ndarray A) (i : nat) : Z :=
  if value_at (data input) i then 1%Z
  else if touches_foreground input i then (-1)%Z
  else 0%Z.

(** The boundary set in the words of the specification: the voxels that
    are foreground but have at least one neighbour, at full connectivity,
    that is background (a position outside the array counting as
    background, as for the erosion whose complement in the foreground the
    set is). *)
Definition spec_boundary_set {A} `{Dtype A} (input : ndarray A)
  : ndarray bool :=
  mk_ndarray (shape input)
    (map (fun i =>
            value_at (data input) i
            && existsb (fun v =>
                          negb (effective_value input false
                                  (vadd (unravel (shape input) i) v)))
                       (unit_cube (ndim input)))
         (seq 0 (size (shape input)))).

(** ** Order on boolean arrays *)

(** [a <= b] cell by cell: every cell that is on in [a] is on in [b]. *)
Definition included (a b : ndarray bool) : Prop :=
  forall i, nth i (data a) false = true -> nth i (data b) false = true.

(** ** Complements *)

(** [numpy.logical_not(a)] *)
Definition logical_not {A} `{Dtype A} (a : ndarray A) : ndarray bool :=
  mk_ndarray (shape a) (map (fun x => negb (nonzero x)) (data a)).

(** The outcome of a call with every array it yields complemented. *)
Definition complement_result (r : fueled (erosion_result bool))
  : fueled (erosion_result bool) :=
  match r with
  | Some (Ok r) =>
      Some (Ok (mk_erosion_result (option_map logical_not (return_value r))
                  (option_map logical_not (out_buffer r))))
  | other => other
  end.

(** ** Opening, closing, hit-or-miss, propagation and hole filling *)

(** [numpy.logical_not(a, a)]: the complement written into the array
    itself. *)
Definition logical_not_into {B} `{Dtype B} (a : ndarray B) : ndarray B :=
  mk_ndarray (shape a) (map (fun x => of_bool (negb (nonzero x))) (data a)).

(** [numpy.logical_and(a, b, b)] and [numpy.logical_and(a, b)] for arrays
    of one shape: the conjunction, written into [b] or into a new array of
    its kind. *)
Definition logical_and_into {B} `{Dtype B} (a : ndarray bool) (b : ndarray B)
  : ndarray B :=
  mk_ndarray (shape b)
    (zip_with (fun x y => of_bool (x && nonzero y)) (data a) (data b)).

(** [binary_opening(input, structure, iterations, output, origin)]: the
    erosion into a fresh array, then the dilation of that array into
    [output]. *)
Definition binary_opening {A B} `{Dtype A} `{Dtype B} (fuel : nat)
    (input : ndarray A) (structure : option (ndarray bool)) (iterations : Z)
    (output : output_arg B) (origin : int_or_seq Z)
  : fueled (erosion_result B) :=
  let structure :=
    match structure with
    | None => generate_binary_structure (ndim input) 1
    | Some s => s
    end in
  match binary_erosion (B := bool) fuel input (Some structure) iterations None
          OutNone false origin false with
  | Some (Ok r) =>
      match return_value r with
      | Some tmp =>
          binary_dilation fuel tmp (Some structure) iterations None output
            false origin false
      | None => Some (Raise (TypeError "NoneType"))
      end
  | Some (Raise e) => Some (Raise e)
  | None => None
  end.

(** [binary_closing(input, structure, iterations, output, origin)]: the
    dilation into a fresh array, then the erosion of that array into
    [output]. *)
Definition binary_closing {A B} `{Dtype A} `{Dtype B} (fuel : nat)
    (input : ndarray A) (structure : option (ndarray bool)) (iterations : Z)
    (output : output_arg B) (origin : int_or_seq Z)
  : fueled (erosion_result B) :=
  let structure :=
    match structure with
    | None => generate_binary_structure (ndim input) 1
    | Some s => s
    end in
  match binary_dilation (B := bool) fuel input (Some structure) iterations
          None OutNone false origin false with
  | Some (Ok r) =>
      match return_value r with
      | Some tmp =>
          binary_erosion fuel tmp (Some structure) iterations None output
            false origin false
      | None => Some (Raise (TypeError "NoneType"))
      end
  | Some (Raise e) => Some (Raise e)
  | None => None
  end.

(** [binary_hit_or_miss(input, structure1, structure2, output, origin1,
    origin2)]: the erosion by [structure1], and the complement of the
    inverted pass by [structure2]; with a caller's array the conjunction
    is left in that array and None is returned. *)
Definition binary_hit_or_miss {A B} `{Dtype A} `{Dtype B} (input : ndarray A)
    (structure1 structure2 : option (ndarray bool)) (output : output_arg B)
    (origin1 : int_or_seq Z) (origin2 : option (int_or_seq Z))
  : fueled (erosion_result B) :=
  let structure1 :=
    match structure1 with
    | None => generate_binary_structure (ndim input) 1
    | Some s => s
    end in
  let structure2 :=
    match structure2 with
    | None => logical_not structure1
    | Some s => s
    end in
  match
    (let! origin1 := _normalize_sequence origin1 (ndim input) in
     let! origin2 :=
       match origin2 with
       | None => Ok origin1
       | Some o => _normalize_sequence o (ndim input)
       end in
     Ok (origin1, origin2))
  with
  | Raise e => Some (Raise e)
  | Ok (origin1, origin2) =>
      match _binary_erosion (B := bool) 0 input (Some structure1) 1 None
              OutNone false (Sequence origin1) false false with
      | Some (Ok r1) =>
          match return_value r1 with
          | Some tmp1 =>
              match _binary_erosion 0 input (Some structure2) 1 None output
                      false (Sequence origin2) true false with
              | Some (Ok r) =>
                  Some (Ok (mk_erosion_result
                              (option_map
                                 (fun res =>
                                    logical_and_into tmp1
                                      (logical_not_into res))
                                 (return_value r))
                              (option_map
                                 (fun out =>
                                    logical_and_into tmp1
                                      (logical_not_into out))
                                 (out_buffer r))))
              | other => other
              end
          | None => Some (Raise (TypeError "NoneType"))
          end
      | Some (Raise e) => Some (Raise e)
      | None => None
      end
  end.

(** [binary_propagation(input, structure, mask, output, border_value,
    origin)]: dilation with [iterations = -1]. *)
Definition binary_propagation {A B} `{Dtype A} `{Dtype B} (fuel : nat)
    (input : ndarray A) (structure : option (ndarray bool))
    (mask : option (ndarray bool)) (output : output_arg B)
    (border_value : bool) (origin : int_or_seq Z)
  : fueled (erosion_result B) :=
  binary_dilation fuel input structure (-1) mask output border_value origin
    false.

(** [binary_fill_holes(input, structure, output, origin)]: the
    propagation of the border value 1 through the complement of the
    input, complemented in place. *)
Definition binary_fill_holes {A B} `{Dtype A} `{Dtype B} (fuel : nat)
    (input : ndarray A) (structure : option (ndarray bool))
    (output : output_arg B) (origin : int_or_seq Z)
  : fueled (erosion_result B) :=
  let mask := logical_not input in
  let tmp := zeros (shape mask) in
  match binary_dilation fuel tmp structure (-1) (Some mask) output true
          origin false with
  | Some (Ok r) =>
      Some (Ok (mk_erosion_result
                  (option_map logical_not_into (return_value r))
                  (option_map logical_not_into (out_buffer r))))
  | other => other
  end.

(** ** Iterated structures *)

(** What [iterate_structure] and the grey-scale functions raise: the
    exceptions of the binary drivers, and ValueError (of [numpy.zeros] for
    a negative dimension, or of the functions themselves). *)
Inductive raised : Type :=
  | ValueError (msg : string)
  | Propagated (e : exn).

(** [out = numpy.zeros(shape, bool); out[slc] = structure != 0]: the
    structure placed in an array of zeros that leaves room for [ni]
    dilations. *)
Definition embed_structure (structure : ndarray bool) (ni : nat)
  : ndarray bool :=
  let shp := map (fun ii => ii + ni * (ii - 1)) (shape structure) in
  let pos := map (fun ii => Z.of_nat (ni * (ii / 2))) (shape structure) in
  mk_ndarray shp
    (map (fun i =>
            let c := vsub (unravel shp i) pos in
            if in_bounds (shape structure) c
            then nth (ravel (shape structure) c) (data structure) false
            else false)
         (seq 0 (size shp))).

(** [iterate_structure(structure, iterations, origin)] for a boolean
    structure: the structure itself when [iterations < 2], whether or not
    an origin is given; otherwise the dilated array, with the origin
    multiplied by [iterations] when one is given. An axis of length 0
    makes the shape of the array of zeros negative. *)
Definition iterate_structure (fuel : nat) (structure : ndarray bool)
    (iterations : Z) (origin : option (int_or_seq Z))
  : option (ndarray bool * option (list Z) + raised) :=
  if (iterations <? 2)%Z then Some (inl (structure, None))
  else
    let ni := (iterations - 1)%Z in
    if existsb (fun ii => ii =? 0) (shape structure) then
      Some (inr (ValueError "negative dimensions are not allowed"))
    else
      let out := embed_structure structure (Z.to_nat ni) in
      match binary_dilation (B := bool) fuel out (Some structure) ni None
              OutNone false (Scalar 0%Z) false with
      | Some (Ok r) =>
          match return_value r with
          | Some out =>
              match origin with
              | None => Some (inl (out, None))
              | Some origin =>
                  match _normalize_sequence origin (ndim structure) with
                  | Ok origin =>
                      Some (inl (out,
                                 Some (map (fun o => (iterations * o)%Z)
                                         origin)))
                  | Raise e => Some (inr (Propagated e))
                  end
              end
          | None => Some (inr (Propagated (TypeError "NoneType")))
          end
      | Some (Raise e) => Some (inr (Propagated e))
      | None => None
      end.

(** The cell of the hit-or-miss transform: every cell under [structure1]
    is foreground and every cell under [structure2] is background, a
    position outside the array counting as background. *)
Definition hit_or_miss_cell {A} `{Dtype A} (input : ndarray A)
    (offs1 offs2 : list (list Z)) (i : nat) : bool :=
  forallb (fun v =>
             effective_value input false (vadd (unravel (shape input) i) v))
          offs1
  && forallb (fun v =>
                negb (effective_value input false
                        (vadd (unravel (shape input) i) v)))
             offs2.

(** [numpy.logical_or(a, b)] and [numpy.logical_and(a, b)] of two boolean
    arrays of one shape. *)
Definition array_or (a b : ndarray bool) : ndarray bool :=
  mk_ndarray (shape a) (zip_with orb (data a) (data b)).

Definition array_and (a b : ndarray bool) : ndarray bool :=
  mk_ndarray (shape a) (zip_with andb (data a) (data b)).

(** ** Grey-scale morphology *)

(** The element arithmetic that the grey-scale functions perform. *)
Class Arith (V : Type) : Type := {
  elem_add : V -> V -> V;
  elem_sub : V -> V -> V
}.

(** What a grey-scale function yields: the value it returns and, with a
    caller's output array, the final content of that array. *)
Record grey_result (V : Type) : Type := mk_grey_result {
  grey_return : option (ndarray V);
  grey_out : option (ndarray V)
}.
Arguments mk_grey_result {V} _ _.
Arguments grey_return {V} _.
Arguments grey_out {V} _.

(** The module [filters], which is not part of the source tree:
    [filters._min_or_max_filter(input, size, footprint, structure, output,
    mode, cval, origin, minimum)] is a parameter. *)
Record filters (V : Type) : Type := mk_filters {
  _min_or_max_filter :
    ndarray V -> option (int_or_seq Z) -> option (ndarray bool) ->
    option (ndarray V) -> output_arg V -> string -> V -> int_or_seq Z -> Z ->
    grey_result V + raised
}.
Arguments _min_or_max_filter {V} _.

Definition unspecified_neighbourhood : raised :=
  ValueError "size, footprint or structure must be specified".

(** [grey_erosion] *)
Definition grey_erosion {V} (Fl : filters V) (input : ndarray V)
    (size : option (int_or_seq Z)) (footprint : option (ndarray bool))
    (structure : option (ndarray V)) (output : output_arg V) (mode : string)
    (cval : V) (origin : int_or_seq Z) : grey_result V + raised :=
  match size, footprint, structure with
  | None, None, None => inr unspecified_neighbourhood
  | _, _, _ =>
      _min_or_max_filter Fl input size footprint structure output mode cval
        origin 1
  end.

(** The length [sz] of axis [ii] in the loop of [grey_dilation]: of the
    footprint, else of the structure, else the size. *)
Definition grey_axis_length {V} (size : option (int_or_seq Z))
    (footprint : option (ndarray bool)) (structure : option (ndarray V))
    (ii : nat) : result Z :=
  let of_shape (shp : list nat) :=
    match shp !! ii with
    | Some d => Ok (Z.of_nat d)
    | None => Raise (IndexError "tuple index out of range")
    end in
  match footprint, structure, size with
  | Some f, _, _ => of_shape (shape f)
  | None, Some s, _ => of_shape (shape s)
  | None, None, Some (Scalar n) => Ok n
  | None, None, Some (Sequence l) =>
      match l !! ii with
      | Some n => Ok n
      | None => Raise (IndexError "tuple index out of range")
      end
  | None, None, None =>
      Raise (TypeError "'NoneType' object is not subscriptable")
  end.

(** The loop of [grey_dilation] over the axes of the origin, from axis
    [ii] on. *)
Fixpoint grey_reflect_origin (sz : nat -> result Z) (ii : nat)
    (origin : list Z) : result (list Z) :=
  match origin with
  | [] => Ok []
  | o :: os =>
      let! s := sz ii in
      let! os' := grey_reflect_origin sz (S ii) os in
      Ok ((if (Z.land s 1 =? 0)%Z then - o - 1 else - o)%Z :: os')
  end.

(** [grey_dilation] *)
Definition grey_dilation {V} `{Inhabited V} (Fl : filters V)
    (input : ndarray V) (size : option (int_or_seq Z))
    (footprint : option (ndarray bool)) (structure : option (ndarray V))
    (output : output_arg V) (mode : string) (cval : V)
    (origin : int_or_seq Z) : grey_result V + raised :=
  match size, footprint, structure with
  | None, None, None => inr unspecified_neighbourhood
  | _, _, _ =>
      let structure := option_map flip_all structure in
      let footprint := option_map flip_all footprint in
      match
        (let! origin := _normalize_sequence origin (ndim input) in
         grey_reflect_origin (grey_axis_length size footprint structure) 0
           origin)
      with
      | Raise e => inr (Propagated e)
      | Ok origin =>
          _min_or_max_filter Fl input size footprint structure output mode
            cval (Sequence origin) 0
      end
  end.

(** The array that a call without output array returned. *)
Definition returned {V} (r : grey_result V + raised)
  : ndarray V + raised :=
  match r with
  | inl r =>
      match grey_return r with
      | Some a => inl a
      | None => inr (Propagated (TypeError "NoneType"))
      end
  | inr e => inr e
  end.

(** A binary operation of numpy on two arrays of one shape. *)
Definition elementwise {V} (f : V -> V -> V) (a b : ndarray V) : ndarray V :=
  mk_ndarray (shape a) (zip_with f (data a) (data b)).

(** [grey_opening] *)
Definition grey_opening {V} `{Inhabited V} (Fl : filters V)
    (input : ndarray V) size footprint structure (output : output_arg V)
    (mode : string) (cval : V) (origin : int_or_seq Z)
  : grey_result V + raised :=
  match returned (grey_erosion Fl input size footprint structure OutNone mode
                    cval origin) with
  | inl tmp =>
      grey_dilation Fl tmp size footprint structure output mode cval origin
  | inr e => inr e
  end.

(** [grey_closing] *)
Definition grey_closing {V} `{Inhabited V} (Fl : filters V)
    (input : ndarray V) size footprint structure (output : output_arg V)
    (mode : string) (cval : V) (origin : int_or_seq Z)
  : grey_result V + raised :=
  match returned (grey_dilation Fl input size footprint structure OutNone
                    mode cval origin) with
  | inl tmp =>
      grey_erosion Fl tmp size footprint structure output mode cval origin
  | inr e => inr e
  end.

(** The second pass of the four functions below: into the caller's
    array, whose final content [combine] then computes in place and
    returns, or into a fresh array. *)
Definition grey_second_pass {V}
    (pass : output_arg V -> grey_result V + raised)
    (output : output_arg V) (combine : ndarray V -> ndarray V)
  : grey_result V + raised :=
  match output with
  | OutArray buf =>
      match pass output with
      | inl r =>
          let out := default buf (grey_out r) in
          inl (mk_grey_result (Some (combine out)) (Some (combine out)))
      | inr e => inr e
      end
  | OutNone =>
      match returned (pass OutNone) with
      | inl t => inl (mk_grey_result (Some (combine t)) None)
      | inr e => inr e
      end
  end.

(** [morphological_gradient]: the dilation minus the erosion. *)
Definition morphological_gradient {V} `{Inhabited V} `{Arith V}
    (Fl : filters V) (input : ndarray V) size footprint structure
    (output : output_arg V) (mode : string) (cval : V)
    (origin : int_or_seq Z) : grey_result V + raised :=
  match returned (grey_dilation Fl input size footprint structure OutNone
                    mode cval origin) with
  | inl tmp =>
      grey_second_pass
        (fun out =>
           grey_erosion Fl input size footprint structure out mode cval
             origin)
        output (fun e => elementwise elem_sub tmp e)
  | inr e => inr e
  end.

(** [morphological_laplace]: the dilation plus the erosion, minus twice
    the input (an output array that is not the input itself). *)
Definition morphological_laplace {V} `{Inhabited V} `{Arith V}
    (Fl : filters V) (input : ndarray V) size footprint structure
    (output : output_arg V) (mode : string) (cval : V)
    (origin : int_or_seq Z) : grey_result V + raised :=
  match returned (grey_dilation Fl input size footprint structure OutNone
                    mode cval origin) with
  | inl tmp1 =>
      grey_second_pass
        (fun out =>
           grey_erosion Fl input size footprint structure out mode cval
             origin)
        output
        (fun e =>
           elementwise elem_sub
             (elementwise elem_sub (elementwise elem_add tmp1 e) input)
             input)
  | inr e => inr e
  end.

(** [white_tophat]: the input minus its opening. *)
Definition white_tophat {V} `{Inhabited V} `{Arith V} (Fl : filters V)
    (input : ndarray V) size footprint structure (output : output_arg V)
    (mode : string) (cval : V) (origin : int_or_seq Z)
  : grey_result V + raised :=
  match returned (grey_erosion Fl input size footprint structure OutNone mode
                    cval origin) with
  | inl tmp =>
      grey_second_pass
        (fun out =>
           grey_dilation Fl tmp size footprint structure out mode cval
             origin)
        output (fun d => elementwise elem_sub input d)
  | inr e => inr e
  end.

(** [black_tophat]: the closing of the input minus the input. *)
Definition black_tophat {V} `{Inhabited V} `{Arith V} (Fl : filters V)
    (input : ndarray V) size footprint structure (output : output_arg V)
    (mode : string) (cval : V) (origin : int_or_seq Z)
  : grey_result V + raised :=
  match returned (grey_dilation Fl input size footprint structure OutNone
                    mode cval origin) with
  | inl tmp =>
      grey_second_pass
        (fun out =>
           grey_erosion Fl tmp size footprint structure out mode cval origin)
        output (fun e => elementwise elem_sub e input)
  | inr e => inr e
  end.

(** ** Carriers for running the transforms on examples *)

(** Integer arithmetic in the place of the [float64] operations, for
    examples whose distances are integral. *)
#[export] Instance Z_float64 : Float64 Z :=
  {| of_int := fun z => z; fmul := Z.mul; fadd := Z.add; fsqrt := Z.sqrt |}.

(** Kernels that leave the arrays they are given as they are, for examples
    that do not depend on what the kernels compute. *)
Definition idle_kernels : nd_image Z :=
  mk_nd_image Z
    (fun _ _ _ dt ft =>
       (match dt with Some d => data (arr d) | None => [] end,
        match ft with Some f => data f | None => [] end))
    (fun _ dt ft => (data dt, match ft with Some f => data f | None => [] end))
    (fun _ _ ft => data ft).



(** * Properties *)
(** ** Facts on row-major indexing *)

Section Indexing.

Lemma length_unravel shp i : length (unravel shp i) = length shp.
Proof. revert i; induction shp as [|d rest IH]; intros i; simpl; [done|by rewrite IH]. Qed.

Lemma in_bounds_length shp c : in_bounds shp c = true -> length c = length shp.
Proof.
  revert c; induction shp as [|d rest IH]; intros [|x xs]; simpl; try done.
  intros Hb. apply andb_prop in Hb as [_ Hb]. by rewrite (IH _ Hb).
Qed.

Lemma in_bounds_unravel shp i : i < size shp -> in_bounds shp (unravel shp i) = true.
Proof.
  revert i; induction shp as [|d rest IH]; intros i Hi; simpl in *; [done|].
  assert (Hr : 0 < size rest) by (destruct (size rest); lia).
  rewrite IH; [|by apply Nat.mod_upper_bound; lia].
  rewrite andb_true_r. apply andb_true_intro; split.
  - apply Z.leb_le. lia.
  - apply Z.ltb_lt. apply inj_lt. apply Nat.Div0.div_lt_upper_bound. lia.
Qed.

Lemma ravel_unravel shp i : i < size shp -> ravel shp (unravel shp i) = i.
Proof.
  revert i; induction shp as [|d rest IH]; intros i Hi; simpl in *; [lia|].
  assert (Hr : 0 < size rest) by (destruct (size rest); lia).
  rewrite IH; [|by apply Nat.mod_upper_bound; lia].
  rewrite Nat2Z.id. pose proof (Nat.div_mod_eq i (size rest)). lia.
Qed.

Lemma ravel_lt shp c : in_bounds shp c = true -> ravel shp c < size shp.
Proof.
  revert c; induction shp as [|d rest IH]; intros [|x xs]; simpl; try done.
  - lia.
  - intros Hb. apply andb_prop in Hb as [Hb Hrest].
    apply andb_prop in Hb as [H0 H1].
    apply Z.leb_le in H0. apply Z.ltb_lt in H1.
    specialize (IH _ Hrest).
    assert (Z.to_nat x < d) by lia. nia.
Qed.

Lemma unravel_ravel shp c : in_bounds shp c = true -> unravel shp (ravel shp c) = c.
Proof.
  revert c; induction shp as [|d rest IH]; intros [|x xs]; simpl; try done.
  intros Hb. apply andb_prop in Hb as [Hb Hrest].
  apply andb_prop in Hb as [H0 H1].
  apply Z.leb_le in H0. apply Z.ltb_lt in H1.
  pose proof (ravel_lt _ _ Hrest) as Hlt.
  rewrite Nat.div_add_l by lia. rewrite (Nat.div_small _ _ Hlt).
  rewrite Nat.add_0_r, Z2Nat.id by lia.
  rewrite Nat.add_comm, Nat.Div0.mod_add, (Nat.mod_small _ _ Hlt).
  by rewrite (IH _ Hrest).
Qed.

(** Two flat indices in range with the same coordinate are equal. *)
Lemma unravel_inj shp i j :
  i < size shp -> j < size shp -> unravel shp i = unravel shp j -> i = j.
Proof.
  intros Hi Hj Heq.
  rewrite <- (ravel_unravel shp i Hi), <- (ravel_unravel shp j Hj). by rewrite Heq.
Qed.

End Indexing.

(** ** Which exceptions the helpers raise *)

Lemma take_indices_raise {X} (row : list X) ft e :
  take_indices row ft = Raise e -> e = IndexError "index out of bounds".
Proof.
  revert e; induction ft as [|k ks IH]; intros e; simpl; [done|].
  repeat case_match; simpl; try congruence.
  destruct (take_indices row ks) eqn:E; simpl; [done|].
  intros [= <-]. by apply IH.
Qed.

Lemma gather_rows_raise {X} n ft count ii (l : list X) e :
  gather_rows n ft count ii l = Raise e -> e = IndexError "index out of bounds".
Proof.
  revert ii l; induction count as [|c IH]; intros ii l; simpl; [done|].
  destruct (take_indices _ ft) eqn:E; simpl.
  - apply IH.
  - intros [= <-]. by eapply take_indices_raise.
Qed.

Lemma indices_from_features_raise {F} shp ft (indices : option (array F)) e :
  indices_from_features shp ft indices = Raise e -> e <> neither_requested.
Proof.
  unfold indices_from_features, neither_requested.
  repeat case_match; simpl; try congruence.
  all: destruct (gather_rows _ _ _ _ _) eqn:E; simpl; try congruence.
  all: apply gather_rows_raise in E; congruence.
Qed.

Lemma reflect_origin_raise sshape origin e :
  reflect_origin sshape origin = Raise e ->
  e = IndexError "tuple index out of range".
Proof.
  revert sshape; induction origin as [|o os IH]; intros [|ss rest]; simpl;
    try congruence.
  destruct (reflect_origin rest os) eqn:E; simpl; [done|].
  intros [= <-]. by eapply IH.
Qed.

Lemma normalize_sequence_raise {X} (s : int_or_seq X) rank e :
  _normalize_sequence s rank = Raise e -> e <> neither_requested.
Proof.
  unfold _normalize_sequence, neither_requested.
  destruct s; [done|]. case_decide; congruence.
Qed.

Lemma erosion_checks_raise {A B} `{Dtype A} `{Dtype B} (input : ndarray A)
    structure mask (output : output_arg B) origin e :
  erosion_checks input structure mask output origin = Raise e ->
  e <> neither_requested.
Proof.
  unfold erosion_checks, neither_requested.
  repeat case_match; try congruence.
  all: destruct (_normalize_sequence origin (ndim input)) as [o|e'] eqn:E;
    simpl; [|intros [= <-]; by apply normalize_sequence_raise in E].
  all: unfold _center_is_true; repeat case_match; simpl; congruence.
Qed.

Lemma erosion_passes_raise {A C} `{Dtype A} `{Dtype C} fuel (input : ndarray A)
    structure iterations mask (output : ndarray C) border_value origin invert
    cit brute_force e :
  erosion_passes fuel input structure iterations mask output border_value
    origin invert cit brute_force = Some (Raise e) ->
  e = IndexError "tuple index out of range".
Proof.
  unfold erosion_passes. repeat case_match; try congruence.
  intros [= <-]. by eapply reflect_origin_raise.
Qed.

Lemma binary_erosion_raise {A B} `{Dtype A} `{Dtype B} fuel (input : ndarray A)
    structure iterations mask (output : output_arg B) border_value origin
    invert brute_force e :
  _binary_erosion fuel input structure iterations mask output border_value
    origin invert brute_force = Some (Raise e) ->
  e <> neither_requested.
Proof.
  unfold _binary_erosion.
  destruct (erosion_checks input structure mask output origin)
    as [[[s o] cit]|e'] eqn:E.
  - destruct output as [|buf].
    + destruct (erosion_passes _ _ _ _ _ _ _ _ _ _ _) as [[[? ?]|e']|] eqn:E';
        try congruence.
      intros [= <-]. apply erosion_passes_raise in E'. by subst.
    + destruct (erosion_passes _ _ _ _ _ _ _ _ _ _ _) as [[[? ?]|e']|] eqn:E';
        try congruence.
      intros [= <-]. apply erosion_passes_raise in E'. by subst.
  - intros [= <-]. by apply erosion_checks_raise in E.
Qed.

Lemma binary_dilation_raise {A B} `{Dtype A} `{Dtype B} fuel (input : ndarray A)
    structure iterations mask (output : output_arg B) border_value origin
    brute_force e :
  binary_dilation fuel input structure iterations mask output border_value
    origin brute_force = Some (Raise e) ->
  e <> neither_requested.
Proof.
  unfold binary_dilation.
  destruct (_normalize_sequence origin (ndim input)) as [o|e'] eqn:E.
  - destruct (reflect_origin _ o) as [o'|e'] eqn:E'.
    + apply binary_erosion_raise.
    + intros [= <-]. apply reflect_origin_raise in E'. by subst.
  - intros [= <-]. by apply normalize_sequence_raise in E.
Qed.

Lemma bf_working_array_raise {A} `{Dtype A} (input : ndarray A) e :
  bf_working_array input = Some (Raise e) -> e <> neither_requested.
Proof.
  unfold bf_working_array.
  destruct (binary_dilation _ _ _ _ _ _ _ _ _) as [[r|e']|] eqn:E; try done.
  - destruct (return_value r); [done|]. by intros [= <-].
  - intros [= <-]. by apply binary_dilation_raise in E.
Qed.

(** ** Requesting neither distances nor indices *)

Ltac split_binds :=
  repeat match goal with
         | Hb : bind ?c _ = _ |- _ =>
             let E := fresh "E" in
             destruct c eqn:E; simpl in Hb; try congruence
         end.

Ltac other_error :=
  unfold neither_requested in *;
  try congruence;
  try (exfalso; eapply indices_from_features_raise; eauto; fail);
  try (match goal with
       | E : _normalize_sequence _ _ = Raise _ |- _ =>
           apply normalize_sequence_raise in E
       end; unfold neither_requested in *; congruence).

Lemma bf_neither_only {A F} `{Dtype A} `{Float64 F} (K : nd_image F)
    (input : ndarray A) metric sampling rd ri distances indices o :
  distance_transform_bf K input metric sampling rd ri distances indices
  = Some o ->
  o.1 = Raise neither_requested -> rd = false /\ ri = false.
Proof.
  unfold distance_transform_bf. destruct rd, ri; simpl; try done.
  all: destruct (bf_working_array input) as [[w|e]|] eqn:Ew; try done.
  all: try (intros [= <-]; simpl; intros [= ->];
            by apply bf_working_array_raise in Ew).
  all: unfold bf_metric, normalize_sampling, bf_distances.
  all: repeat case_match; simpl in *; split_binds.
  all: intros [= <-]; simpl; intros [= ->]; other_error.
Qed.

Lemma cdt_neither_only {A F} `{Dtype A} (K : nd_image F) (input : ndarray A)
    metric rd ri (distances indices : option (array F)) :
  (distance_transform_cdt K input metric rd ri distances indices).1
  = Raise neither_requested ->
  rd = false /\ ri = false.
Proof.
  unfold distance_transform_cdt. destruct rd, ri; simpl; try done.
  all: unfold cdt_metric; repeat case_match; simpl in *.
  all: intros [= ->]; other_error.
Qed.

Lemma edt_neither_only {A F} `{Dtype A} `{Float64 F} (K : nd_image F)
    (input : ndarray A) sampling rd ri distances indices :
  (distance_transform_edt K input sampling rd ri distances indices).1
  = Raise neither_requested ->
  rd = false /\ ri = false.
Proof.
  unfold distance_transform_edt. destruct rd, ri; simpl; try done.
  all: unfold normalize_sampling.
  all: repeat case_match; simpl in *; split_binds.
  all: intros [= ->]; other_error.
Qed.

(** C7: each of the three distance transforms raises the error "at least
    one of distances/indices must be specified", leaving the caller's
    arrays as they were, when both [return_distances] and
    [return_indices] are false, and raises that error in no other case. *)
Theorem C7_neither_requested {A F} `{Dtype A} `{Float64 F} (K : nd_image F)
    (input : ndarray A) (metric_bf : string) (metric_cdt : metric_arg)
    (sampling : option (int_or_seq F)) (rd ri : bool)
    (distances indices : option (array F)) :
  let untouched := mk_dt_buffers distances indices in
  ((rd = false /\ ri = false ->
    distance_transform_bf K input metric_bf sampling rd ri distances indices
    = Some (Raise neither_requested, untouched))
   /\ (forall o,
         distance_transform_bf K input metric_bf sampling rd ri distances
           indices = Some o ->
         o.1 = Raise neither_requested -> rd = false /\ ri = false))
  /\ ((rd = false /\ ri = false ->
       distance_transform_cdt K input metric_cdt rd ri distances indices
       = (Raise neither_requested, untouched))
      /\ ((distance_transform_cdt K input metric_cdt rd ri distances
             indices).1 = Raise neither_requested ->
          rd = false /\ ri = false))
  /\ ((rd = false /\ ri = false ->
       distance_transform_edt K input sampling rd ri distances indices
       = (Raise neither_requested, untouched))
      /\ ((distance_transform_edt K input sampling rd ri distances
             indices).1 = Raise neither_requested ->
          rd = false /\ ri = false)).
Proof.
  intros untouched.
  split; [split|split; split].
  - by intros [-> ->].
  - intros o. apply bf_neither_only.
  - by intros [-> ->].
  - apply cdt_neither_only.
  - by intros [-> ->].
  - apply edt_neither_only.
Qed.

(** ** Origins and generated structures *)

Lemma normalize_sequence_length {X} (s : int_or_seq X) rank l :
  _normalize_sequence s rank = Ok l -> length l = rank.
Proof.
  unfold _normalize_sequence. destruct s as [x|l'].
  - intros [= <-]. by rewrite length_replicate.
  - case_decide; [|done]. by intros [= <-].
Qed.

Lemma reflect_origin_ok sshape origin :
  length origin <= length sshape ->
  exists o, reflect_origin sshape origin = Ok o /\ length o = length origin.
Proof.
  revert sshape; induction origin as [|x xs IH]; intros [|ss rest] Hlen;
    simpl in *; try lia.
  - by exists [].
  - by exists [].
  - destruct (IH rest) as (o & -> & Ho); [lia|]. simpl.
    eexists; split; [done|]. simpl. by rewrite Ho.
Qed.

Lemma shape_generate_binary_structure rank connectivity :
  shape (generate_binary_structure rank connectivity) = replicate rank 3.
Proof.
  unfold generate_binary_structure. destruct rank; simpl; done.
Qed.

Lemma shape_flip_all {X} `{Inhabited X} (a : ndarray X) :
  shape (flip_all a) = shape a.
Proof. done. Qed.

(** ** The empty-structure error *)

(** C8 (as the code has it): a structuring element without cells (an axis
    of length zero), on a non-complex input of the same rank, makes binary
    erosion and binary dilation raise "structure must not be empty" before
    any kernel runs. *)
Theorem C8_structure_without_cells {A B} `{Dtype A} `{Dtype B} (fuel : nat)
    (input : ndarray A) (structure : ndarray bool) (iterations : Z)
    (mask : option (ndarray bool)) (output : output_arg B)
    (border_value : bool) (origin : int_or_seq Z) (o : list Z)
    (brute_force : bool) :
  iscomplexobj A = false ->
  ndim structure = ndim input ->
  size (shape structure) = 0 ->
  _normalize_sequence origin (ndim input) = Ok o ->
  binary_erosion fuel input (Some structure) iterations mask output
    border_value origin brute_force
  = Some (Raise (RuntimeError "structure must not be empty"))
  /\ binary_dilation fuel input (Some structure) iterations mask output
       border_value origin brute_force
     = Some (Raise (RuntimeError "structure must not be empty")).
Proof.
  intros Hc Hn Hs Ho.
  assert (Hchk : forall (s : ndarray bool) orig,
             shape s = shape structure ->
             erosion_checks input (Some s) mask output orig
             = Raise (RuntimeError "structure must not be empty")).
  { intros s orig Hshape. unfold erosion_checks. rewrite Hc.
    unfold ndim in *. rewrite Hshape, Hn, Nat.eqb_refl, Hs. done. }
  split.
  - unfold binary_erosion, _binary_erosion. by rewrite Hchk.
  - unfold binary_dilation. rewrite Ho.
    destruct (reflect_origin_ok (shape (flip_all structure)) o) as (o' & -> & _).
    { rewrite shape_flip_all. apply normalize_sequence_length in Ho.
      unfold ndim in *. lia. }
    unfold _binary_erosion. by rewrite Hchk.
Qed.

Lemma C8_structure_without_cells_witness :
  binary_erosion (B := bool) 0 (mk_ndarray [2] [true; false])
    (Some (mk_ndarray [0] [])) 1 None OutNone false (Scalar 0%Z) false
  = Some (Raise (RuntimeError "structure must not be empty"))
  /\ binary_dilation (B := bool) 0 (mk_ndarray [2] [true; false])
       (Some (mk_ndarray [0] [])) 1 None OutNone false (Scalar 0%Z) false
     = Some (Raise (RuntimeError "structure must not be empty")).
Proof.
  apply (C8_structure_without_cells (B := bool) 0 (mk_ndarray [2] [true; false])
           (mk_ndarray [0] []) 1 None OutNone false (Scalar 0%Z) [0%Z] false);
    reflexivity.
Defined.

(** A structuring element with cells, none of them true, is accepted:
    erosion then keeps no neighbour to test and yields an all-true array. *)
Lemma C8_counterexample :
  let structure := mk_ndarray [3] [false; false; false] in
  forallb negb (data structure) = true
  /\ binary_erosion (B := bool) 0 (mk_ndarray [2] [true; false])
       (Some structure) 1 None OutNone false (Scalar 0%Z) false
     = Some (Ok (mk_erosion_result (Some (mk_ndarray [2] [true; true])) None))
  /\ binary_dilation (B := bool) 0 (mk_ndarray [2] [true; false])
       (Some structure) 1 None OutNone false (Scalar 0%Z) false
     = Some (Ok (mk_erosion_result (Some (mk_ndarray [2] [false; false])) None)).
Proof. vm_compute. done. Qed.

(** ** Complex input *)

Lemma erosion_checks_complex {A B} `{Dtype A} `{Dtype B} (input : ndarray A)
    structure mask (output : output_arg B) origin :
  iscomplexobj A = true ->
  erosion_checks input structure mask output origin
  = Raise (TypeError "Complex type not supported").
Proof. intros Hc. unfold erosion_checks. by rewrite Hc. Qed.

Lemma erosion_checks_no_type_error {A B} `{Dtype A} `{Dtype B}
    (input : ndarray A) structure mask (output : output_arg B) origin msg :
  iscomplexobj A = false ->
  (forall buf, output = OutArray buf -> iscomplexobj B = false) ->
  erosion_checks input structure mask output origin <> Raise (TypeError msg).
Proof.
  intros Hc Hout. unfold erosion_checks. rewrite Hc.
  repeat case_match; try congruence.
  all: destruct (_normalize_sequence origin (ndim input)) as [o|e'] eqn:E;
    simpl.
  all: try (unfold _normalize_sequence in E; repeat case_match; congruence).
  all: unfold _center_is_true; repeat case_match; simpl; try congruence.
  all: specialize (Hout _ eq_refl); congruence.
Qed.

Lemma bf_working_array_no_type_error {A} `{Dtype A} (input : ndarray A) msg :
  bf_working_array input <> Some (Raise (TypeError msg)).
Proof.
  unfold bf_working_array, binary_dilation. simpl.
  destruct (reflect_origin _ _) as [o'|e'] eqn:E'.
  2:{ apply reflect_origin_raise in E'. subst. congruence. }
  unfold _binary_erosion.
  destruct (erosion_checks _ _ _ _ _) as [[[s o] cit]|e] eqn:E.
  - destruct (erosion_passes _ _ _ _ _ _ _ _ _ _ _) as [[[sl st]|e]|] eqn:Ep;
      simpl; try congruence.
    apply erosion_passes_raise in Ep. subst. congruence.
  - intros [= ->]. revert E. by apply erosion_checks_no_type_error.
Qed.

Lemma erosion_checks_type_error {A B} `{Dtype A} `{Dtype B}
    (input : ndarray A) structure mask (output : output_arg B) origin msg :
  iscomplexobj A = false ->
  erosion_checks input structure mask output origin = Raise (TypeError msg) ->
  msg = "Complex output type not supported"%string
  /\ iscomplexobj B = true
  /\ exists buf, output = OutArray buf.
Proof.
  intros Hc. unfold erosion_checks. rewrite Hc.
  repeat case_match; try congruence.
  all: destruct (_normalize_sequence origin (ndim input)) as [o|e'] eqn:E;
    simpl.
  all: try (unfold _normalize_sequence in E; repeat case_match; congruence).
  all: unfold _center_is_true; repeat case_match; simpl; try congruence.
  all: intros [= <-]; eauto.
Qed.

Lemma binary_dilation_type_error {A B} `{Dtype A} `{Dtype B} fuel
    (input : ndarray A) structure iterations mask (output : output_arg B)
    border_value origin brute_force msg :
  iscomplexobj A = false ->
  binary_dilation fuel input structure iterations mask output border_value
    origin brute_force = Some (Raise (TypeError msg)) ->
  msg = "Complex output type not supported"%string
  /\ iscomplexobj B = true
  /\ exists buf, output = OutArray buf.
Proof.
  intros Hc. unfold binary_dilation.
  destruct (_normalize_sequence origin (ndim input)) as [o|e] eqn:E.
  2:{ unfold _normalize_sequence in E; repeat case_match; congruence. }
  destruct (reflect_origin _ _) as [o'|e'] eqn:E'.
  2:{ apply reflect_origin_raise in E'. subst. congruence. }
  unfold _binary_erosion.
  destruct (erosion_checks _ _ _ _ _) as [[[s o2] cit]|e] eqn:Ec.
  - destruct output as [|buf].
    all: destruct (erosion_passes _ _ _ _ _ _ _ _ _ _ _) as [[[sl st]|e]|] eqn:Ep;
      simpl; try congruence.
    all: apply erosion_passes_raise in Ep; subst; congruence.
  - intros [= ->]. revert Ec. by apply erosion_checks_type_error.
Qed.

Lemma binary_dilation_complex {A B} `{Dtype A} `{Dtype B} fuel
    (input : ndarray A) structure iterations mask (output : output_arg B)
    border_value origin o brute_force :
  iscomplexobj A = true ->
  _normalize_sequence origin (ndim input) = Ok o ->
  (forall s, structure = Some s -> ndim input <= ndim s) ->
  binary_dilation fuel input structure iterations mask output border_value
    origin brute_force
  = Some (Raise (TypeError "Complex type not supported")).
Proof.
  intros Hc Ho Hs.
  unfold binary_dilation. rewrite Ho.
  edestruct reflect_origin_ok as (o' & -> & _).
  { rewrite shape_flip_all. apply normalize_sequence_length in Ho.
    destruct structure as [s|].
    - specialize (Hs s eq_refl). unfold ndim in *. lia.
    - rewrite shape_generate_binary_structure, length_replicate. lia. }
  unfold _binary_erosion. by rewrite erosion_checks_complex.
Qed.

(** C9 (as the code has it): on a complex input binary erosion, dilation,
    opening, closing, hit-or-miss and propagation raise the TypeError
    "Complex type not supported" (dilation, closing and propagation once
    the origin and the structure have passed the preparation of the
    reflected structure, hit-or-miss once its origins are normalized);
    hole filling does not raise it, since it passes the complement of the
    input as a mask; the three distance transforms raise no TypeError on a
    complex input: they take the truth value of every element. *)
Theorem C9_complex_input {A B F} `{Dtype A} `{Dtype B} `{Float64 F}
    (K : nd_image F) (input : ndarray A) :
  iscomplexobj A = true ->
  (forall fuel structure iterations mask (output : output_arg B) border_value
          origin brute_force,
      binary_erosion fuel input structure iterations mask output border_value
        origin brute_force
      = Some (Raise (TypeError "Complex type not supported")))
  /\ (forall fuel structure iterations mask (output : output_arg B)
             border_value origin o brute_force,
         _normalize_sequence origin (ndim input) = Ok o ->
         (forall s, structure = Some s -> ndim input <= ndim s) ->
         binary_dilation fuel input structure iterations mask output
           border_value origin brute_force
         = Some (Raise (TypeError "Complex type not supported")))
  /\ (forall fuel structure iterations (output : output_arg B) origin,
         binary_opening fuel input structure iterations output origin
         = Some (Raise (TypeError "Complex type not supported")))
  /\ (forall fuel structure iterations (output : output_arg B) origin o,
         _normalize_sequence origin (ndim input) = Ok o ->
         (forall s, structure = Some s -> ndim input <= ndim s) ->
         binary_closing fuel input structure iterations output origin
         = Some (Raise (TypeError "Complex type not supported")))
  /\ (forall structure1 structure2 (output : output_arg B) origin1 origin2 o1,
         _normalize_sequence origin1 (ndim input) = Ok o1 ->
         (forall og, origin2 = Some og ->
            exists o2, _normalize_sequence og (ndim input) = Ok o2) ->
         binary_hit_or_miss input structure1 structure2 output origin1 origin2
         = Some (Raise (TypeError "Complex type not supported")))
  /\ (forall fuel structure mask (output : output_arg B) border_value origin o,
         _normalize_sequence origin (ndim input) = Ok o ->
         (forall s, structure = Some s -> ndim input <= ndim s) ->
         binary_propagation fuel input structure mask output border_value
           origin
         = Some (Raise (TypeError "Complex type not supported")))
  /\ (forall fuel structure (output : output_arg B) origin msg,
         binary_fill_holes fuel input structure output origin
         = Some (Raise (TypeError msg)) ->
         msg = "Complex output type not supported"%string
         /\ iscomplexobj B = true
         /\ exists buf, output = OutArray buf)
  /\ (forall metric sampling rd ri distances indices o msg,
         distance_transform_bf K input metric sampling rd ri distances indices
         = Some o ->
         o.1 <> Raise (TypeError msg))
  /\ (forall metric rd ri distances indices msg,
         (distance_transform_cdt K input metric rd ri distances indices).1
         <> Raise (TypeError msg))
  /\ (forall sampling rd ri distances indices msg,
         (distance_transform_edt K input sampling rd ri distances indices).1
         <> Raise (TypeError msg)).
Proof.
  intros Hc. repeat apply conj.
  - intros. unfold binary_erosion, _binary_erosion.
    by rewrite erosion_checks_complex.
  - intros. by eapply binary_dilation_complex.
  - intros. unfold binary_opening, binary_erosion, _binary_erosion.
    by rewrite erosion_checks_complex.
  - intros fuel structure iterations output origin o Ho Hs.
    unfold binary_closing.
    rewrite (binary_dilation_complex (B := bool) _ _ _ _ _ _ _ _ o); try done.
    intros s [= <-]. destruct structure as [s|].
    + by apply Hs.
    + unfold ndim. by rewrite shape_generate_binary_structure, length_replicate.
  - intros structure1 structure2 output origin1 origin2 o1 Ho1 Ho2.
    unfold binary_hit_or_miss. rewrite Ho1. simpl.
    destruct origin2 as [og|].
    + destruct (Ho2 og eq_refl) as [o2 ->]. simpl.
      unfold _binary_erosion. by rewrite erosion_checks_complex.
    + simpl. unfold _binary_erosion. by rewrite erosion_checks_complex.
  - intros. unfold binary_propagation. by eapply binary_dilation_complex.
  - intros fuel structure output origin msg. unfold binary_fill_holes.
    destruct (binary_dilation _ _ _ _ _ _ _ _ _) as [[r|e]|] eqn:E; try done.
    intros [= ->]. revert E. by apply binary_dilation_type_error.
  - intros metric sampling rd ri distances indices o msg.
    unfold distance_transform_bf, neither_requested.
    destruct (negb rd && negb ri); [by intros [= <-]|].
    destruct (bf_working_array input) as [[w|e]|] eqn:Ew; try done.
    2:{ intros [= <-]; simpl. intros [= ->].
        by apply bf_working_array_no_type_error in Ew. }
    unfold bf_metric, normalize_sampling, bf_distances.
    repeat case_match; simpl in *; split_binds.
    all: intros [= <-]; simpl; try congruence.
    all: try (intros [= ->]).
    all: try match goal with
         | E : indices_from_features _ _ _ = Raise _ |- _ =>
             unfold indices_from_features in E; repeat case_match;
             simpl in *; split_binds;
             try match goal with
                 | G : gather_rows _ _ _ _ _ = Raise _ |- _ =>
                     apply gather_rows_raise in G
                 end; congruence
         | E : _normalize_sequence _ _ = Raise _ |- _ =>
             unfold _normalize_sequence in E; repeat case_match; congruence
         end.
  - intros metric rd ri distances indices msg.
    unfold distance_transform_cdt, neither_requested, cdt_metric.
    repeat case_match; simpl in *; try congruence.
    all: intros [= ->].
    all: match goal with
         | E : indices_from_features _ _ _ = Raise _ |- _ =>
             unfold indices_from_features in E; repeat case_match;
             simpl in *; split_binds;
             try match goal with
                 | G : gather_rows _ _ _ _ _ = Raise _ |- _ =>
                     apply gather_rows_raise in G
                 end; congruence
         end.
  - intros sampling rd ri distances indices msg.
    unfold distance_transform_edt, neither_requested, normalize_sampling.
    repeat case_match; simpl in *; split_binds; try congruence.
    all: intros [= ->].
    all: match goal with
         | E : _normalize_sequence _ _ = Raise _ |- _ =>
             unfold _normalize_sequence in E; repeat case_match; congruence
         end.
Qed.

Lemma C9_complex_input_witness :
  let input := mk_ndarray [2] [mk_complex 0 1; mk_complex 0 0] in
  iscomplexobj complex = true
  /\ binary_erosion (B := bool) 0 input None 1 None OutNone false (Scalar 0%Z)
       false
     = Some (Raise (TypeError "Complex type not supported"))
  /\ binary_dilation (B := bool) 0 input None 1 None OutNone false
       (Scalar 0%Z) false
     = Some (Raise (TypeError "Complex type not supported"))
  /\ binary_opening (B := bool) 0 input None 1 OutNone (Scalar 0%Z)
     = Some (Raise (TypeError "Complex type not supported"))
  /\ binary_closing (B := bool) 0 input None 1 OutNone (Scalar 0%Z)
     = Some (Raise (TypeError "Complex type not supported"))
  /\ binary_hit_or_miss (B := bool) input None None OutNone (Scalar 0%Z) None
     = Some (Raise (TypeError "Complex type not supported"))
  /\ binary_propagation (B := bool) 0 input None None OutNone false
       (Scalar 0%Z)
     = Some (Raise (TypeError "Complex type not supported")).
Proof.
  intros input.
  assert (Hcx : iscomplexobj complex = true) by reflexivity.
  destruct (C9_complex_input (A := complex) (B := bool) idle_kernels input
              Hcx)
    as (He & Hd & Ho & Hc & Hh & Hp & _).
  split; [reflexivity|].
  split; [apply He|].
  split; [apply (Hd _ _ _ _ _ _ _ [0%Z]); [reflexivity|intros s; discriminate]|].
  split; [apply Ho|].
  split; [apply (Hc _ _ _ _ _ [0%Z]); [reflexivity|intros s; discriminate]|].
  split; [apply (Hh _ _ _ _ _ [0%Z]); [reflexivity|intros og; discriminate]|].
  apply (Hp _ _ _ _ _ _ [0%Z]); [reflexivity|intros s; discriminate].
Defined.

(** On a complex input the chamfer transform returns an array: it is not
    the case that every distance transform raises a TypeError there. *)
Lemma C9_counterexample :
  ~ (forall (K : nd_image Z) (input : ndarray complex),
        exists msg,
          (distance_transform_cdt K input (MetricName "chessboard") true false
             None None).1 = Raise (TypeError msg)).
Proof.
  intros Hclaim.
  destruct (Hclaim idle_kernels
              (mk_ndarray [2] [mk_complex 0 1; mk_complex 0 0])) as [msg Hm].
  vm_compute in Hm. discriminate.
Qed.

(** Hole filling accepts a complex input: it reads the truth value of
    every element, and fills the hole between the two nonzero cells. *)
Lemma binary_fill_holes_complex_example :
  binary_fill_holes (B := bool) 3
    (mk_ndarray [3] [mk_complex 0 1; mk_complex 0 0; mk_complex 2 0]) None
    OutNone (Scalar 0%Z)
  = Some (Ok (mk_erosion_result (Some (mk_ndarray [3] [true; true; true]))
                None)).
Proof. vm_compute. reflexivity. Qed.

(** ** Caller-supplied output arrays *)

(** With a caller's array the drivers return None and report the array;
    without one they return a fresh array. *)
Lemma binary_erosion_return_value {A B} `{Dtype A} `{Dtype B} fuel
    (input : ndarray A) structure iterations mask (output : output_arg B)
    border_value origin invert brute_force r :
  _binary_erosion fuel input structure iterations mask output border_value
    origin invert brute_force = Some (Ok r) ->
  match output with
  | OutArray _ => return_value r = None /\ is_some (out_buffer r) = true
  | OutNone => is_some (return_value r) = true /\ out_buffer r = None
  end.
Proof.
  unfold _binary_erosion. repeat case_match; try congruence.
  all: by intros [= <-].
Qed.

(** C10 at a failing input: brute-force erosion to a fixed point
    ([iterations = 0]) of an input that is already a fixed point, with a
    caller's output array. The only pass writes the scratch buffer, the
    call returns None, and the caller's array keeps its old content
    [[true]], while the erosion of the input is [[false]]. *)
Theorem C10_stale_output_buffer (fuel : nat) :
  let input := mk_ndarray [1] [false] in
  let structure := mk_ndarray [1] [true] in
  let buf := mk_ndarray [1] [true] in
  binary_erosion (S fuel) input (Some structure) 0 None (OutArray buf) false
    (Scalar 0%Z) true
  = Some (Ok (mk_erosion_result None (Some buf)))
  /\ binary_erosion (B := bool) (S fuel) input (Some structure) 0 None OutNone
       false (Scalar 0%Z) true
     = Some (Ok (mk_erosion_result (Some (mk_ndarray [1] [false])) None)).
Proof. split; reflexivity. Qed.

(** ** Reversing every axis *)

Lemma ravel_flip_coord shp i :
  i < size shp ->
  ravel shp (flip_coord shp (unravel shp i)) = size shp - 1 - i.
Proof.
  revert i; induction shp as [|d rest IH]; intros i Hi; simpl in *; [lia|].
  assert (Hr : 0 < size rest) by (destruct (size rest); lia).
  rewrite IH by (apply Nat.mod_upper_bound; lia).
  pose proof (Nat.div_mod_eq i (size rest)) as Hdm.
  pose proof (Nat.mod_upper_bound i (size rest)) as Hm.
  assert (Hq : i / size rest < d) by (apply Nat.Div0.div_lt_upper_bound; lia).
  replace (Z.to_nat (Z.of_nat d - 1 - Z.of_nat (i / size rest)))
    with (d - 1 - i / size rest) by lia.
  nia.
Qed.

(** On an array with one buffer entry per cell, reversing every axis
    reverses the buffer. *)
Lemma flip_all_reverse {X} `{Inhabited X} (a : ndarray X) :
  wf_array a -> data (flip_all a) = reverse (data a).
Proof.
  unfold wf_array, flip_all; simpl. intros Hwf.
  apply list_eq. intros i.
  destruct (decide (i < size (shape a))) as [Hi|Hi].
  - rewrite list_lookup_fmap, lookup_seq_lt by done. simpl.
    rewrite ravel_flip_coord by done.
    rewrite reverse_lookup by lia. rewrite nth_lookup, Hwf.
    replace (size (shape a) - S i) with (size (shape a) - 1 - i) by lia.
    destruct (data a !! (size (shape a) - 1 - i)) eqn:E; [done|].
    apply lookup_ge_None in E. lia.
  - rewrite !lookup_ge_None_2; [done| |].
    + rewrite length_reverse. lia.
    + rewrite length_map, length_seq. lia.
Qed.

(** ** The pass sequence of the chamfer transform *)



(** ** The kernel, cell by cell *)

Lemma kernel_out {A} `{Dtype A} (input : ndarray A) structure mask
    border_value origin invert cit rc :
  (nd_binary_erosion input structure mask border_value origin invert cit rc).1.1
  = map (erode_point input (offsets structure origin) mask border_value invert)
        (seq 0 (size (shape input))).
Proof. done. Qed.

Lemma kernel_out_length {A} `{Dtype A} (input : ndarray A) structure mask
    border_value origin invert cit rc :
  length (nd_binary_erosion input structure mask border_value origin invert
            cit rc).1.1 = size (shape input).
Proof. by rewrite kernel_out, length_map, length_seq. Qed.

Lemma kernel_out_lookup {A} `{Dtype A} (input : ndarray A) structure mask
    border_value origin invert cit rc i :
  i < size (shape input) ->
  (nd_binary_erosion input structure mask border_value origin invert cit
     rc).1.1 !! i
  = Some (erode_point input (offsets structure origin) mask border_value
            invert i).
Proof.
  intros Hi. rewrite kernel_out, list_lookup_fmap, lookup_seq_lt by done. done.
Qed.

(** ** Duality of dilation and erosion *)

Lemma value_at_logical_not {A} `{Dtype A} (input : ndarray A) i :
  i < length (data input) ->
  value_at (data (logical_not input)) i = negb (value_at (data input) i).
Proof.
  intros Hi. unfold value_at, logical_not; simpl.
  rewrite list_lookup_fmap.
  destruct (data input !! i) eqn:E; simpl; [done|].
  apply lookup_ge_None in E. lia.
Qed.

Lemma effective_value_logical_not {A} `{Dtype A} (input : ndarray A) bv c :
  wf_array input ->
  effective_value (logical_not input) (negb bv) c
  = negb (effective_value input bv c).
Proof.
  intros Hwf. unfold effective_value. simpl.
  destruct (in_bounds (shape input) c) eqn:Hb; [|done].
  apply value_at_logical_not. rewrite Hwf. by apply ravel_lt.
Qed.

Lemma erode_point_dual {A} `{Dtype A} (input : ndarray A) offs mask bv i :
  wf_array input -> i < size (shape input) ->
  erode_point input offs mask bv true i
  = negb (erode_point (logical_not input) offs mask (negb bv) false i).
Proof.
  intros Hwf Hi. unfold erode_point.
  destruct (mask_at mask i).
  - rewrite xorb_true_l, xorb_false_l. f_equal.
    induction offs as [|o offs IH]; [done|].
    cbn [forallb]. rewrite IH. f_equal.
    by rewrite xorb_true_l, xorb_false_l, effective_value_logical_not.
  - rewrite value_at_logical_not by (by rewrite Hwf). by rewrite negb_involutive.
Qed.

Lemma erosion_checks_logical_not (input : ndarray bool) structure mask
    (output : output_arg bool) origin :
  erosion_checks (logical_not input) structure mask output origin
  = erosion_checks input structure mask output origin.
Proof. done. Qed.

(** C2 (as the code has it): for a boolean input, dilation by [S] equals
    the complement of the erosion of the complemented input by the
    reflected [S] with the negated origin, the border value being
    complemented as well. *)
Theorem C2_duality (fuel : nat) (input : ndarray bool)
    (structure : option (ndarray bool)) (mask : option (ndarray bool))
    (border_value : bool) (origin : int_or_seq Z) (o o' : list Z)
    (brute_force : bool) :
  let S := match structure with
           | None => generate_binary_structure (ndim input) 1
           | Some s => s
           end in
  wf_array input ->
  _normalize_sequence origin (ndim input) = Ok o ->
  reflect_origin (shape S) o = Ok o' ->
  binary_dilation (B := bool) fuel input structure 1 mask OutNone border_value
    origin brute_force
  = complement_result
      (binary_erosion (B := bool) fuel (logical_not input) (Some (flip_all S))
         1 mask OutNone (negb border_value) (Sequence o') brute_force).
Proof.
  intros S Hwf Ho Ho'.
  unfold binary_dilation, binary_erosion. fold S. rewrite Ho.
  rewrite shape_flip_all, Ho'.
  unfold _binary_erosion. rewrite erosion_checks_logical_not.
  destruct (erosion_checks input (Some (flip_all S)) mask OutNone (Sequence o'))
    as [[[s og] cit]|e]; [|done].
  unfold erosion_passes. simpl. do 4 f_equal.
  unfold logical_not at 1. cbn [shape data nonzero bool_dtype]. f_equal.
  rewrite !map_map. apply map_ext_in. intros i Hi.
  apply in_seq in Hi. apply erode_point_dual; [done|lia].
Qed.

Lemma C2_duality_witness :
  wf_array (mk_ndarray [3] [false; true; false])
  /\ binary_dilation (B := bool) 0 (mk_ndarray [3] [false; true; false]) None 1
       None OutNone false (Scalar 0%Z) false
     = complement_result
         (binary_erosion (B := bool) 0 (mk_ndarray [3] [true; false; true])
            (Some (flip_all (generate_binary_structure 1 1))) 1 None OutNone
            true (Sequence [0%Z]) false).
Proof.
  split; [reflexivity|].
  apply (C2_duality 0 (mk_ndarray [3] [false; true; false]) None None false
           (Scalar 0%Z) [0%Z] [0%Z] false); reflexivity.
Defined.

(** With the same border value on both sides the two differ at the
    border: the dilation of [[false]] is [[false]], the erosion of its
    complement [[true]] is [[false]] as well, whose complement is
    [[true]]. *)
Lemma C2_counterexample :
  let input := mk_ndarray [1] [false] in
  let S := mk_ndarray [3] [true; true; true] in
  binary_dilation (B := bool) 0 input (Some S) 1 None OutNone false
    (Scalar 0%Z) false
  <> complement_result
       (binary_erosion (B := bool) 0 (logical_not input) (Some (flip_all S)) 1
          None OutNone false (Sequence [0%Z]) false).
Proof. vm_compute. discriminate. Qed.

(** ** Arrays with a leading axis *)

Lemma lookup_flat_map_rows {X} (f : nat -> list X) n (l : list nat) ii p :
  (forall x, length (f x) = n) -> p < n ->
  flat_map f l !! (ii * n + p) = l !! ii ≫= (fun x => f x !! p).
Proof.
  intros Hlen Hp. revert ii; induction l as [|x l IH]; intros ii; simpl.
  - done.
  - destruct ii as [|ii]; simpl.
    + rewrite lookup_app_l by (rewrite Hlen; lia). done.
    + rewrite lookup_app_r by (rewrite Hlen; lia).
      rewrite Hlen. replace (n + ii * n + p - n) with (ii * n + p) by lia.
      apply IH.
Qed.

Lemma length_flat_map_rows {X} (f : nat -> list X) n (l : list nat) :
  (forall x, length (f x) = n) -> length (flat_map f l) = length l * n.
Proof.
  intros Hlen. induction l as [|x l IH]; simpl; [done|].
  rewrite length_app, Hlen, IH. done.
Qed.

Lemma np_indices_lookup shp ii p :
  ii < length shp -> p < size shp ->
  data (np_indices shp) !! (ii * size shp + p)
  = Some (nth ii (unravel shp p) 0%Z).
Proof.
  intros Hii Hp. unfold np_indices; simpl.
  rewrite lookup_flat_map_rows; [|intros; by rewrite length_map, length_seq|done].
  rewrite lookup_seq_lt by done. simpl.
  by rewrite list_lookup_fmap, lookup_seq_lt.
Qed.

Lemma length_np_indices shp :
  length (data (np_indices shp)) = length shp * size shp.
Proof.
  unfold np_indices; simpl.
  rewrite (length_flat_map_rows _ (size shp)), length_seq; [done|].
  intros; by rewrite length_map, length_seq.
Qed.

Lemma wrap_signed_small z :
  (- 2 ^ 31 <= z < 2 ^ 31)%Z -> wrap_signed 32 z = z.
Proof.
  intros Hz. unfold wrap_signed. simpl Z.sub.
  rewrite Z.mod_small by lia. lia.
Qed.

(** ** The distances of the exact Euclidean transform *)

Section EuclideanDistance.

Context {F : Type} {HF : Float64 F}.

Lemma scale_row_lookup (n R ii : nat) (s : F) (l : list F) k :
  length l = R * n -> ii < R ->
  (take (ii * n) l ++ map (fun x => fmul x s) (subarray n l ii)
     ++ drop (ii * n + n) l) !! k
  = (fun x => if decide (ii * n <= k < ii * n + n) then fmul x s else x)
      <$> l !! k.
Proof.
  intros Hl Hii. unfold subarray.
  assert (Hle : ii * n + n <= length l) by nia.
  destruct (decide (k < ii * n)) as [Hk|Hk].
  - rewrite lookup_app_l by (rewrite length_take; lia).
    rewrite lookup_take_lt by lia.
    destruct (l !! k); simpl; [|done]. case_decide; [lia|done].
  - rewrite lookup_app_r by (rewrite length_take; lia).
    rewrite length_take, Nat.min_l by lia.
    destruct (decide (k < ii * n + n)) as [Hk'|Hk'].
    + rewrite lookup_app_l
        by (rewrite length_map, length_take, length_drop; lia).
      rewrite list_lookup_fmap, lookup_take_lt, lookup_drop by lia.
      replace (ii * n + (k - ii * n)) with k by lia.
      destruct (l !! k); simpl; [|done]. case_decide; [done|lia].
    + rewrite lookup_app_r
        by (rewrite length_map, length_take, length_drop; lia).
      rewrite length_map, length_take, length_drop, Nat.min_l by lia.
      rewrite lookup_drop.
      replace (ii * n + n + (k - ii * n - n)) with k by lia.
      destruct (l !! k); simpl; [|done]. case_decide; [lia|done].
Qed.

Lemma scale_row_length (n R ii : nat) (s : F) (l : list F) :
  length l = R * n -> ii < R ->
  length (take (ii * n) l ++ map (fun x => fmul x s) (subarray n l ii)
            ++ drop (ii * n + n) l) = length l.
Proof.
  intros Hl Hii. unfold subarray.
  assert (Hle : ii * n + n <= length l) by nia.
  rewrite !length_app, length_map, !length_take, !length_drop. lia.
Qed.

Lemma scale_rows_lookup (n R : nat) (sampling : list F) (ii : nat)
    (l : list F) j p :
  length l = R * n -> ii + length sampling <= R -> j < R -> p < n ->
  scale_rows n sampling ii l !! (j * n + p)
  = (fun x => match sampling !! (j - ii) with
              | Some s => if decide (ii <= j) then fmul x s else x
              | None => x
              end) <$> l !! (j * n + p).
Proof.
  revert ii l; induction sampling as [|s rest IH]; intros ii l Hl Hs Hj Hp.
  - simpl. by destruct (l !! _).
  - simpl in *.
    assert (Hii : ii < R) by lia.
    pose proof (scale_row_length n R ii s l Hl Hii) as Hlen.
    rewrite IH by (done || lia).
    rewrite (scale_row_lookup n R) by done.
    destruct (l !! (j * n + p)) as [x|]; simpl; [|done]. f_equal.
    destruct (decide (j = ii)) as [->|Hne].
    + rewrite Nat.sub_diag; simpl.
      destruct (rest !! (ii - S ii)); repeat case_decide; try lia; done.
    + destruct (decide (ii * n <= j * n + p < ii * n + n)) as [Hin|Hout];
        [nia|].
      destruct (decide (ii < j)) as [Hlt|Hge].
      * replace (j - ii) with (S (j - S ii)) by lia. simpl.
        destruct (rest !! (j - S ii)); [|done].
        repeat case_decide; try lia; done.
      * replace (j - ii) with 0 by lia. simpl.
        destruct (rest !! (j - S ii)); repeat case_decide; try lia; done.
Qed.

Lemma scale_rows_length (n R : nat) (sampling : list F) (ii : nat)
    (l : list F) :
  length l = R * n -> ii + length sampling <= R ->
  length (scale_rows n sampling ii l) = length l.
Proof.
  revert ii l; induction sampling as [|s rest IH]; intros ii l Hl Hs;
    simpl in *; [done|].
  assert (Hii : ii < R) by lia.
  pose proof (scale_row_length n R ii s l Hl Hii) as Hlen.
  rewrite IH by (done || lia). done.
Qed.

#[local] Arguments np_indices : simpl never.
#[local] Arguments wrap_signed : simpl never.

Lemma edt_sum_lookup (shp : list nat) (sampling : option (list F))
    (ft : list Z) (p : nat) :
  length ft = length shp * size shp ->
  (forall s, sampling = Some s -> length s = length shp) ->
  p < size shp ->
  edt_sum_of_squares shp sampling ft !! p
  = Some (fsum (map (fun ii =>
                       let d := of_int (wrap_signed 32
                                  (nth (ii * size shp + p) ft 0%Z
                                   - nth ii (unravel shp p) 0%Z)) in
                       let x := match sampling with
                                | Some s => fmul d (nth ii s (of_int 1%Z))
                                | None => d
                                end in
                       fmul x x)
                    (seq 0 (length shp)))).
Proof.
  intros Hft Hs Hp. unfold edt_sum_of_squares, add_reduce_axis0.
  rewrite list_lookup_fmap, lookup_seq_lt by done.
  cbn [fmap option_fmap option_map Nat.add]. do 2 f_equal.
  apply map_ext_in. intros ii Hii. apply in_seq in Hii.
  assert (Hk : ii * size shp + p < length ft) by nia.
  assert (Hdiff :
            map of_int (int32_sub ft (data (np_indices shp)))
              !! (ii * size shp + p)
            = Some (of_int (wrap_signed 32
                              (nth (ii * size shp + p) ft 0%Z
                               - nth ii (unravel shp p) 0%Z)))).
  { rewrite list_lookup_fmap. unfold int32_sub. rewrite lookup_zip_with.
    rewrite np_indices_lookup by lia.
    rewrite (nth_lookup ft).
    destruct (ft !! (ii * size shp + p)) as [z|] eqn:E; [done|].
    apply lookup_ge_None in E. lia. }
  rewrite nth_lookup, lookup_zip_with.
  destruct sampling as [s|].
  - rewrite (scale_rows_lookup (size shp) (length shp)).
    + rewrite Hdiff. simpl. rewrite Nat.sub_0_r.
      rewrite (nth_lookup s).
      destruct (s !! ii) as [x|] eqn:E; simpl.
      * done.
      * apply lookup_ge_None in E. rewrite (Hs s eq_refl) in E. lia.
    + rewrite length_map. unfold int32_sub.
      rewrite length_zip_with, length_np_indices, Hft. lia.
    + rewrite (Hs s eq_refl). lia.
    + lia.
    + done.
  - rewrite Hdiff. done.
Qed.

Lemma foldl_fold_left {X Y} (f : X -> Y -> X) (l : list Y) (a : X) :
  foldl f a l = fold_left f l a.
Proof. revert a; induction l as [|y l IH]; intros a; simpl; [done|apply IH]. Qed.

Lemma atleast_1d_rank {A} `{Dtype A} (input : ndarray A) :
  1 <= length (shape (where_1_0_atleast_1d input)).
Proof. unfold where_1_0_atleast_1d. simpl. destruct (shape input); simpl; lia. Qed.

(** What the carrier of the float operations is asked for, to read the
    product in the order of the formula and to see no sampling as a
    sampling of one. *)
Hypothesis fmul_comm : forall x y : F, fmul x y = fmul y x.
Hypothesis fmul_one_l : forall x : F, fmul (of_int 1%Z) x = x.

(** C6: every distance that [distance_transform_edt] yields, in the array
    it returns or in the caller's [distances] array, is the square root of
    the sum over the axes of [(sampling[i] * (feature[i][p] - p[i]))^2],
    the terms of the axes added one after the other onto that of axis 0,
    on the feature transform of the same call; no sampling counts as one
    on every axis. *)
Theorem C6_euclidean_distance {A} `{Dtype A} (K : nd_image F)
    (input : ndarray A) (sampling : option (int_or_seq F))
    (s : option (list F)) (return_indices : bool)
    (distances indices : option (array F)) :
  let input1 := where_1_0_atleast_1d input in
  let shp := shape input1 in
  let rank := length shp in
  let n := size shp in
  let ft0 :=
    mk_ndarray (rank :: shp)
      match indices with
      | Some ind => map as_int (data (arr ind))
      | None => replicate (rank * n) 0%Z
      end in
  let feature := nd_euclidean_feature_transform K input1 s ft0 in
  let ftarr := int_array dt_int32 (mk_ndarray (rank :: shp) feature) in
  let samp := fun i => match s with
                       | Some l => nth i l (of_int 1%Z)
                       | None => of_int 1%Z
                       end in
  let term := fun p i =>
    let x := fmul (samp i)
               (of_int (nth (i * n + p) feature 0
                        - nth i (unravel shp p) 0)%Z) in
    fmul x x in
  normalize_sampling sampling rank = Ok s ->
  (forall ind, indices = Some ind ->
     shape (arr ind) = rank :: shp /\ dtype_of ind = dt_int32) ->
  (forall d, distances = Some d ->
     shape (arr d) = shp /\ dtype_of d = dt_float64) ->
  length feature = rank * n ->
  (forall i p, i < rank -> p < n ->
     (- 2 ^ 31 <= nth (i * n + p) feature 0 - nth i (unravel shp p) 0
      < 2 ^ 31)%Z) ->
  exists dt : array F,
    1 <= rank
    /\ dtype_of dt = dt_float64
    /\ shape (arr dt) = shp
    /\ (forall p, p < n ->
          data (arr dt) !! p
          = Some (SFloat
                    (fsqrt
                       (fold_left fadd (map (term p) (seq 1 (rank - 1)))
                          (term p 0)))))
    /\ let o := distance_transform_edt K input sampling true return_indices
                  distances indices in
       o.1 = Ok (match distances, return_indices && negb (is_some indices) with
                 | None, true => RTwo dt ftarr
                 | None, false => ROne dt
                 | Some _, true => ROne ftarr
                 | Some _, false => RNone
                 end)
       /\ distances_buf o.2 = (if is_some distances then Some dt else None)
       /\ indices_buf o.2 = (if is_some indices then Some ftarr else None).
Proof.
  intros input1 shp rank n ft0 feature ftarr samp term Hs Hind Hdist Hlen Hfit.
  assert (Hrank : 1 <= rank) by apply atleast_1d_rank.
  exists (mk_array dt_float64
            (mk_ndarray shp
               (map (fun x => SFloat (fsqrt x))
                  (edt_sum_of_squares shp s feature)))).
  split; [done|]. split; [done|]. split; [done|]. split.
  - intros p Hp. simpl. rewrite list_lookup_fmap.
    rewrite edt_sum_lookup; [|done| |done].
    2:{ intros l ->. unfold normalize_sampling in Hs.
        destruct sampling as [sq|]; [|done]. simpl in Hs.
        destruct (_normalize_sequence sq rank) eqn:E; simpl in Hs; [|done].
        injection Hs as ->. by apply normalize_sequence_length in E. }
    simpl. do 3 f_equal. fold rank. fold n.
    rewrite (map_ext_in _ (term p)).
    2:{ intros i Hi. apply in_seq in Hi. unfold term, samp. cbv zeta.
        rewrite wrap_signed_small by (apply Hfit; lia).
        destruct s as [l|].
        - by rewrite (fmul_comm _ (nth i l _)).
        - by rewrite fmul_one_l. }
    destruct rank as [|r]; [lia|].
    cbn [seq map fsum]. rewrite Nat.sub_succ, Nat.sub_0_r.
    apply foldl_fold_left.
  - unfold distance_transform_edt. cbn [negb andb].
    fold input1. fold shp. unfold ndim. fold shp. fold rank. rewrite Hs.
    cbn [bind].
    destruct indices as [ind|]; destruct distances as [d|].
    all: try (destruct (Hind ind eq_refl) as [Hi1 Hi2]).
    all: try (destruct (Hdist d eq_refl) as [Hd1 Hd2]).
    all: cbn [is_some negb].
    all: try rewrite (bool_decide_eq_true_2 (shape (arr ind) = _)) by done.
    all: try rewrite (bool_decide_eq_true_2 (dtype_of ind = _)) by done.
    all: cbn [negb bind shape data].
    all: try rewrite (bool_decide_eq_true_2 (shape (arr d) = _)) by done.
    all: try rewrite (bool_decide_eq_true_2 (dtype_of d = _)) by done.
    all: cbn [negb].
    all: try rewrite Hi1.
    all: fold n; fold ft0; fold feature; fold ftarr.
    all: destruct return_indices; simpl; done.
Qed.

End EuclideanDistance.

Lemma C6_euclidean_distance_witness :
  exists dt : array Z,
    (distance_transform_edt idle_kernels (mk_ndarray [2; 2] [0; 1; 1; 1]%Z)
       (Some (Sequence [3; 4]%Z)) true false None None).1 = Ok (ROne dt)
    /\ data (arr dt) !! 0 = Some (SFloat 0%Z)
    /\ data (arr dt) !! 1 = Some (SFloat 4%Z)
    /\ data (arr dt) !! 2 = Some (SFloat 3%Z)
    /\ data (arr dt) !! 3 = Some (SFloat 5%Z).
Proof.
  destruct (C6_euclidean_distance (HF := Z_float64) Z.mul_comm Z.mul_1_l
              idle_kernels
              (mk_ndarray [2; 2] [0; 1; 1; 1]%Z) (Some (Sequence [3; 4]%Z))
              (Some [3; 4]%Z) false None None eq_refl)
    as (dt & _ & _ & _ & Hd & Hrun & _).
  - intros ind; discriminate.
  - intros d; discriminate.
  - reflexivity.
  - intros i p Hi Hp. simpl in Hi, Hp.
    destruct i as [|[|i]]; [| |lia].
    all: destruct p as [|[|[|[|p]]]]; [| | | |lia].
    all: vm_compute; (split; [discriminate|reflexivity]).
  - exists dt. split; [exact Hrun|].
    rewrite !Hd by (simpl; lia). repeat split; reflexivity.
Defined.

(** ** Index vectors and neighbour offsets *)

Lemma length_vadd a b : length (vadd a b) = min (length a) (length b).
Proof. apply length_zip_with. Qed.

Lemma length_vsub a b : length (vsub a b) = min (length a) (length b).
Proof. apply length_zip_with. Qed.

Lemma length_vneg a : length (vneg a) = length a.
Proof. apply length_map. Qed.

Lemma vneg_involutive a : vneg (vneg a) = a.
Proof.
  unfold vneg. rewrite map_map. rewrite <- (map_id a) at 2.
  apply map_ext. intros; lia.
Qed.

Lemma vadd_vneg_cancel a o :
  length o = length a -> vadd (vadd a o) (vneg o) = a.
Proof.
  revert o; induction a as [|x a IH]; intros [|y o]; simpl; try done.
  intros [= Hl]. rewrite (IH o Hl). f_equal. lia.
Qed.

Lemma length_center sshape origin :
  length (center sshape origin) = min (length sshape) (length origin).
Proof. apply length_zip_with. Qed.

Lemma In_offsets structure origin v :
  In v (offsets structure origin) <->
  exists i, i < size (shape structure)
            /\ nth i (data structure) false = true
            /\ v = vsub (unravel (shape structure) i)
                        (center (shape structure) origin).
Proof.
  unfold offsets. rewrite in_map_iff. split.
  - intros (i & <- & Hi). apply filter_In in Hi as [Hi Hon].
    apply in_seq in Hi. exists i. repeat split; [lia|done].
  - intros (i & Hi & Hon & ->). exists i. split; [done|].
    apply filter_In. split; [apply in_seq; lia|done].
Qed.

Lemma length_offset structure origin v :
  length origin = length (shape structure) ->
  In v (offsets structure origin) -> length v = length (shape structure).
Proof.
  intros Hl (i & _ & _ & ->)%In_offsets.
  rewrite length_vsub, length_unravel, length_center. lia.
Qed.

(** The bit test of the source is the parity of the axis length. *)
Lemma land_one_even (d : nat) :
  (Z.land (Z.of_nat d) 1 =? 0)%Z = Nat.even d.
Proof.
  change 1%Z with (Z.ones 1). rewrite Z.land_ones by lia.
  change (2 ^ 1)%Z with 2%Z.
  destruct (Nat.even d) eqn:E.
  - apply Nat.even_spec in E as [k ->]. apply Z.eqb_eq.
    rewrite Nat2Z.inj_mul. rewrite Z.mul_comm. apply Z_mod_mult.
  - apply Z.eqb_neq. assert (Ho : Nat.odd d = true).
    { rewrite <- Nat.negb_even, E. done. }
    apply Nat.odd_spec in Ho as [k ->].
    rewrite Nat2Z.inj_add, Nat2Z.inj_mul. simpl Z.of_nat.
    rewrite Z.add_comm, Z.mul_comm, Z_mod_plus_full. done.
Qed.

Lemma half_double_parity (d : nat) :
  2 * (d / 2) + (if Nat.even d then 0 else 1) = d.
Proof.
  destruct (Nat.even d) eqn:E.
  - apply Nat.even_spec in E as [k ->].
    rewrite (Nat.mul_comm 2 k), Nat.div_mul by lia. lia.
  - assert (Ho : Nat.odd d = true) by (rewrite <- Nat.negb_even, E; done).
    apply Nat.odd_spec in Ho as [k ->].
    replace (2 * k + 1) with (1 + k * 2) by lia.
    rewrite Nat.div_add by lia. simpl. lia.
Qed.

(** Offsets of the reflected structure about the negated origin are the
    negated offsets. *)
Lemma reflect_center shp origin origin' xs :
  reflect_origin shp origin = Ok origin' ->
  length xs = length shp -> length origin = length shp ->
  vneg (vsub xs (center shp origin'))
  = vsub (flip_coord shp xs) (center shp origin).
Proof.
  revert origin origin' xs; induction shp as [|d rest IH];
    intros [|o os] origin' [|x xs]; simpl; try done.
  destruct (reflect_origin rest os) as [os'|] eqn:E; simpl; [|done].
  intros [= <-] [= Hx] [= Ho]. simpl.
  rewrite (IH os os' xs E Hx Ho). f_equal.
  rewrite land_one_even. generalize (half_double_parity d).
  change (Nat.divmod d 1 0 1).1 with (d / 2).
  destruct (Nat.even d); intros Hp; lia.
Qed.

Lemma in_bounds_flip_coord shp c :
  in_bounds shp c = true -> in_bounds shp (flip_coord shp c) = true.
Proof.
  revert c; induction shp as [|d rest IH]; intros [|x xs]; simpl; try done.
  intros Hb. apply andb_prop in Hb as [Hb Hrest].
  apply andb_prop in Hb as [H0 H1].
  apply Z.leb_le in H0. apply Z.ltb_lt in H1.
  rewrite (IH _ Hrest), andb_true_r.
  apply andb_true_intro; split; [apply Z.leb_le|apply Z.ltb_lt]; lia.
Qed.

Lemma nth_flip_all (a : ndarray bool) i :
  wf_array a -> i < size (shape a) ->
  nth i (data (flip_all a)) false
  = nth (size (shape a) - 1 - i) (data a) false.
Proof.
  intros Hwf Hi. unfold flip_all; simpl.
  rewrite (nth_lookup (map _ _)), list_lookup_fmap, lookup_seq_lt by done.
  simpl. rewrite ravel_flip_coord by done.
  rewrite !nth_lookup.
  destruct (data a !! (size (shape a) - 1 - i)) eqn:E; [done|].
  apply lookup_ge_None in E. unfold wf_array in Hwf. lia.
Qed.

Lemma In_offsets_reflected structure origin origin' v :
  wf_array structure ->
  length origin = length (shape structure) ->
  reflect_origin (shape structure) origin = Ok origin' ->
  In v (offsets (flip_all structure) origin')
  <-> In (vneg v) (offsets structure origin).
Proof.
  intros Hwf Hl Hr.
  assert (Hl' : length origin' = length (shape structure)).
  { destruct (reflect_origin_ok (shape structure) origin) as (o2 & Ho2 & Hlen);
      [lia|]. rewrite Hr in Ho2. injection Ho2 as <-. lia. }
  rewrite !In_offsets. rewrite shape_flip_all.
  assert (Hflip : forall i, i < size (shape structure) ->
            unravel (shape structure) (size (shape structure) - 1 - i) = flip_coord (shape structure) (unravel (shape structure) i)).
  { intros i Hi. rewrite <- (ravel_flip_coord (shape structure) i Hi).
    rewrite unravel_ravel; [done|].
    apply in_bounds_flip_coord. by apply in_bounds_unravel. }
  split.
  - intros (i & Hi & Hon & ->).
    exists (size (shape structure) - 1 - i). repeat split; [lia| |].
    + rewrite nth_flip_all in Hon by done. done.
    + rewrite (reflect_center (shape structure) origin origin') by
        (done || by rewrite length_unravel).
      by rewrite Hflip.
  - intros (i & Hi & Hon & Hv).
    exists (size (shape structure) - 1 - i). repeat split; [lia| |].
    + rewrite nth_flip_all by (done || lia).
      replace (size (shape structure) - 1 - (size (shape structure) - 1 - i)) with i by lia. done.
    + rewrite <- (vneg_involutive v), Hv.
      rewrite <- (vneg_involutive (vsub (unravel (shape structure) (size (shape structure) - 1 - i)) _)).
      f_equal.
      rewrite (reflect_center (shape structure) origin origin') by
        (done || by rewrite length_unravel).
      rewrite <- Hflip by lia.
      replace (size (shape structure) - 1 - (size (shape structure) - 1 - i)) with i by lia. done.
Qed.

(** ** One pass on boolean buffers *)

Lemma value_at_bool (d : list bool) i : value_at d i = nth i d false.
Proof. unfold value_at. rewrite nth_lookup. by destruct (d !! i). Qed.

Lemma erode_data_length shp offs mask bv inv d :
  length (erode_data shp offs mask bv inv d) = size shp.
Proof. unfold erode_data. by rewrite length_map, length_seq. Qed.

Lemma erode_data_lookup shp offs mask bv inv d i :
  i < size shp ->
  erode_data shp offs mask bv inv d !! i
  = Some (erode_point (mk_ndarray shp d) offs mask bv inv i).
Proof.
  intros Hi. unfold erode_data.
  by rewrite list_lookup_fmap, lookup_seq_lt.
Qed.

Lemma erode_data_nth shp offs mask bv inv d i :
  i < size shp ->
  nth i (erode_data shp offs mask bv inv d) false
  = erode_point (mk_ndarray shp d) offs mask bv inv i.
Proof. intros Hi. by rewrite nth_lookup, erode_data_lookup. Qed.

Lemma kernel_erode_data (input : ndarray bool) structure mask bv origin inv
    cit rc :
  (nd_binary_erosion input structure mask bv origin inv cit rc).1.1
  = erode_data (shape input) (offsets structure origin) mask bv inv
      (data input).
Proof. by destruct input. Qed.

Lemma nonempty_false {X} (l : list X) : nonempty l = false <-> l = [].
Proof. by destruct l. Qed.

(** The pass reports no change exactly when its output is its input. *)
Lemma kernel_unchanged (input : ndarray bool) structure mask bv origin inv
    cit rc :
  wf_array input ->
  (nd_binary_erosion input structure mask bv origin inv cit rc).1.2 = false
  <-> erode_data (shape input) (offsets structure origin) mask bv inv
        (data input) = data input.
Proof.
  intros Hwf. unfold nd_binary_erosion. cbn [fst snd].
  rewrite nonempty_false.
  change (map (erode_point input (offsets structure origin) mask bv inv)
            (seq 0 (size (shape input))))
    with ((nd_binary_erosion input structure mask bv origin inv cit rc).1.1).
  rewrite kernel_erode_data.
  set (out := erode_data _ _ _ _ _ _).
  split.
  - intros Hnil. apply list_eq. intros i.
    destruct (decide (i < size (shape input))) as [Hi|Hi].
    + assert (Hin : ~ In i (List.filter
                (fun i => negb (eqb (nth i out false)
                                    (value_at (data input) i)))
                (seq 0 (size (shape input))))) by (rewrite Hnil; tauto).
      rewrite filter_In, in_seq in Hin.
      assert (Heq : nth i out false = value_at (data input) i).
      { destruct (eqb (nth i out false) (value_at (data input) i)) eqn:E.
        - by apply eqb_prop.
        - exfalso. apply Hin. split; [lia|done]. }
      rewrite value_at_bool in Heq. rewrite !nth_lookup in Heq.
      destruct (out !! i) eqn:E1, (data input !! i) eqn:E2; simpl in Heq;
        subst; try done.
      * apply lookup_ge_None in E2. unfold wf_array in Hwf. lia.
      * apply lookup_ge_None in E1.
        unfold out in E1. rewrite erode_data_length in E1. lia.
    + rewrite !lookup_ge_None_2; [done| |].
      * unfold wf_array in Hwf. lia.
      * unfold out. rewrite erode_data_length. lia.
  - intros Heq.
    destruct (List.filter _ _) as [|i l] eqn:E; [done|].
    assert (Hin : In i (i :: l)) by (by left).
    rewrite <- E in Hin. apply filter_In in Hin as [_ Hne].
    rewrite value_at_bool, Heq, eqb_reflx in Hne. done.
Qed.

(** The recorded coordinates are the cells that the pass changed. *)
Lemma kernel_coordinates (input : ndarray bool) structure mask bv origin inv
    cit c :
  In c (nd_binary_erosion input structure mask bv origin inv cit true).2
  <-> c < size (shape input)
      /\ nth c (erode_data (shape input) (offsets structure origin) mask bv
                  inv (data input)) false
         <> nth c (data input) false.
Proof.
  unfold nd_binary_erosion. cbn [fst snd].
  change (map (erode_point input (offsets structure origin) mask bv inv)
            (seq 0 (size (shape input))))
    with ((nd_binary_erosion input structure mask bv origin inv cit true).1.1).
  rewrite kernel_erode_data, filter_In, in_seq, value_at_bool.
  split.
  - intros [Hc Hne]. split; [lia|]. intros Heq. by rewrite Heq, eqb_reflx in Hne.
  - intros [Hc Hne]. split; [lia|].
    destruct (eqb _ _) eqn:E; [|done]. by apply eqb_prop in E.
Qed.

(** ** Repeating a pass *)

Lemma iter_succ_r {X} (f : X -> X) n x :
  Nat.iter (S n) f x = Nat.iter n f (f x).
Proof. induction n as [|n IH]; [done|]. simpl in *. by rewrite IH. Qed.

Lemma iter_fixed {X} (f : X -> X) n x : f x = x -> Nat.iter n f x = x.
Proof. intros Hf. induction n as [|n IH]; [done|]. simpl. by rewrite IH. Qed.

Lemma first_fixed_point_here {X} (K : X -> X) d : K d = d -> first_fixed_point K d d.
Proof. intros Hd. exists 0. repeat split; [done|]. intros j Hj. lia. Qed.

Lemma first_fixed_point_later {X} (K : X -> X) d r :
  K d <> d -> first_fixed_point K (K d) r -> first_fixed_point K d r.
Proof.
  intros Hne (k & Hr & Hfix & Hfirst). exists (S k). repeat split.
  - by rewrite iter_succ_r.
  - done.
  - intros [|j] Hj; [done|]. rewrite iter_succ_r. apply Hfirst. lia.
Qed.

Lemma first_fixed_point_unique {X} (K : X -> X) d r1 r2 :
  first_fixed_point K d r1 -> first_fixed_point K d r2 -> r1 = r2.
Proof.
  intros (k1 & -> & Hf1 & Hl1) (k2 & -> & Hf2 & Hl2).
  destruct (Nat.lt_trichotomy k1 k2) as [Hlt|[->|Hlt]]; [|done|].
  - exfalso. by apply (Hl2 k1 Hlt).
  - exfalso. by apply (Hl1 k2 Hlt).
Qed.

(** ** The buffers of the brute-force branch *)

Lemma write_buffer_of (s : slot) (out : list bool) (st : buffers bool) :
  buffer_of s (write s out st) = mk_ndarray (shape (buffer_of s st)) out.
Proof.
  destruct s; simpl; [done|]. by rewrite map_id.
Qed.

Lemma write_buffer_other (s s' : slot) (out : list bool) (st : buffers bool) :
  s <> s' -> buffer_of s' (write s out st) = buffer_of s' st.
Proof. by destruct s, s'. Qed.

Lemma write_shape (s s' : slot) (out : list bool) (st : buffers bool) :
  shape (buffer_of s' (write s out st)) = shape (buffer_of s' st).
Proof. by destruct s, s'. Qed.

Lemma pass_from_out (src : slot) (st : buffers bool) structure mask bv origin
    inv cit :
  (pass_from src st structure mask bv origin inv cit).1.1
  = erode_data (shape (buffer_of src st)) (offsets structure origin) mask bv
      inv (data (buffer_of src st)).
Proof.
  destruct src; unfold pass_from, buffer_of;
    exact (kernel_erode_data _ structure mask bv origin inv cit false).
Qed.

Lemma pass_from_unchanged (src : slot) (st : buffers bool) structure mask bv
    origin inv cit :
  wf_array (buffer_of src st) ->
  (pass_from src st structure mask bv origin inv cit).1.2 = false
  <-> erode_data (shape (buffer_of src st)) (offsets structure origin) mask
        bv inv (data (buffer_of src st)) = data (buffer_of src st).
Proof.
  destruct src; unfold pass_from, buffer_of;
    exact (kernel_unchanged _ structure mask bv origin inv cit false).
Qed.

Section BruteForce.

Variables (shp : list nat) (structure : ndarray bool)
  (mask : option (ndarray bool)) (bv : bool) (origin : list Z)
  (inv cit : bool) (iterations : Z).

Let K := erode_data shp (offsets structure origin) mask bv inv.

Lemma loop_invariant_pass tmp_in tmp_out st :
  loop_invariant shp tmp_in tmp_out st ->
  let r := pass_from tmp_out st structure mask bv origin inv cit in
  r.1.1 = K (data (buffer_of tmp_out st))
  /\ (r.1.2 = false <-> K (data (buffer_of tmp_out st))
                         = data (buffer_of tmp_out st))
  /\ loop_invariant shp tmp_out tmp_in (write tmp_in r.1.1 st)
  /\ data (buffer_of tmp_in (write tmp_in r.1.1 st))
     = K (data (buffer_of tmp_out st)).
Proof.
  intros (Hne & HA & HB & Hlen) r.
  assert (Hshape : shape (buffer_of tmp_out st) = shp) by (by destruct tmp_out).
  assert (Hout : r.1.1 = K (data (buffer_of tmp_out st))).
  { unfold r. by rewrite pass_from_out, Hshape. }
  repeat split.
  - done.
  - unfold r. rewrite pass_from_unchanged, Hshape; [done|].
    unfold wf_array. by rewrite Hshape.
  - unfold r. rewrite pass_from_unchanged, Hshape; [done|].
    unfold wf_array. by rewrite Hshape.
  - done.
  - change (bufA ?s) with (buffer_of SlotA s). by rewrite write_shape.
  - change (bufB ?s) with (buffer_of SlotB s). by rewrite write_shape.
  - rewrite write_buffer_of. simpl. rewrite Hout.
    apply erode_data_length.
  - rewrite write_buffer_of. simpl. done.
Qed.

(** With a positive iteration count the loop runs the remaining passes. *)
Lemma brute_force_loop_count fuel ii tmp_in tmp_out st changed :
  loop_invariant shp tmp_in tmp_out st ->
  (1 <= ii <= iterations)%Z ->
  Z.to_nat (iterations - ii) < fuel ->
  exists s' st',
    brute_force_loop fuel structure mask bv origin inv cit iterations ii
      tmp_in tmp_out st changed = Some (s', st')
    /\ shape (buffer_of s' st') = shp
    /\ data (buffer_of s' st')
       = Nat.iter (Z.to_nat (iterations - ii)) K (data (buffer_of tmp_out st)).
Proof.
  revert ii tmp_in tmp_out st changed.
  induction fuel as [|fuel IH]; intros ii tmp_in tmp_out st changed Hinv Hii Hf;
    [lia|].
  simpl.
  destruct (Z.ltb_spec ii iterations) as [Hlt|Hge].
  - simpl.
    destruct (loop_invariant_pass _ _ _ Hinv) as (Hout & _ & Hinv' & Hdata).
    edestruct (IH (ii + 1)%Z tmp_out tmp_in) as (s' & st' & -> & Hs & Hd);
      [exact Hinv'|lia|lia|].
    exists s', st'. repeat split; [done|].
    rewrite Hd, Hdata.
    replace (Z.to_nat (iterations - ii))
      with (S (Z.to_nat (iterations - (ii + 1)))) by lia.
    by rewrite iter_succ_r.
  - assert (Hlt1 : (iterations <? 1)%Z = false) by (apply Z.ltb_ge; lia).
    rewrite Hlt1. simpl.
    exists tmp_out, st. repeat split.
    + destruct Hinv as (_ & HA & HB & _). by destruct tmp_out.
    + replace (Z.to_nat (iterations - ii)) with 0 by lia. done.
Qed.

(** Without a count, what the loop returns is the first fixed point. *)
Lemma brute_force_loop_fixed fuel prev ii tmp_in tmp_out st changed s' st' :
  (iterations < 1)%Z ->
  (1 <= ii)%Z ->
  loop_invariant shp tmp_in tmp_out st ->
  data (buffer_of tmp_out st) = K prev ->
  (changed = false <-> K prev = prev) ->
  brute_force_loop fuel structure mask bv origin inv cit iterations ii
    tmp_in tmp_out st changed = Some (s', st') ->
  shape (buffer_of s' st') = shp
  /\ first_fixed_point K prev (data (buffer_of s' st')).
Proof.
  intros Hit. revert prev ii tmp_in tmp_out st changed.
  induction fuel as [|fuel IH];
    intros prev ii tmp_in tmp_out st changed Hii Hinv Hcur Hch; [done|].
  simpl.
  assert (Hlt : (ii <? iterations)%Z = false) by (apply Z.ltb_ge; lia).
  assert (Hlt1 : (iterations <? 1)%Z = true) by (apply Z.ltb_lt; lia).
  rewrite Hlt, Hlt1. simpl.
  destruct changed.
  - destruct (loop_invariant_pass _ _ _ Hinv) as (Hout & Hflag & Hinv' & Hdata).
    intros Hrun.
    assert (Hrec : shape (buffer_of s' st') = shp
                   /\ first_fixed_point K (K prev) (data (buffer_of s' st'))).
    { eapply (IH (K prev) (ii + 1)%Z tmp_out tmp_in);
        [lia|exact Hinv'|by rewrite Hdata, Hcur| |exact Hrun].
      by rewrite Hflag, Hcur. }
    destruct Hrec as [Hs Hfp].
    split; [done|]. apply first_fixed_point_later; [|done].
    intros Heq. apply Hch in Heq. done.
  - intros [= <- <-]. split.
    + destruct Hinv as (_ & HA & HB & _). by destruct tmp_out.
    + rewrite Hcur. destruct Hch as [Hch _]. rewrite (Hch eq_refl).
      apply first_fixed_point_here. by apply Hch.
Qed.

End BruteForce.

(** ** Boolean buffers compared cell by cell *)

Lemma bool_eq_by_value (t a b : bool) : (a = t <-> b = t) -> a = b.
Proof. destruct t, a, b; intuition congruence. Qed.

Lemma list_eq_by_value (t : bool) (a b : list bool) :
  length a = length b ->
  (forall i, i < length a -> (nth i a false = t <-> nth i b false = t)) ->
  a = b.
Proof.
  revert b; induction a as [|x a IH]; intros [|y b]; simpl; try done.
  intros [= Hl] Hv. f_equal.
  - apply (bool_eq_by_value t). apply (Hv 0). lia.
  - apply IH; [done|]. intros i Hi. apply (Hv (S i)). lia.
Qed.

Lemma count_value_shrink (t : bool) (d' d : list bool) :
  length d' = length d ->
  (forall i, i < length d -> nth i d' false = t -> nth i d false = t) ->
  count_value t d' <= count_value t d
  /\ (d' <> d -> count_value t d' < count_value t d).
Proof.
  unfold count_value.
  revert d; induction d' as [|x d' IH]; intros [|y d]; simpl; try done.
  intros [= Hl] Hv.
  destruct (IH d Hl) as [Hle Hlt].
  { intros i Hi. apply (Hv (S i)). lia. }
  pose proof (Hv 0 ltac:(lia)) as H0. simpl in H0.
  destruct (eqb t x) eqn:Ex, (eqb t y) eqn:Ey; simpl.
  - split; [lia|]. intros Hne.
    apply eqb_prop in Ex, Ey. subst x y.
    assert (d' <> d) by congruence. specialize (Hlt H). lia.
  - apply eqb_prop in Ex. subst x. rewrite (H0 eq_refl), eqb_reflx in Ey. done.
  - split; [lia|]. intros _. lia.
  - split; [lia|]. intros Hne.
    assert (x = y).
    { apply eqb_false_iff in Ex, Ey. destruct t, x, y; congruence. }
    subst y. assert (d' <> d) by congruence. specialize (Hlt H). lia.
Qed.

(** ** One worklist iteration is one pass *)

Section Worklist.

Variables (shp : list nat) (offs offs' : list (list Z))
  (mask : option (ndarray bool)) (bv inv : bool).

Let n := size shp.
Let t := negb inv.
Let K := erode_data shp offs mask bv inv.
Let pK := fun (d : list bool) i =>
  erode_point (mk_ndarray shp d) offs mask bv inv i.

(** The centre belongs to the neighbourhood. *)
Hypothesis centre_on :
  forall i, i < n ->
    exists o, In o offs /\ vadd (unravel shp i) o = unravel shp i.

(** The offsets of the propagation lead from a voxel to the voxels that
    have it as a neighbour. *)
Hypothesis reflected :
  forall i c, i < n -> c < n ->
    (exists o, In o offs
               /\ in_bounds shp (vadd (unravel shp i) o) = true
               /\ ravel shp (vadd (unravel shp i) o) = c)
    <-> In i (neighbours shp offs' c).

Lemma pK_masked d i : mask_at mask i = false -> pK d i = nth i d false.
Proof.
  intros Hm. unfold pK, erode_point. rewrite Hm. simpl. apply value_at_bool.
Qed.

Lemma pK_enabled d i :
  mask_at mask i = true ->
  pK d i = t
  <-> forall o, In o offs ->
        effective_value (mk_ndarray shp d) bv (vadd (unravel shp i) o) = t.
Proof.
  intros Hm. unfold pK, erode_point, t. rewrite Hm. simpl.
  split.
  - intros Hall o Ho.
    assert (Hf : forallb (fun o => xorb inv
                  (effective_value (mk_ndarray shp d) bv
                     (vadd (unravel shp i) o))) offs = true).
    { destruct inv, (forallb _ offs); simpl in *; congruence. }
    rewrite forallb_forall in Hf. specialize (Hf o Ho).
    destruct inv, (effective_value _ _ _); simpl in *; congruence.
  - intros Hall.
    assert (Hf : forallb (fun o => xorb inv
                  (effective_value (mk_ndarray shp d) bv
                     (vadd (unravel shp i) o))) offs = true).
    { apply forallb_forall. intros o Ho. rewrite (Hall o Ho).
      by destruct inv. }
    rewrite Hf. by destruct inv.
Qed.

Lemma effective_value_in_bounds d c :
  in_bounds shp c = true ->
  effective_value (mk_ndarray shp d) bv c = nth (ravel shp c) d false.
Proof.
  intros Hb. unfold effective_value. simpl. rewrite Hb. apply value_at_bool.
Qed.

(** A pass never sets a cell to the eroded value [t] that did not hold
    it. *)
Lemma pK_shrinks d i : i < n -> pK d i = t -> nth i d false = t.
Proof.
  intros Hi Hp.
  destruct (mask_at mask i) eqn:Hm.
  - destruct (centre_on i Hi) as (o & Ho & Hz).
    rewrite pK_enabled in Hp by done. specialize (Hp o Ho).
    rewrite Hz, effective_value_in_bounds in Hp
      by (by apply in_bounds_unravel).
    by rewrite ravel_unravel in Hp.
  - by rewrite pK_masked in Hp.
Qed.

Lemma K_nth d i : i < n -> nth i (K d) false = pK d i.
Proof. intros Hi. by apply erode_data_nth. Qed.

Lemma K_length d : length (K d) = n.
Proof. apply erode_data_length. Qed.

Lemma K_count d :
  length d = n ->
  count_value t (K d) <= count_value t d
  /\ (K d <> d -> count_value t (K d) < count_value t d).
Proof.
  intros Hl. apply count_value_shrink.
  - by rewrite K_length.
  - intros i Hi. rewrite K_nth by lia. apply pK_shrinks. lia.
Qed.

Lemma nth_insert_bool (d : list bool) j k b :
  j < length d ->
  nth k (<[j := b]> d) false = if decide (k = j) then b else nth k d false.
Proof.
  intros Hj. rewrite !nth_lookup. case_decide as Hk.
  - subst k. by rewrite list_lookup_insert_eq.
  - by rewrite list_lookup_insert_ne.
Qed.

(** The re-test of a list of targets: a cell keeps the value [t] unless it
    is an enabled target, and the targets that held [t] are recorded. *)
Lemma visit_targets (T : list nat) (d : list bool) (W0 : list nat) :
  (forall j, In j T -> j < length d) ->
  let r := foldl (visit mask inv) (d, W0) T in
  length r.1 = length d
  /\ (forall j, nth j r.1 false = t
                <-> nth j d false = t
                    /\ ~ (In j T /\ mask_at mask j = true))
  /\ (forall j, In j r.2
                <-> In j W0
                    \/ (In j T /\ mask_at mask j = true
                        /\ nth j d false = t)).
Proof.
  revert d W0; induction T as [|j0 T IH]; intros d W0 HT; simpl.
  - repeat split; tauto.
  - assert (Hj0 : j0 < length d) by (apply HT; by left).
    assert (Hvis : visit mask inv (d, W0) j0
              = if mask_at mask j0 && eqb (nth j0 d false) (negb inv)
                then (<[j0 := of_bool inv]> d, W0 ++ [j0]) else (d, W0)).
    { unfold visit. cbn [fst snd]. by rewrite value_at_bool. }
    rewrite Hvis. clear Hvis.
    destruct (mask_at mask j0 && eqb (nth j0 d false) (negb inv)) eqn:Hc.
    + apply andb_prop in Hc as [Hm Hv]. apply eqb_prop in Hv.
      destruct (IH (<[j0 := of_bool inv]> d) (W0 ++ [j0])) as (Hl & Hval & Hw).
      { intros j Hj. rewrite length_insert. apply HT. by right. }
      rewrite length_insert in Hl.
      split; [done|]. split.
      * intros j. rewrite Hval. rewrite nth_insert_bool by done.
        case_decide as Hj.
        -- subst j. simpl. split.
           ++ intros [Hinv _]. unfold t in Hinv. by destruct inv.
           ++ intros [_ Hno]. exfalso. apply Hno. split; [by left|done].
        -- split.
           ++ intros [Hd Hno]. split; [done|]. intros [[Heq|Hin] Hmj];
                [congruence|]. apply Hno. by split.
           ++ intros [Hd Hno]. split; [done|]. intros [Hin Hmj].
              apply Hno. split; [by right|done].
      * intros j. rewrite Hw. rewrite in_app_iff. simpl.
        rewrite nth_insert_bool by done.
        case_decide as Hj.
        -- subst j. simpl. split.
           ++ intros [[Hin|[Heq|[]]]|(_ & _ & Hinv)].
              ** by left.
              ** right. repeat split; [by left|done|done].
              ** unfold t in Hinv. by destruct inv.
           ++ intros [Hin|_]; [left; by left|]. left. right. by left.
        -- split.
           ++ intros [[Hin|[Heq|[]]]|(Hin & Hmj & Hd)].
              ** by left.
              ** congruence.
              ** right. repeat split; [by right|done|done].
           ++ intros [Hin|([Heq|Hin] & Hmj & Hd)].
              ** left. by left.
              ** congruence.
              ** right. by repeat split.
    + destruct (IH d W0) as (Hl & Hval & Hw).
      { intros j Hj. apply HT. by right. }
      split; [done|]. split.
      * intros j. rewrite Hval. split.
        -- intros [Hd Hno]. split; [done|]. intros [[Heq|Hin] Hmj].
           ++ subst j. fold t in Hc. rewrite Hmj, Hd, eqb_reflx in Hc. done.
           ++ apply Hno. by split.
        -- intros [Hd Hno]. split; [done|]. intros [Hin Hmj].
           apply Hno. split; [by right|done].
      * intros j. rewrite Hw. split.
        -- intros [Hin|(Hin & Hmj & Hd)]; [by left|].
           right. repeat split; [by right|done|done].
        -- intros [Hin|([Heq|Hin] & Hmj & Hd)]; [by left| |].
           ++ subst j. fold t in Hc. rewrite Hmj, Hd, eqb_reflx in Hc. done.
           ++ right. by repeat split.
Qed.

Lemma foldl_flat_map {X Y Z'} (f : X -> Y -> X) (g : Z' -> list Y)
    (l : list Z') (a : X) :
  foldl (fun st c => foldl f st (g c)) a l = foldl f a (flat_map g l).
Proof.
  revert a; induction l as [|c l IH]; intros a; simpl; [done|].
  by rewrite IH, foldl_app.
Qed.

Lemma In_neighbours (o_list : list (list Z)) c j :
  In j (neighbours shp o_list c)
  <-> exists o, In o o_list
                /\ in_bounds shp (vadd (unravel shp c) o) = true
                /\ ravel shp (vadd (unravel shp c) o) = j.
Proof.
  unfold neighbours. rewrite <- list_elem_of_In, list_elem_of_omap.
  split.
  - intros (o & Ho & Hq). apply list_elem_of_In in Ho. exists o.
    destruct (in_bounds shp _) eqn:Hb; [|done]. by injection Hq as <-.
  - intros (o & Ho & Hb & <-). exists o. rewrite list_elem_of_In, Hb. done.
Qed.

Lemma neighbours_lt (o_list : list (list Z)) c j :
  In j (neighbours shp o_list c) -> j < n.
Proof.
  intros (o & _ & Hb & <-)%In_neighbours. by apply ravel_lt.
Qed.

Let wstate := worklist_state shp offs mask bv inv.

Lemma propagate_step p d W :
  wstate p d W ->
  let r := propagate shp offs' mask inv d W in
  wstate d r.1 r.2.
Proof.
  intros [Hd HW]. cbv zeta. change (d = K p) in Hd. fold n in HW.
  assert (Hlen : length d = n) by (rewrite Hd; apply K_length).
  set (T := flat_map (neighbours shp offs') W).
  assert (Hr : propagate shp offs' mask inv d W
               = foldl (visit mask inv) (d, []) T).
  { unfold propagate. apply foldl_flat_map. }
  rewrite Hr. clear Hr.
  destruct (visit_targets T d []) as (Hl & Hval & Hw).
  { intros j (c & _ & Hj)%in_flat_map. rewrite Hlen.
    by eapply neighbours_lt. }
  set (r := foldl (visit mask inv) (d, []) T) in *.
  assert (Hstep : r.1 = K d).
  { apply (list_eq_by_value t); [by rewrite Hl, K_length|].
    intros j Hj. rewrite Hl, Hlen in Hj.
    rewrite Hval, K_nth by done.
    destruct (mask_at mask j) eqn:Hm.
    - rewrite pK_enabled by done. split.
      + intros [Hdj Hno] o Ho.
        assert (Hp : pK p j = t) by (by rewrite <- K_nth, <- Hd).
        rewrite pK_enabled in Hp by done. specialize (Hp o Ho).
        unfold effective_value in *. simpl in *.
        destruct (in_bounds shp (vadd (unravel shp j) o)) eqn:Hb; [|done].
        rewrite value_at_bool in *.
        set (c := ravel shp (vadd (unravel shp j) o)) in *.
        assert (Hc : c < n) by (by apply ravel_lt).
        destruct (decide (nth c d false = t)) as [|Hne]; [done|].
        exfalso. apply Hno. split; [|done].
        apply in_flat_map. exists c. split.
        * apply HW. split; [done|]. congruence.
        * apply reflected; [done|done|]. by exists o.
      + intros Hall. split.
        * apply pK_shrinks; [done|]. by apply pK_enabled.
        * intros [(c & Hc & Hjc)%in_flat_map _].
          apply HW in Hc as [Hc Hne].
          apply reflected in Hjc as (o & Ho & Hb & Hr); [|done|done].
          specialize (Hall o Ho).
          rewrite effective_value_in_bounds, Hr in Hall by done.
          apply Hne. rewrite Hall. symmetry.
          apply pK_shrinks; [done|]. by rewrite <- K_nth, <- Hd.
    - rewrite pK_masked by done. split; [tauto|].
      intros Hdj. split; [done|]. intros [_ Hmj]. congruence. }
  split; [done|].
  intros c. rewrite Hw. simpl. split.
  - intros [[]|(Hin & Hm & Hdc)].
    assert (Hc : c < n).
    { apply in_flat_map in Hin as (c0 & _ & Hin). by eapply neighbours_lt. }
    split; [done|]. rewrite Hdc. intros Heq.
    apply Hval in Heq as [_ Hno]. apply Hno. by split.
  - intros [Hc Hne]. right.
    assert (Hdc : nth c d false = t).
    { destruct (decide (nth c d false = t)) as [|Hdc]; [done|].
      exfalso. apply Hne.
      apply (bool_eq_by_value t). rewrite Hval. tauto. }
    assert (Hnot : ~ (nth c r.1 false = t)) by congruence.
    rewrite Hval in Hnot.
    destruct (mask_at mask c) eqn:Hm.
    + repeat split; [|done].
      destruct (in_dec Nat.eq_dec c T) as [|Hnin]; [done|].
      exfalso. apply Hnot. split; [done|]. tauto.
    + exfalso. apply Hnot. split; [done|]. intros [_ ?]. congruence.
Qed.

Lemma worklist_state_empty p d :
  length p = n -> wstate p d [] <-> d = K p /\ K p = p.
Proof.
  intros Hp. unfold wstate, worklist_state. split.
  - intros [-> HW]. split; [done|].
    apply (list_eq_by_value t); [by rewrite K_length|].
    intros i Hi. rewrite K_length in Hi.
    destruct (decide (nth i (K p) false = nth i p false)) as [->|Hne];
      [done|].
    exfalso. apply (HW i). by split.
  - intros [-> Hfix]. split; [done|]. intros c. split; [done|].
    intros [_ Hne]. by rewrite Hfix in Hne.
Qed.

(** With an iteration budget the propagation runs what remains of it. *)
Lemma erosion2_loop_count fuel niter jj p d W :
  wstate p d W ->
  (0 <= jj <= niter)%Z -> (1 <= niter)%Z ->
  Z.to_nat (niter - jj) < fuel ->
  erosion2_loop fuel shp offs' mask niter inv jj d W
  = Some (Nat.iter (Z.to_nat (niter - jj)) K d).
Proof.
  revert jj p d W; induction fuel as [|fuel IH]; intros jj p d W Hst Hjj Hn Hf;
    [lia|].
  simpl.
  assert (Hle0 : (niter <=? 0)%Z = false) by (apply Z.leb_gt; lia).
  rewrite Hle0, orb_false_r.
  destruct W as [|c W]; simpl.
  - f_equal. symmetry. apply iter_fixed.
    pose proof (propagate_step p d [] Hst) as [Hk _]. simpl in Hk. done.
  - destruct (Z.ltb_spec jj niter) as [Hlt|Hge].
    + pose proof (propagate_step p d (c :: W) Hst) as Hst'.
      rewrite (IH (jj + 1)%Z d _ _ Hst') by lia.
      destruct Hst' as [-> _].
      replace (Z.to_nat (niter - jj))
        with (S (Z.to_nat (niter - (jj + 1)))) by lia.
      by rewrite iter_succ_r.
    + replace (Z.to_nat (niter - jj)) with 0 by lia. done.
Qed.

(** Without a budget what the propagation returns is the first fixed
    point. *)
Lemma erosion2_loop_fixed fuel niter jj p d W r :
  (niter <= 0)%Z -> length p = n ->
  wstate p d W ->
  erosion2_loop fuel shp offs' mask niter inv jj d W = Some r ->
  first_fixed_point K p r.
Proof.
  intros Hn. revert jj p d W; induction fuel as [|fuel IH];
    intros jj p d W Hp Hst; [done|].
  simpl.
  assert (Hle0 : (niter <=? 0)%Z = true) by (apply Z.leb_le; lia).
  rewrite Hle0, orb_true_r.
  destruct W as [|c W]; simpl.
  - intros [= <-]. apply worklist_state_empty in Hst as [-> Hfix]; [|done].
    rewrite Hfix. by apply first_fixed_point_here.
  - intros Hrun.
    pose proof (propagate_step p d (c :: W) Hst) as Hst'.
    assert (Hd : d = K p) by apply Hst.
    apply first_fixed_point_later.
    + intros Hfix. destruct Hst as [_ HW].
      destruct (HW c) as [Hc _]. destruct (Hc ltac:(by left)) as [_ Hne].
      apply Hne. by rewrite Hd, Hfix.
    + rewrite <- Hd. eapply IH; [|exact Hst'|exact Hrun].
      rewrite Hd. apply K_length.
Qed.

Lemma erosion2_loop_terminates fuel niter jj p d W :
  (niter <= 0)%Z -> length p = n ->
  wstate p d W ->
  (match W with [] => 1 | _ => count_value t d + 2 end) <= fuel ->
  exists r, erosion2_loop fuel shp offs' mask niter inv jj d W = Some r.
Proof.
  intros Hn. revert jj p d W; induction fuel as [|fuel IH];
    intros jj p d W Hp Hst Hf.
  { destruct W; lia. }
  simpl.
  assert (Hle0 : (niter <=? 0)%Z = true) by (apply Z.leb_le; lia).
  rewrite Hle0, orb_true_r.
  destruct W as [|c W]; simpl; [by eexists|].
  pose proof (propagate_step p d (c :: W) Hst) as Hst'.
  assert (Hd : length d = n).
  { destruct Hst as [-> _]. apply K_length. }
  eapply IH; [exact Hd|exact Hst'|].
  destruct (propagate shp offs' mask inv d (c :: W)).2 as [|c' W'] eqn:EW;
    [lia|].
  destruct Hst' as [Hk HW'].
  fold K in Hk. fold n in HW'.
  assert (Hne : K d <> d).
  { intros Hfix. destruct (HW' c') as [Hc _].
    destruct Hc as [_ Hne]; [rewrite EW; by left|].
    apply Hne. by rewrite Hk, Hfix. }
  destruct (K_count d Hd) as [_ Hlt]. specialize (Hlt Hne).
  rewrite Hk. lia.
Qed.

End Worklist.

(** ** The centre and the reflected offsets of a structuring element *)

Lemma vadd_vsub_self x c : length c = length x -> vadd x (vsub c c) = x.
Proof.
  revert c; induction x as [|a x IH]; intros [|b c]; simpl; try done.
  intros [= Hl]. rewrite (IH c Hl). f_equal. lia.
Qed.

Lemma getitem_Some {X} (a : ndarray X) c x :
  getitem a c = Some x ->
  in_bounds (shape a) c = true /\ data a !! ravel (shape a) c = Some x.
Proof.
  unfold getitem. destruct (in_bounds (shape a) c); [|done]. by split.
Qed.

(** A centre cell that is on puts the null offset in the table. *)
Lemma centre_in_offsets (structure : ndarray bool) origin shp :
  length (shape structure) = length shp ->
  length origin = length shp ->
  getitem structure (center (shape structure) origin) = Some true ->
  forall i, i < size shp ->
    exists o, In o (offsets structure origin)
              /\ vadd (unravel shp i) o = unravel shp i.
Proof.
  intros Hs Ho Hc i Hi.
  apply getitem_Some in Hc as [Hb Hon].
  set (c := center (shape structure) origin) in *.
  exists (vsub c c). split.
  - apply In_offsets. exists (ravel (shape structure) c). repeat split.
    + by apply ravel_lt.
    + by rewrite nth_lookup, Hon.
    + by rewrite unravel_ravel.
  - apply vadd_vsub_self.
    unfold c. rewrite length_center, length_unravel. lia.
Qed.

Lemma reflected_offsets (structure : ndarray bool) origin origin' shp :
  wf_array structure ->
  length (shape structure) = length shp ->
  length origin = length shp ->
  reflect_origin (shape structure) origin = Ok origin' ->
  forall i c, i < size shp -> c < size shp ->
    (exists o, In o (offsets structure origin)
               /\ in_bounds shp (vadd (unravel shp i) o) = true
               /\ ravel shp (vadd (unravel shp i) o) = c)
    <-> In i (neighbours shp (offsets (flip_all structure) origin') c).
Proof.
  intros Hwf Hs Ho Hr i c Hi Hc.
  assert (Hrefl := fun v => In_offsets_reflected structure origin origin' v
                               Hwf ltac:(lia) Hr).
  rewrite In_neighbours. split.
  - intros (o & Hin & Hb & Hrav).
    assert (Hlo : length o = length (unravel shp i)).
    { rewrite (length_offset structure origin o) by (lia || done).
      rewrite length_unravel. lia. }
    exists (vneg o). split; [|split].
    + apply Hrefl. by rewrite vneg_involutive.
    + rewrite <- Hrav, unravel_ravel, vadd_vneg_cancel by done.
      by apply in_bounds_unravel.
    + rewrite <- Hrav, unravel_ravel, vadd_vneg_cancel by done.
      by apply ravel_unravel.
  - intros (o & Hin & Hb & Hrav).
    apply Hrefl in Hin.
    assert (Hlo : length o = length (unravel shp c)).
    { rewrite <- (length_vneg o).
      rewrite (length_offset structure origin (vneg o)) by (lia || done).
      rewrite length_unravel. lia. }
    exists (vneg o). split; [done|].
    assert (Hback : vadd (unravel shp i) (vneg o) = unravel shp c).
    { rewrite <- Hrav, unravel_ravel by done.
      by apply vadd_vneg_cancel. }
    rewrite Hback. split.
    + by apply in_bounds_unravel.
    + by apply ravel_unravel.
Qed.

Lemma count_value_le t d : count_value t d <= length d.
Proof.
  unfold count_value. induction d as [|x d IH]; simpl; [done|].
  destruct (eqb t x); simpl; lia.
Qed.

(** ** Termination of the brute-force loop under a centred structure *)

Section BruteForceTermination.

Variables (shp : list nat) (structure : ndarray bool)
  (mask : option (ndarray bool)) (bv : bool) (origin : list Z)
  (inv cit : bool) (iterations : Z).

Let K := erode_data shp (offsets structure origin) mask bv inv.
Let t := negb inv.

Hypothesis centre_on :
  forall i, i < size shp ->
    exists o, In o (offsets structure origin)
              /\ vadd (unravel shp i) o = unravel shp i.

Lemma brute_force_loop_terminates fuel prev ii tmp_in tmp_out st
    (changed : bool) :
  (iterations < 1)%Z -> (1 <= ii)%Z ->
  loop_invariant shp tmp_in tmp_out st ->
  data (buffer_of tmp_out st) = K prev ->
  (if changed then count_value t (K prev) + 2 else 1) <= fuel ->
  exists res,
    brute_force_loop fuel structure mask bv origin inv cit iterations ii
      tmp_in tmp_out st changed = Some res.
Proof.
  intros Hit. revert prev ii tmp_in tmp_out st changed.
  induction fuel as [|fuel IH];
    intros prev ii tmp_in tmp_out st changed Hii Hinv Hcur Hf.
  { destruct changed; lia. }
  simpl.
  assert (Hlt : (ii <? iterations)%Z = false) by (apply Z.ltb_ge; lia).
  assert (Hlt1 : (iterations <? 1)%Z = true) by (apply Z.ltb_lt; lia).
  rewrite Hlt, Hlt1. simpl.
  destruct changed; [|by eexists].
  destruct (loop_invariant_pass shp structure mask bv origin inv cit _ _ _ Hinv)
    as (Hout & Hflag & Hinv' & Hdata).
  fold K in Hout, Hflag, Hdata.
  eapply (IH (K prev) (ii + 1)%Z); [lia|exact Hinv'|by rewrite Hdata, Hcur|].
  destruct (pass_from tmp_out st structure mask bv origin inv cit).1.2 eqn:Ech;
    [|lia].
  assert (Hne : K (K prev) <> K prev).
  { intros Heq. rewrite Hcur in Hflag. apply Hflag in Heq. congruence. }
  destruct (K_count shp (offsets structure origin) mask bv inv centre_on (K prev))
    as [_ Hlt2].
  { apply erode_data_length. }
  specialize (Hlt2 Hne). fold K t in Hlt2. lia.
Qed.

End BruteForceTermination.

(** ** The three branches of the driver on a boolean input *)

Section Run.

Variables (input : ndarray bool) (structure : ndarray bool)
  (mask : option (ndarray bool)) (bv : bool) (origin : list Z)
  (inv cit : bool) (iterations : Z).

Let shp := shape input.
Let n := size shp.
Let K := erode_data shp (offsets structure origin) mask bv inv.
Let st0 := mk_buffers (zeros shp) (zeros shp).

Hypothesis input_wf : wf_array input.

Lemma first_pass rc :
  (nd_binary_erosion input structure mask bv origin inv cit rc).1.1
  = K (data input).
Proof. apply kernel_erode_data. Qed.

Lemma first_pass_unchanged rc :
  (nd_binary_erosion input structure mask bv origin inv cit rc).1.2 = false
  <-> K (data input) = data input.
Proof. by apply kernel_unchanged. Qed.

Lemma first_pass_invariant tmp_in tmp_out out :
  tmp_in <> tmp_out -> length out = n ->
  loop_invariant shp tmp_in tmp_out (write tmp_out out st0).
Proof.
  intros Hne Hl. repeat split; [done| | |].
  - change (bufA ?s) with (buffer_of SlotA s). by rewrite write_shape.
  - change (bufB ?s) with (buffer_of SlotB s). by rewrite write_shape.
  - by rewrite write_buffer_of.
Qed.

Lemma buffer_of_first tmp_out out :
  buffer_of tmp_out (write tmp_out out st0) = mk_ndarray shp out.
Proof. rewrite write_buffer_of. by destruct tmp_out. Qed.

(** A single iteration. *)
Lemma passes_single fuel brute_force :
  iterations = 1%Z ->
  erosion_passes fuel input structure iterations mask (zeros shp) bv origin
    inv cit brute_force
  = Some (Ok (SlotB, write SlotB (K (data input)) st0)).
Proof.
  intros Hit. unfold erosion_passes.
  assert ((iterations =? 1)%Z = true) as -> by (by apply Z.eqb_eq).
  fold shp st0. by rewrite first_pass.
Qed.

(** The brute-force branch with an iteration count. *)
Lemma passes_brute_count fuel brute_force :
  (2 <= iterations)%Z -> cit && negb brute_force = false ->
  Z.to_nat iterations <= fuel ->
  exists s st,
    erosion_passes fuel input structure iterations mask (zeros shp) bv origin
      inv cit brute_force = Some (Ok (s, st))
    /\ buffer_of s st
       = mk_ndarray shp (Nat.iter (Z.to_nat iterations) K (data input)).
Proof.
  intros Hit Hpath Hf. unfold erosion_passes.
  assert (H1 : (iterations =? 1)%Z = false) by (apply Z.eqb_neq; lia).
  rewrite H1, Hpath. fold shp st0.
  set (r := nd_binary_erosion input structure mask bv origin inv cit false).
  assert (Hout : r.1.1 = K (data input)) by apply first_pass.
  assert (Hlen : length r.1.1 = n) by (rewrite Hout; apply erode_data_length).
  assert (Hloop : forall tmp_in tmp_out, tmp_in <> tmp_out ->
    exists s st,
      brute_force_loop fuel structure mask bv origin inv cit iterations 1
        tmp_in tmp_out (write tmp_out r.1.1 st0) r.1.2 = Some (s, st)
      /\ buffer_of s st
         = mk_ndarray shp (Nat.iter (Z.to_nat iterations) K (data input))).
  { intros tmp_in tmp_out Hne.
    destruct (brute_force_loop_count shp structure mask bv origin inv cit
                iterations fuel 1 tmp_in tmp_out (write tmp_out r.1.1 st0)
                r.1.2) as (s & st & Hrun & Hs & Hd);
      [by apply first_pass_invariant|lia|lia|].
    exists s, st. split; [done|].
    destruct (buffer_of s st) as [sh dd] eqn:E. simpl in *. subst sh.
    f_equal. rewrite Hd, buffer_of_first. simpl. rewrite Hout.
    fold K.
    replace (Z.to_nat iterations) with (S (Z.to_nat (iterations - 1))) by lia.
    by rewrite iter_succ_r. }
  destruct (Z.land iterations 1 =? 0)%Z.
  - destruct (Hloop SlotB SlotA) as (s & st & -> & Hb); [done|]. by exists s, st.
  - destruct (Hloop SlotA SlotB) as (s & st & -> & Hb); [done|]. by exists s, st.
Qed.

(** The brute-force branch repeating to a fixed point: what it returns. *)
Lemma passes_brute_fixed fuel brute_force res :
  (iterations < 1)%Z -> cit && negb brute_force = false ->
  erosion_passes fuel input structure iterations mask (zeros shp) bv origin
    inv cit brute_force = Some res ->
  exists s st r,
    res = Ok (s, st) /\ buffer_of s st = mk_ndarray shp r
    /\ first_fixed_point K (data input) r.
Proof.
  intros Hit Hpath. unfold erosion_passes.
  assert (H1 : (iterations =? 1)%Z = false) by (apply Z.eqb_neq; lia).
  rewrite H1, Hpath. fold shp st0.
  set (r := nd_binary_erosion input structure mask bv origin inv cit false).
  assert (Hout : r.1.1 = K (data input)) by apply first_pass.
  assert (Hlen : length r.1.1 = n) by (rewrite Hout; apply erode_data_length).
  assert (Hloop : forall tmp_in tmp_out s st, tmp_in <> tmp_out ->
    brute_force_loop fuel structure mask bv origin inv cit iterations 1
      tmp_in tmp_out (write tmp_out r.1.1 st0) r.1.2 = Some (s, st) ->
    exists r', buffer_of s st = mk_ndarray shp r'
               /\ first_fixed_point K (data input) r').
  { intros tmp_in tmp_out s st Hne Hrun.
    destruct (brute_force_loop_fixed shp structure mask bv origin inv cit
                iterations fuel (data input) 1 tmp_in tmp_out
                (write tmp_out r.1.1 st0) r.1.2 s st) as [Hs Hfp];
      [done|lia|by apply first_pass_invariant| | |done|].
    - by rewrite buffer_of_first.
    - apply first_pass_unchanged.
    - exists (data (buffer_of s st)). split; [|done].
      destruct (buffer_of s st) as [sh dd]. simpl in *. by rewrite Hs. }
  destruct (Z.land iterations 1 =? 0)%Z.
  - destruct (brute_force_loop _ _ _ _ _ _ _ _ _ _ _ _ _) as [[s st]|] eqn:E;
      [|done].
    intros [= <-].
    destruct (Hloop SlotB SlotA s st) as (r' & ? & ?); [done|exact E|].
    by exists s, st, r'.
  - destruct (brute_force_loop _ _ _ _ _ _ _ _ _ _ _ _ _) as [[s st]|] eqn:E;
      [|done].
    intros [= <-].
    destruct (Hloop SlotA SlotB s st) as (r' & ? & ?); [done|exact E|].
    by exists s, st, r'.
Qed.

(** The brute-force branch repeating to a fixed point returns when the
    centre of the structure is on. *)
Lemma passes_brute_terminates fuel brute_force :
  (iterations < 1)%Z -> cit && negb brute_force = false ->
  (forall i, i < n ->
     exists o, In o (offsets structure origin)
               /\ vadd (unravel shp i) o = unravel shp i) ->
  n + 2 <= fuel ->
  exists res,
    erosion_passes fuel input structure iterations mask (zeros shp) bv origin
      inv cit brute_force = Some res.
Proof.
  intros Hit Hpath Hcentre Hf. unfold erosion_passes.
  assert (H1 : (iterations =? 1)%Z = false) by (apply Z.eqb_neq; lia).
  rewrite H1, Hpath. fold shp st0.
  set (r := nd_binary_erosion input structure mask bv origin inv cit false).
  assert (Hout : r.1.1 = K (data input)) by apply first_pass.
  assert (Hlen : length r.1.1 = n) by (rewrite Hout; apply erode_data_length).
  assert (Hloop : forall tmp_in tmp_out, tmp_in <> tmp_out ->
    exists res,
      brute_force_loop fuel structure mask bv origin inv cit iterations 1
        tmp_in tmp_out (write tmp_out r.1.1 st0) r.1.2 = Some res).
  { intros tmp_in tmp_out Hne.
    apply (brute_force_loop_terminates shp structure mask bv origin inv cit
             iterations Hcentre fuel (data input));
      [done|lia|by apply first_pass_invariant|by rewrite buffer_of_first|].
    pose proof (count_value_le (negb inv)
                  (erode_data shp (offsets structure origin) mask bv inv
                     (data input))) as Hc.
    rewrite erode_data_length in Hc. fold n in Hc.
    destruct r.1.2; lia. }
  destruct (Z.land iterations 1 =? 0)%Z.
  - destruct (Hloop SlotB SlotA) as (res & ->); [done|]. by eexists.
  - destruct (Hloop SlotA SlotB) as (res & ->); [done|]. by eexists.
Qed.

(** The worklist branch. *)
Section WorklistBranch.

Hypothesis structure_wf : wf_array structure.
Hypothesis structure_rank : length (shape structure) = length shp.
Hypothesis origin_rank : length origin = length shp.
Hypothesis centre_cell :
  getitem structure (center (shape structure) origin) = Some true.

Lemma run_centre_on :
  forall i, i < n ->
    exists o, In o (offsets structure origin)
              /\ vadd (unravel shp i) o = unravel shp i.
Proof. by apply centre_in_offsets. Qed.

Lemma worklist_first_state :
  worklist_state shp (offsets structure origin) mask bv inv (data input)
    (K (data input))
    (nd_binary_erosion input structure mask bv origin inv cit true).2.
Proof.
  split; [done|]. intros c. apply kernel_coordinates.
Qed.

Lemma passes_worklist_unfold fuel brute_force :
  (iterations =? 1)%Z = false -> cit && negb brute_force = true ->
  exists origin',
    reflect_origin (shape structure) origin = Ok origin'
    /\ erosion_passes fuel input structure iterations mask (zeros shp) bv
         origin inv cit brute_force
       = match erosion2_loop fuel shp (offsets (flip_all structure) origin')
                 mask (iterations - 1) inv 0 (K (data input))
                 (nd_binary_erosion input structure mask bv origin inv cit
                    true).2 with
         | Some d =>
             Some (Ok (SlotB, mk_buffers (zeros shp) (mk_ndarray shp d)))
         | None => None
         end.
Proof.
  intros H1 Hpath.
  destruct (reflect_origin_ok (shape structure) origin) as (o' & Ho' & _);
    [lia|].
  exists o'. split; [done|].
  unfold erosion_passes. rewrite H1, Hpath. fold shp st0.
  rewrite shape_flip_all, Ho'. unfold nd_binary_erosion2.
  rewrite first_pass.
  change (bufB (write SlotB (K (data input)) st0))
    with (buffer_of SlotB (write SlotB (K (data input)) st0)).
  rewrite buffer_of_first. cbn [shape data].
  by destruct (erosion2_loop _ _ _ _ _ _ _ _ _).
Qed.

Lemma passes_worklist_count fuel brute_force :
  (2 <= iterations)%Z -> cit && negb brute_force = true ->
  Z.to_nat iterations <= fuel ->
  exists s st,
    erosion_passes fuel input structure iterations mask (zeros shp) bv origin
      inv cit brute_force = Some (Ok (s, st))
    /\ buffer_of s st
       = mk_ndarray shp (Nat.iter (Z.to_nat iterations) K (data input)).
Proof.
  intros Hit Hpath Hf.
  destruct (passes_worklist_unfold fuel brute_force) as (o' & Ho' & ->);
    [apply Z.eqb_neq; lia|done|].
  rewrite (erosion2_loop_count shp (offsets structure origin)
             (offsets (flip_all structure) o') mask bv inv run_centre_on
             (reflected_offsets structure origin o' shp structure_wf
                structure_rank origin_rank Ho')
             fuel (iterations - 1) 0 (data input));
    [|apply worklist_first_state|lia|lia|lia].
  eexists _, _. split; [done|]. simpl. f_equal. fold K.
  replace (Z.to_nat iterations) with (S (Z.to_nat (iterations - 1 - 0))) by lia.
  by rewrite iter_succ_r.
Qed.

Lemma passes_worklist_fixed fuel brute_force res :
  (iterations < 1)%Z -> cit && negb brute_force = true ->
  erosion_passes fuel input structure iterations mask (zeros shp) bv origin
    inv cit brute_force = Some res ->
  exists s st r,
    res = Ok (s, st) /\ buffer_of s st = mk_ndarray shp r
    /\ first_fixed_point K (data input) r.
Proof.
  intros Hit Hpath.
  destruct (passes_worklist_unfold fuel brute_force) as (o' & Ho' & ->);
    [apply Z.eqb_neq; lia|done|].
  destruct (erosion2_loop _ _ _ _ _ _ _ _ _) as [d|] eqn:E; [|done].
  intros [= <-]. eexists _, _, d. repeat split.
  apply (erosion2_loop_fixed shp (offsets structure origin)
           (offsets (flip_all structure) o') mask bv inv run_centre_on
           (reflected_offsets structure origin o' shp structure_wf
              structure_rank origin_rank Ho')
           fuel (iterations - 1) 0 (data input) (K (data input))
           (nd_binary_erosion input structure mask bv origin inv cit true).2
           d);
    [lia|exact input_wf|apply worklist_first_state|exact E].
Qed.

Lemma passes_worklist_terminates fuel brute_force :
  (iterations < 1)%Z -> cit && negb brute_force = true ->
  n + 2 <= fuel ->
  exists res,
    erosion_passes fuel input structure iterations mask (zeros shp) bv origin
      inv cit brute_force = Some res.
Proof.
  intros Hit Hpath Hf.
  destruct (passes_worklist_unfold fuel brute_force) as (o' & Ho' & ->);
    [apply Z.eqb_neq; lia|done|].
  destruct (erosion2_loop_terminates shp (offsets structure origin)
              (offsets (flip_all structure) o') mask bv inv run_centre_on
              (reflected_offsets structure origin o' shp structure_wf
                 structure_rank origin_rank Ho')
              fuel (iterations - 1) 0 (data input) (K (data input))
              (nd_binary_erosion input structure mask bv origin inv cit
                 true).2) as (d & ->);
    [lia|exact input_wf|apply worklist_first_state| |by eexists].
  pose proof (count_value_le (negb inv) (K (data input))) as Hc.
  unfold K in Hc at 2. rewrite erode_data_length in Hc. fold n in Hc.
  destruct (nd_binary_erosion _ _ _ _ _ _ _ _).2; lia.
Qed.

End WorklistBranch.

End Run.

(** ** The checks of the driver *)

Lemma normalize_coor_in_bounds shp c :
  in_bounds shp c = true -> normalize_coor shp c = Some c.
Proof.
  revert c; induction shp as [|d rest IH]; intros [|x xs]; simpl; try done.
  intros Hb. apply andb_prop in Hb as [Hb Hrest].
  rewrite (IH _ Hrest). unfold normalize_index. by rewrite Hb.
Qed.

(** With the centre inside the structure, [_center_is_true] reads the
    centre cell. *)
Lemma center_is_true_valid (structure : ndarray bool) origin cit :
  in_bounds (shape structure) (center (shape structure) origin) = true ->
  _center_is_true structure origin = Ok cit ->
  getitem structure (center (shape structure) origin) = Some cit.
Proof.
  intros Hb. unfold _center_is_true, getitem.
  rewrite normalize_coor_in_bounds, Hb by done.
  destruct (data structure !! _); [|done]. by intros [= ->].
Qed.

Lemma erosion_checks_ok (input : ndarray bool) structure mask origin S o cit :
  erosion_checks (B := bool) input structure mask OutNone origin
  = Ok (S, o, cit) ->
  S = match structure with
      | None => generate_binary_structure (ndim input) 1
      | Some s => s
      end
  /\ length (shape S) = length (shape input)
  /\ _normalize_sequence origin (ndim input) = Ok o
  /\ length o = length (shape input)
  /\ _center_is_true S o = Ok cit.
Proof.
  unfold erosion_checks. simpl.
  set (S0 := match structure with
             | Some s => s
             | None => generate_binary_structure (ndim input) 1
             end).
  destruct (ndim S0 =? ndim input) eqn:Hn; simpl; [|done].
  destruct (size (shape S0) <? 1); [done|].
  destruct (match mask with Some m => _ | None => false end); [done|].
  destruct (_normalize_sequence origin (ndim input)) as [o0|] eqn:Ho;
    simpl; [|done].
  destruct (_center_is_true S0 o0) as [c0|] eqn:Hc; simpl; [|done].
  intros [= <- <- <-]. apply Nat.eqb_eq in Hn.
  repeat split; try done.
  by apply normalize_sequence_length in Ho.
Qed.

(** The driver on a boolean input without an output array, once the
    checks have passed. *)
Lemma binary_erosion_passes fuel (input : ndarray bool) structure iterations
    mask bv origin inv brute_force S o cit :
  erosion_checks (B := bool) input structure mask OutNone origin
  = Ok (S, o, cit) ->
  _binary_erosion (B := bool) fuel input structure iterations mask OutNone bv
    origin inv brute_force
  = match erosion_passes fuel input S iterations mask (zeros (shape input))
            bv o inv cit brute_force with
    | Some (Ok (s, st)) =>
        Some (Ok (mk_erosion_result (Some (buffer_of s st)) None))
    | Some (Raise e) => Some (Raise e)
    | None => None
    end.
Proof. intros Hchk. unfold _binary_erosion. by rewrite Hchk. Qed.

(** ** The single-iteration operator and the pass on buffers *)

Lemma single_iteration_iter structure mask bv origin inv (a : ndarray bool) k :
  Nat.iter k (single_iteration structure mask bv origin inv) a
  = mk_ndarray (shape a)
      (Nat.iter k (erode_data (shape a) (offsets structure origin) mask bv inv)
         (data a)).
Proof.
  induction k as [|k IH]; simpl.
  - by destruct a.
  - rewrite IH. done.
Qed.

Lemma single_iteration_fixed_point structure mask bv origin inv
    (a : ndarray bool) r :
  first_fixed_point
    (erode_data (shape a) (offsets structure origin) mask bv inv) (data a) r ->
  first_fixed_point (single_iteration structure mask bv origin inv) a
    (mk_ndarray (shape a) r).
Proof.
  intros (k & -> & Hfix & Hfirst). exists k. repeat split.
  - by rewrite single_iteration_iter.
  - unfold single_iteration. simpl. by rewrite Hfix.
  - intros j Hj Heq. apply (Hfirst j Hj).
    rewrite single_iteration_iter in Heq.
    unfold single_iteration in Heq. simpl in Heq.
    by injection Heq.
Qed.

(** ** What the driver computes *)

Section Driver.

Variables (input : ndarray bool) (structure : option (ndarray bool))
  (mask : option (ndarray bool)) (bv : bool) (origin : int_or_seq Z)
  (inv : bool) (iterations : Z) (S : ndarray bool) (o : list Z) (cit : bool).

Hypothesis input_wf : wf_array input.
Hypothesis structure_wf : wf_array S.
Hypothesis checks_pass :
  erosion_checks (B := bool) input structure mask OutNone origin
  = Ok (S, o, cit).
Hypothesis origin_valid :
  in_bounds (shape S) (center (shape S) o) = true.

Let f := single_iteration S mask bv o inv.

Lemma driver_centre_cell :
  getitem S (center (shape S) o) = Some cit.
Proof.
  apply center_is_true_valid; [done|].
  by destruct (erosion_checks_ok _ _ _ _ _ _ _ checks_pass)
    as (_ & _ & _ & _ & ?).
Qed.

Lemma driver_ranks :
  length (shape S) = length (shape input)
  /\ length o = length (shape input).
Proof.
  by destruct (erosion_checks_ok _ _ _ _ _ _ _ checks_pass)
    as (_ & ? & _ & ? & _).
Qed.

Lemma driver_count fuel brute_force :
  (1 <= iterations)%Z -> Z.to_nat iterations <= fuel ->
  _binary_erosion (B := bool) fuel input structure iterations mask OutNone bv
    origin inv brute_force
  = Some (Ok (mk_erosion_result
                (Some (Nat.iter (Z.to_nat iterations) f input)) None)).
Proof.
  intros Hit Hf. rewrite (binary_erosion_passes _ _ _ _ _ _ _ _ _ S o cit)
    by done.
  destruct driver_ranks as [HrS Hro].
  unfold f. rewrite single_iteration_iter.
  destruct (decide (iterations = 1%Z)) as [H1|H1].
  - rewrite passes_single by done. rewrite buffer_of_first. by rewrite H1.
  - destruct (cit && negb brute_force) eqn:Hpath.
    + assert (Hcit : cit = true) by (by apply andb_prop in Hpath as [? _]).
      pose proof driver_centre_cell as Hc. rewrite Hcit in Hc.
      destruct (passes_worklist_count input S mask bv o inv cit iterations
                  structure_wf HrS Hro Hc fuel brute_force)
        as (s & st & -> & ->); [lia|done|lia|done].
    + destruct (passes_brute_count input S mask bv o inv cit iterations
                  fuel brute_force) as (s & st & -> & ->); [lia|done|lia|done].
Qed.

Lemma driver_fixed fuel brute_force res :
  (iterations < 1)%Z ->
  _binary_erosion (B := bool) fuel input structure iterations mask OutNone bv
    origin inv brute_force = Some res ->
  exists r, res = Ok (mk_erosion_result (Some r) None)
            /\ first_fixed_point f input r.
Proof.
  intros Hit. rewrite (binary_erosion_passes _ _ _ _ _ _ _ _ _ S o cit)
    by done.
  destruct driver_ranks as [HrS Hro].
  destruct (erosion_passes _ _ _ _ _ _ _ _ _ _ _) as [res'|] eqn:E; [|done].
  assert (Hres : exists s st r,
             res' = Ok (s, st) /\ buffer_of s st = mk_ndarray (shape input) r
             /\ first_fixed_point
                  (erode_data (shape input) (offsets S o) mask bv inv)
                  (data input) r).
  { destruct (cit && negb brute_force) eqn:Hpath.
    - assert (Hcit : cit = true) by (by apply andb_prop in Hpath as [? _]).
      pose proof driver_centre_cell as Hc. rewrite Hcit in Hc.
      by apply (passes_worklist_fixed input S mask bv o inv cit iterations
                  input_wf structure_wf HrS Hro Hc fuel brute_force).
    - by apply (passes_brute_fixed input S mask bv o inv cit iterations
                  input_wf fuel brute_force). }
  destruct Hres as (s & st & r & -> & Hb & Hfp).
  intros [= <-]. exists (mk_ndarray (shape input) r). split.
  - by rewrite Hb.
  - by apply single_iteration_fixed_point.
Qed.

Lemma driver_terminates fuel brute_force :
  (iterations < 1)%Z ->
  getitem S (center (shape S) o) = Some true ->
  size (shape input) + 2 <= fuel ->
  exists res,
    _binary_erosion (B := bool) fuel input structure iterations mask OutNone
      bv origin inv brute_force = Some res.
Proof.
  intros Hit Hc Hf. rewrite (binary_erosion_passes _ _ _ _ _ _ _ _ _ S o cit)
    by done.
  destruct driver_ranks as [HrS Hro].
  assert (Hrun : exists res',
             erosion_passes fuel input S iterations mask (zeros (shape input))
               bv o inv cit brute_force = Some res').
  { destruct (cit && negb brute_force) eqn:Hpath.
    - by apply (passes_worklist_terminates input S mask bv o inv cit iterations
                  input_wf structure_wf HrS Hro Hc fuel brute_force).
    - apply (passes_brute_terminates input S mask bv o inv cit iterations
               fuel brute_force); [done|done| |done].
      by apply centre_in_offsets. }
  destruct Hrun as ([[s st]|e] & ->); by eexists.
Qed.

End Driver.

(** ** The reflected structure of a dilation *)

Lemma center_reflected shp origin origin' :
  reflect_origin shp origin = Ok origin' ->
  length origin = length shp ->
  center shp origin' = flip_coord shp (center shp origin).
Proof.
  revert origin origin'; induction shp as [|d rest IH];
    intros [|o os] origin'; simpl; try done.
  destruct (reflect_origin rest os) as [os'|] eqn:E; simpl; [|done].
  intros [= <-] [= Ho]. unfold center, flip_coord in *. cbn [zip_with].
  rewrite (IH os os' E Ho). f_equal.
  rewrite land_one_even. generalize (half_double_parity d).
  change (Nat.divmod d 1 0 1).1 with (d / 2).
  destruct (Nat.even d); intros Hp; lia.
Qed.

Lemma flip_coord_involutive shp c :
  length c = length shp -> flip_coord shp (flip_coord shp c) = c.
Proof.
  revert c; induction shp as [|d rest IH]; intros [|x xs]; simpl; try done.
  intros [= Hl]. unfold flip_coord in *. simpl. rewrite (IH xs Hl).
  f_equal. lia.
Qed.

Lemma wf_flip_all {X} `{Inhabited X} (a : ndarray X) : wf_array (flip_all a).
Proof. unfold wf_array, flip_all. simpl. by rewrite length_map, length_seq. Qed.

Lemma getitem_flip_all (a : ndarray bool) c x :
  wf_array a ->
  getitem a c = Some x ->
  getitem (flip_all a) (flip_coord (shape a) c) = Some x.
Proof.
  intros Hwf [Hb Hx]%getitem_Some. unfold getitem.
  rewrite shape_flip_all, in_bounds_flip_coord by done.
  unfold flip_all. simpl.
  rewrite list_lookup_fmap, lookup_seq_lt
    by (apply ravel_lt; by apply in_bounds_flip_coord).
  simpl. rewrite unravel_ravel by (by apply in_bounds_flip_coord).
  rewrite flip_coord_involutive by (by apply in_bounds_length).
  by rewrite nth_lookup, Hx.
Qed.

Lemma erosion_checks_guards (input : ndarray bool) structure mask origin S o
    cit :
  erosion_checks (B := bool) input structure mask OutNone origin
  = Ok (S, o, cit) ->
  (size (shape S) <? 1) = false
  /\ match mask with
     | Some m => negb (bool_decide (shape m = shape input))
     | None => false
     end = false.
Proof.
  intros Hchk.
  destruct (erosion_checks_ok _ _ _ _ _ _ _ Hchk) as (HS & _).
  revert Hchk. unfold erosion_checks. simpl. rewrite <- HS.
  destruct (ndim S =? ndim input); simpl; [|done].
  destruct (size (shape S) <? 1); [done|].
  destruct (match mask with Some m => _ | None => false end); [done|].
  done.
Qed.

(** The checks that pass for a structure pass for its reflection about
    the negated origin, with the same centre cell. *)
Lemma erosion_checks_flip (input : ndarray bool) structure mask origin S o o'
    cit :
  wf_array S ->
  erosion_checks (B := bool) input structure mask OutNone origin
  = Ok (S, o, cit) ->
  in_bounds (shape S) (center (shape S) o) = true ->
  reflect_origin (shape S) o = Ok o' ->
  erosion_checks (B := bool) input (Some (flip_all S)) mask OutNone
    (Sequence o') = Ok (flip_all S, o', cit)
  /\ in_bounds (shape (flip_all S)) (center (shape (flip_all S)) o') = true
  /\ getitem (flip_all S) (center (shape (flip_all S)) o') = Some cit.
Proof.
  intros Hwf Hchk Hvalid Hr.
  destruct (erosion_checks_ok _ _ _ _ _ _ _ Hchk) as (_ & HrS & _ & Hro & Hc).
  destruct (erosion_checks_guards _ _ _ _ _ _ _ Hchk) as [Hsize Hmask].
  assert (Hlo' : length o' = length (shape input)).
  { destruct (reflect_origin_ok (shape S) o) as (o2 & Ho2 & Hlen); [lia|].
    rewrite Hr in Ho2. injection Ho2 as <-. lia. }
  assert (Hcentre : center (shape S) o' = flip_coord (shape S) (center (shape S) o)).
  { apply center_reflected; [done|lia]. }
  assert (Hget : getitem (flip_all S) (center (shape (flip_all S)) o')
                 = Some cit).
  { rewrite shape_flip_all, Hcentre. apply getitem_flip_all; [done|].
    by apply center_is_true_valid. }
  assert (Hb : in_bounds (shape (flip_all S))
                 (center (shape (flip_all S)) o') = true).
  { by apply getitem_Some in Hget as [? _]. }
  repeat split; [|done|done].
  unfold erosion_checks. simpl.
  unfold ndim. rewrite shape_flip_all, HrS, Nat.eqb_refl. simpl.
  rewrite Hsize, Hmask.
  destruct (decide (length o' = length (shape input))); [|done]. simpl.
  unfold _center_is_true.
  rewrite normalize_coor_in_bounds by done.
  apply getitem_Some in Hget as [_ ->]. done.
Qed.

Lemma binary_dilation_unfold fuel (input : ndarray bool) structure iterations
    mask bv origin brute_force o o' :
  let S := match structure with
           | None => generate_binary_structure (ndim input) 1
           | Some s => s
           end in
  _normalize_sequence origin (ndim input) = Ok o ->
  reflect_origin (shape S) o = Ok o' ->
  binary_dilation (B := bool) fuel input structure iterations mask OutNone bv
    origin brute_force
  = _binary_erosion (B := bool) fuel input (Some (flip_all S)) iterations mask
      OutNone bv (Sequence o') true brute_force.
Proof.
  intros S Ho Hr. unfold binary_dilation. fold S.
  by rewrite Ho, shape_flip_all, Hr.
Qed.

(** ** Iteration counts *)

(** A structure whose centre cell is off can make the loop of the
    brute-force branch exchange two arrays for ever: erosion by
    [[1, 0, 1]] with border value 1 swaps the two cells of an array of
    length 2. *)
Lemma oscillation_step fuel ii :
  brute_force_loop (C := bool) (Datatypes.S fuel)
    (mk_ndarray [3] [true; false; true]) None true [0%Z] false false 0 ii
    SlotA SlotB
    (mk_buffers (mk_ndarray [2] [false; true]) (mk_ndarray [2] [true; false]))
    true
  = brute_force_loop (C := bool) fuel
      (mk_ndarray [3] [true; false; true]) None true [0%Z] false false 0
      (ii + 1) SlotB SlotA
      (mk_buffers (mk_ndarray [2] [false; true])
         (mk_ndarray [2] [true; false])) true
  /\ brute_force_loop (C := bool) (Datatypes.S fuel)
       (mk_ndarray [3] [true; false; true]) None true [0%Z] false false 0 ii
       SlotB SlotA
       (mk_buffers (mk_ndarray [2] [false; true])
          (mk_ndarray [2] [true; false])) true
     = brute_force_loop (C := bool) fuel
         (mk_ndarray [3] [true; false; true]) None true [0%Z] false false 0
         (ii + 1) SlotA SlotB
         (mk_buffers (mk_ndarray [2] [false; true])
            (mk_ndarray [2] [true; false])) true.
Proof.
  split; cbn [brute_force_loop];
    change ((0 <? 1)%Z && true) with true; rewrite orb_true_r; reflexivity.
Qed.

Lemma oscillation_loop fuel :
  forall ii,
    brute_force_loop (C := bool) fuel
      (mk_ndarray [3] [true; false; true]) None true [0%Z] false false 0 ii
      SlotA SlotB
      (mk_buffers (mk_ndarray [2] [false; true])
         (mk_ndarray [2] [true; false])) true = None
    /\ brute_force_loop (C := bool) fuel
         (mk_ndarray [3] [true; false; true]) None true [0%Z] false false 0
         ii SlotB SlotA
         (mk_buffers (mk_ndarray [2] [false; true])
            (mk_ndarray [2] [true; false])) true = None.
Proof.
  induction fuel as [|fuel IH]; intros ii; [done|].
  destruct (oscillation_step fuel ii) as [-> ->].
  destruct (IH (ii + 1)%Z) as [-> ->]. done.
Qed.

Lemma oscillation_run fuel :
  binary_erosion (B := bool) fuel (mk_ndarray [2] [true; false])
    (Some (mk_ndarray [3] [true; false; true])) 0 None OutNone true
    (Scalar 0%Z) false = None.
Proof.
  assert (Hrun :
    binary_erosion (B := bool) fuel (mk_ndarray [2] [true; false])
      (Some (mk_ndarray [3] [true; false; true])) 0 None OutNone true
      (Scalar 0%Z) false
    = match brute_force_loop (C := bool) fuel
              (mk_ndarray [3] [true; false; true]) None true [0%Z] false
              false 0 1 SlotB SlotA
              (mk_buffers (mk_ndarray [2] [false; true])
                 (mk_ndarray [2] [false; false])) true with
      | Some (s, st) =>
          Some (Ok (mk_erosion_result (Some (buffer_of s st)) None))
      | None => None
      end).
  { unfold binary_erosion.
    rewrite (binary_erosion_passes _ _ _ _ _ _ _ _ _
               (mk_ndarray [3] [true; false; true]) [0%Z] false)
      by reflexivity.
    unfold erosion_passes. cbn [Z.eqb andb].
    change (Z.land 0 1 =? 0)%Z with true. cbv iota beta zeta.
    match goal with
    | |- context [brute_force_loop ?f ?s ?m ?b ?o ?i ?c ?it ?ii ?a ?z ?st ?ch] =>
        change st with (mk_buffers (mk_ndarray [2] [false; true])
                          (mk_ndarray [2] [false; false]));
        change ch with true
    end.
    by destruct (brute_force_loop _ _ _ _ _ _ _ _ _ _ _ _ _) as [[s st]|]. }
  rewrite Hrun. destruct fuel as [|fuel]; [done|].
  cbn [brute_force_loop].
  change ((0 <? 1)%Z && true) with true. rewrite orb_true_r.
  match goal with
  | |- context [brute_force_loop ?f ?s ?m ?b ?o ?i ?c ?it ?ii ?a ?z ?st ?ch] =>
      change st with (mk_buffers (mk_ndarray [2] [false; true])
                        (mk_ndarray [2] [true; false]));
      change ch with true
  end.
  by destruct (oscillation_loop fuel (1 + 1)%Z) as [-> _].
Qed.

(** C3 (as the code has it): for a well-formed boolean input and
    structure that pass the checks of the driver, with the centre index
    of the structure inside it: when [iterations >= 1] binary erosion and
    binary dilation return the single-iteration operator applied
    [iterations] times to the input; when [iterations < 1] a result that
    they return is the first fixed point of the single-iteration operator
    on the orbit of the input, and they do return one when the centre cell
    of the structure is on. *)
Theorem C3_iterations (input : ndarray bool)
    (structure : option (ndarray bool)) (mask : option (ndarray bool))
    (border_value : bool) (origin : int_or_seq Z) (iterations : Z)
    (brute_force : bool) (fuel : nat) (S : ndarray bool) (o o' : list Z)
    (cit : bool) :
  wf_array input -> wf_array S ->
  erosion_checks (B := bool) input structure mask OutNone origin
  = Ok (S, o, cit) ->
  in_bounds (shape S) (center (shape S) o) = true ->
  reflect_origin (shape S) o = Ok o' ->
  let erode := single_iteration S mask border_value o false in
  let dilate := single_iteration (flip_all S) mask border_value o' true in
  let eroded :=
    binary_erosion (B := bool) fuel input structure iterations mask OutNone
      border_value origin brute_force in
  let dilated :=
    binary_dilation (B := bool) fuel input structure iterations mask OutNone
      border_value origin brute_force in
  ((1 <= iterations)%Z -> Z.to_nat iterations <= fuel ->
   eroded = Some (Ok (mk_erosion_result
                        (Some (Nat.iter (Z.to_nat iterations) erode input))
                        None))
   /\ dilated = Some (Ok (mk_erosion_result
                            (Some (Nat.iter (Z.to_nat iterations) dilate
                                     input)) None)))
  /\ ((iterations < 1)%Z ->
      (forall res, eroded = Some res ->
         exists r, res = Ok (mk_erosion_result (Some r) None)
                   /\ first_fixed_point erode input r)
      /\ (forall res, dilated = Some res ->
            exists r, res = Ok (mk_erosion_result (Some r) None)
                      /\ first_fixed_point dilate input r))
  /\ ((iterations < 1)%Z -> cit = true -> size (shape input) + 2 <= fuel ->
      (exists res, eroded = Some res) /\ (exists res, dilated = Some res)).
Proof.
  intros Hwf HwfS Hchk Hvalid Hr erode dilate eroded dilated.
  destruct (erosion_checks_ok _ _ _ _ _ _ _ Hchk) as (HS & _ & Ho & _ & _).
  destruct (erosion_checks_flip _ _ _ _ _ _ _ _ HwfS Hchk Hvalid Hr)
    as (Hchk' & Hvalid' & Hc').
  assert (Hd : dilated
               = _binary_erosion (B := bool) fuel input (Some (flip_all S))
                   iterations mask OutNone border_value (Sequence o') true
                   brute_force).
  { unfold dilated. rewrite HS in Hr |- *.
    by apply (binary_dilation_unfold _ _ _ _ _ _ _ _ o o'). }
  pose proof (wf_flip_all S) as HwfS'.
  repeat apply conj.
  - intros Hit Hf. split.
    + by apply (driver_count input structure mask border_value origin false
                  iterations S o cit).
    + rewrite Hd.
      by apply (driver_count input (Some (flip_all S)) mask border_value
                  (Sequence o') true iterations (flip_all S) o' cit).
  - intros Hit. split; intros res Hres.
    + by apply (driver_fixed input structure mask border_value origin false
                  iterations S o cit Hwf HwfS Hchk Hvalid fuel brute_force).
    + rewrite Hd in Hres.
      by apply (driver_fixed input (Some (flip_all S)) mask border_value
                  (Sequence o') true iterations (flip_all S) o' cit Hwf HwfS'
                  Hchk' Hvalid' fuel brute_force).
  - intros Hit Hcit Hf. subst cit. split.
    + apply (driver_terminates input structure mask border_value origin false
               iterations S o true Hwf HwfS Hchk fuel brute_force);
        [done| |done].
      by apply (driver_centre_cell input structure mask origin S o true).
    + rewrite Hd.
      by apply (driver_terminates input (Some (flip_all S)) mask border_value
                  (Sequence o') true iterations (flip_all S) o' true Hwf HwfS'
                  Hchk' fuel brute_force).
Qed.

Lemma C3_iterations_witness :
  binary_erosion (B := bool) 4
    (mk_ndarray [5] [true; true; true; true; false]) None 2 None OutNone
    false (Scalar 0%Z) false
  = Some (Ok (mk_erosion_result
                (Some (Nat.iter 2
                         (single_iteration (generate_binary_structure 1 1)
                            None false [0%Z] false)
                         (mk_ndarray [5] [true; true; true; true; false])))
                None)).
Proof.
  apply (C3_iterations (mk_ndarray [5] [true; true; true; true; false]) None
           None false (Scalar 0%Z) 2 false 4 (generate_binary_structure 1 1)
           [0%Z] [0%Z] true);
    (reflexivity || lia || (simpl; lia)).
Defined.

(** C3, the input on which no result is produced: erosion of [[1, 0]] by
    [[1, 0, 1]] with border value 1 and [iterations = 0] passes every
    check and never returns. *)
Lemma C3_counterexample :
  erosion_checks (B := bool) (mk_ndarray [2] [true; false])
    (Some (mk_ndarray [3] [true; false; true])) None OutNone (Scalar 0%Z)
  = Ok (mk_ndarray [3] [true; false; true], [0%Z], false)
  /\ ~ (exists fuel res,
          binary_erosion (B := bool) fuel (mk_ndarray [2] [true; false])
            (Some (mk_ndarray [3] [true; false; true])) 0 None OutNone true
            (Scalar 0%Z) false = Some res).
Proof.
  split; [reflexivity|].
  intros (fuel & res & Hres). by rewrite oscillation_run in Hres.
Qed.

(** ** The worklist branch against the brute-force branch *)

Lemma driver_branches_agree (input : ndarray bool) structure mask bv origin
    inv iterations S o cit fuel :
  wf_array input -> wf_array S ->
  erosion_checks (B := bool) input structure mask OutNone origin
  = Ok (S, o, cit) ->
  getitem S (center (shape S) o) = Some true ->
  Z.to_nat iterations + size (shape input) + 2 <= fuel ->
  exists out,
    _binary_erosion (B := bool) fuel input structure iterations mask OutNone
      bv origin inv false = Some (Ok (mk_erosion_result (Some out) None))
    /\ _binary_erosion (B := bool) fuel input structure iterations mask
         OutNone bv origin inv true
       = Some (Ok (mk_erosion_result (Some out) None)).
Proof.
  intros Hwf HwfS Hchk Hc Hf.
  assert (Hvalid : in_bounds (shape S) (center (shape S) o) = true)
    by (by apply getitem_Some in Hc as [? _]).
  destruct (Z_lt_le_dec iterations 1) as [Hit|Hit].
  - destruct (driver_terminates input structure mask bv origin inv iterations
                S o cit Hwf HwfS Hchk fuel false) as [r1 H1]; [done|done|lia|].
    destruct (driver_terminates input structure mask bv origin inv iterations
                S o cit Hwf HwfS Hchk fuel true) as [r2 H2]; [done|done|lia|].
    destruct (driver_fixed input structure mask bv origin inv iterations S o
                cit Hwf HwfS Hchk Hvalid fuel false r1 Hit H1)
      as (a1 & -> & Hfix1).
    destruct (driver_fixed input structure mask bv origin inv iterations S o
                cit Hwf HwfS Hchk Hvalid fuel true r2 Hit H2)
      as (a2 & -> & Hfix2).
    rewrite (first_fixed_point_unique _ _ _ _ Hfix2 Hfix1) in H2.
    by eexists.
  - eexists. split.
    + apply (driver_count input structure mask bv origin inv iterations S o
               cit); [done|done|done|done|lia].
    + apply (driver_count input structure mask bv origin inv iterations S o
               cit); [done|done|done|done|lia].
Qed.

(** C1: for a well-formed boolean input and a structure whose centre cell
    is on, every origin, border value, mask and iteration count, binary
    erosion and binary dilation return, with [brute_force] unset (the
    coordinate worklist) and with [brute_force] set (the ping-pong
    buffers), one and the same array. *)
Theorem C1_worklist_equals_brute_force (input : ndarray bool)
    (structure : option (ndarray bool)) (mask : option (ndarray bool))
    (border_value : bool) (origin : int_or_seq Z) (iterations : Z)
    (fuel : nat) (S : ndarray bool) (o : list Z) (cit : bool) :
  wf_array input -> wf_array S ->
  erosion_checks (B := bool) input structure mask OutNone origin
  = Ok (S, o, cit) ->
  getitem S (center (shape S) o) = Some true ->
  Z.to_nat iterations + size (shape input) + 2 <= fuel ->
  (exists out,
      binary_erosion (B := bool) fuel input structure iterations mask OutNone
        border_value origin false
      = Some (Ok (mk_erosion_result (Some out) None))
      /\ binary_erosion (B := bool) fuel input structure iterations mask
           OutNone border_value origin true
         = Some (Ok (mk_erosion_result (Some out) None)))
  /\ (exists out,
         binary_dilation (B := bool) fuel input structure iterations mask
           OutNone border_value origin false
         = Some (Ok (mk_erosion_result (Some out) None))
         /\ binary_dilation (B := bool) fuel input structure iterations mask
              OutNone border_value origin true
            = Some (Ok (mk_erosion_result (Some out) None))).
Proof.
  intros Hwf HwfS Hchk Hc Hf.
  assert (Hvalid : in_bounds (shape S) (center (shape S) o) = true)
    by (by apply getitem_Some in Hc as [? _]).
  assert (Hcit : cit = true).
  { pose proof (driver_centre_cell input structure mask origin S o cit Hchk
                  Hvalid) as Hc2. congruence. }
  subst cit.
  split.
  - destruct (driver_branches_agree input structure mask border_value origin
                false iterations S o true fuel Hwf HwfS Hchk Hc Hf)
      as (out & H1 & H2).
    by exists out.
  - destruct (erosion_checks_ok _ _ _ _ _ _ _ Hchk)
      as (HS & HrS & Ho & Hlo & _).
    destruct (reflect_origin_ok (shape S) o) as (o' & Hr & _); [lia|].
    destruct (erosion_checks_flip _ _ _ _ _ _ _ _ HwfS Hchk Hvalid Hr)
      as (Hchk' & Hvalid' & Hc').
    assert (Hd : forall brute_force,
               binary_dilation (B := bool) fuel input structure iterations
                 mask OutNone border_value origin brute_force
               = _binary_erosion (B := bool) fuel input (Some (flip_all S))
                   iterations mask OutNone border_value (Sequence o') true
                   brute_force).
    { intros brute_force. rewrite HS in Hr |- *.
      by apply (binary_dilation_unfold _ _ _ _ _ _ _ _ o o'). }
    destruct (driver_branches_agree input (Some (flip_all S)) mask
                border_value (Sequence o') true iterations (flip_all S) o'
                true fuel Hwf (wf_flip_all S) Hchk' Hc' Hf)
      as (out & H1 & H2).
    exists out. by rewrite !Hd.
Qed.

Lemma C1_worklist_equals_brute_force_witness :
  exists out,
    binary_erosion (B := bool) 9
      (mk_ndarray [5] [true; true; true; true; false]) None 0 None OutNone
      false (Scalar 0%Z) false
    = Some (Ok (mk_erosion_result (Some out) None))
    /\ binary_erosion (B := bool) 9
         (mk_ndarray [5] [true; true; true; true; false]) None 0 None OutNone
         false (Scalar 0%Z) true
       = Some (Ok (mk_erosion_result (Some out) None)).
Proof.
  apply (C1_worklist_equals_brute_force
           (mk_ndarray [5] [true; true; true; true; false]) None None false
           (Scalar 0%Z) 0 9 (generate_binary_structure 1 1) [0%Z] true);
    (reflexivity || (simpl; lia)).
Defined.

(** ** The brute-force distance transform marks the background frontier *)

Lemma In_unit_cube r v :
  In v (unit_cube r) <->
  length v = r /\ Forall (fun x => (-1 <= x <= 1)%Z) v.
Proof.
  revert v; induction r as [|r IH]; intros v; simpl.
  - split.
    + intros [<-|[]]. by split.
    + intros [Hl _]. left. by destruct v.
  - rewrite !in_app_iff, !in_map_iff. split.
    + intros [(w & <- & Hw)|[(w & <- & Hw)|[(w & <- & Hw)|[]]]];
        apply IH in Hw as [Hl Hall]; (split; [simpl; lia|]);
        constructor; (lia || done).
    + intros [Hl Hall]. destruct v as [|x w]; [done|].
      apply Forall_cons in Hall as [Hx Hall]. injection Hl as Hl.
      assert (Hw : In w (unit_cube r)) by (by apply IH).
      assert (Hcases : x = (-1)%Z \/ x = 0%Z \/ x = 1%Z) by lia.
      destruct Hcases as [-> | [-> | ->]];
        [left|right; left|right; right; left]; by exists w.
Qed.

Lemma size_pos_full r : 0 < size (replicate r 3).
Proof. induction r as [|r IH]; simpl; lia. Qed.

Lemma in_bounds_full r c :
  in_bounds (replicate r 3) c = true <->
  length c = r /\ Forall (fun x => (0 <= x <= 2)%Z) c.
Proof.
  revert c; induction r as [|r IH]; intros [|x xs]; simpl.
  - split; [intros _; by split|done].
  - split; [done|]. by intros [? _].
  - split; [done|]. by intros [? _].
  - rewrite andb_true_iff, andb_true_iff, IH, Z.leb_le, Z.ltb_lt.
    rewrite Forall_cons. split.
    + intros [[? ?] [? ?]]. repeat split; (lia || done).
    + intros [[= ?] [? ?]]. repeat split; (lia || done).
Qed.

Lemma map_seq_replicate {X} (f : nat -> X) x n :
  (forall i, i < n -> f i = x) -> map f (seq 0 n) = replicate n x.
Proof.
  intros Hf. apply list_eq. intros i.
  rewrite list_lookup_fmap. destruct (decide (i < n)) as [Hi|Hi].
  - rewrite lookup_seq_lt, lookup_replicate_2 by done. simpl.
    by rewrite Hf.
  - rewrite lookup_seq_ge, lookup_ge_None_2 by (rewrite ?length_replicate; lia).
    done.
Qed.

(** At connectivity [rank] every cell of the structure is on. *)
Lemma full_structure r :
  generate_binary_structure r (Z.of_nat r)
  = mk_ndarray (replicate r 3) (replicate (size (replicate r 3)) true).
Proof.
  unfold generate_binary_structure. destruct r as [|r]; [done|].
  change (Datatypes.S r <? 1) with false. cbv iota.
  f_equal. apply map_seq_replicate. intros i Hi.
  replace (if (Z.of_nat (Datatypes.S r) <? 1)%Z then 1%Z
           else Z.of_nat (Datatypes.S r)) with (Z.of_nat (Datatypes.S r))
    by (destruct (Z.ltb_spec (Z.of_nat (Datatypes.S r)) 1); [lia|done]).
  apply Z.leb_le.
  pose proof (in_bounds_unravel _ _ Hi) as Hb.
  apply in_bounds_full in Hb as [Hl Hall]. revert Hl Hall.
  generalize (unravel (replicate (Datatypes.S r) 3) i). intros c <- Hall.
  clear -Hall. induction Hall as [|x xs Hx Hall IH]; simpl; [lia|].
  rewrite Nat2Z.inj_succ. lia.
Qed.

Lemma nth_replicate_true n k : nth k (replicate n true) true = true.
Proof.
  revert k; induction n as [|n IH]; intros [|k]; simpl; try done.
Qed.

Lemma flip_all_full shp :
  flip_all (mk_ndarray shp (replicate (size shp) true))
  = mk_ndarray shp (replicate (size shp) true).
Proof.
  unfold flip_all. simpl. f_equal. apply map_seq_replicate.
  intros i _. apply nth_replicate_true.
Qed.

Lemma center_full r : center (replicate r 3) (replicate r 0%Z) = replicate r 1%Z.
Proof.
  unfold center. induction r as [|r IH]; [done|].
  cbn [replicate zip_with]. by rewrite IH.
Qed.

Lemma reflect_origin_full r :
  reflect_origin (replicate r 3) (replicate r 0%Z) = Ok (replicate r 0%Z).
Proof. induction r as [|r IH]; [done|]. simpl. by rewrite IH. Qed.

Lemma offsets_full r v :
  In v (offsets (mk_ndarray (replicate r 3)
                   (replicate (size (replicate r 3)) true))
          (replicate r 0%Z))
  <-> In v (unit_cube r).
Proof.
  rewrite In_offsets, In_unit_cube. cbn [shape data].
  rewrite center_full. split.
  - intros (i & Hi & _ & ->).
    pose proof (in_bounds_unravel _ _ Hi) as Hb.
    apply in_bounds_full in Hb as [Hl Hall].
    revert Hl Hall. generalize (unravel (replicate r 3) i). clear.
    intros c. revert c. induction r as [|r IH]; intros [|x xs]; simpl;
      try done.
    intros [= Hl] [Hx Hall]%Forall_cons.
    destruct (IH xs Hl Hall) as [Hl' Hall']. unfold vsub in *.
    split; [by rewrite Hl'|]. constructor; [lia|done].
  - intros [Hl Hall].
    set (c := map (fun x => (x + 1)%Z) v).
    assert (Hb : in_bounds (replicate r 3) c = true).
    { apply in_bounds_full. unfold c. rewrite length_map. split; [done|].
      apply Forall_fmap. eapply Forall_impl; [exact Hall|].
      simpl. intros x Hx. lia. }
    exists (ravel (replicate r 3) c). split; [by apply ravel_lt|]. split.
    + rewrite nth_lookup, lookup_replicate_2 by (by apply ravel_lt). done.
    + rewrite unravel_ravel by done. unfold c. clear -Hl.
      revert v Hl; induction r as [|r IH]; intros [|x xs]; simpl; try done.
      intros [= Hl]. unfold vsub in *. rewrite <- (IH xs Hl). f_equal. lia.
Qed.

Lemma existsb_same {X} (f : X -> bool) l1 l2 :
  (forall x, In x l1 <-> In x l2) -> existsb f l1 = existsb f l2.
Proof.
  intros Hl. apply eq_true_iff_eq. rewrite !existsb_exists.
  split; intros (x & Hx & Hf); exists x; (split; [by apply Hl|done]).
Qed.

Lemma negb_forallb_negb {X} (f : X -> bool) l :
  negb (forallb (fun x => negb (f x)) l) = existsb f l.
Proof.
  induction l as [|x l IH]; simpl; [done|].
  rewrite negb_andb, negb_involutive. by rewrite IH.
Qed.

Lemma value_at_not_equal_zero {A} `{Dtype A} (input : ndarray A) j :
  value_at (data (not_equal_zero input)) j = value_at (data input) j.
Proof.
  unfold value_at, not_equal_zero. simpl. rewrite list_lookup_fmap.
  by destruct (data input !! j).
Qed.

Lemma vadd_zero c r : length c = r -> vadd c (replicate r 0%Z) = c.
Proof.
  revert c; induction r as [|r IH]; intros [|x xs]; simpl; try done.
  intros [= Hl]. unfold vadd in *. rewrite (IH xs Hl). f_equal. lia.
Qed.

(** The dilation of the foreground by the full structure, cell by cell. *)
Lemma dilation_full_cell {A} `{Dtype A} (input : ndarray A) i :
  i < size (shape input) ->
  erode_point (not_equal_zero input)
    (offsets (mk_ndarray (replicate (ndim input) 3)
                (replicate (size (replicate (ndim input) 3)) true))
       (replicate (ndim input) 0%Z)) None false true i
  = touches_foreground input i.
Proof.
  intros Hi. unfold erode_point, touches_foreground. simpl.
  change (negb (forallb
                  (fun o => negb (effective_value (not_equal_zero input) false
                                    (vadd (unravel (shape input) i) o)))
                  (offsets (mk_ndarray (replicate (ndim input) 3)
                              (replicate (size (replicate (ndim input) 3))
                                 true))
                     (replicate (ndim input) 0%Z)))
          = existsb (fun v =>
                       in_bounds (shape input)
                         (vadd (unravel (shape input) i) v)
                       && value_at (data input)
                            (ravel (shape input)
                               (vadd (unravel (shape input) i) v)))
              (unit_cube (ndim input))).
  rewrite negb_forallb_negb.
  rewrite (existsb_same _ _ (unit_cube (ndim input)))
    by (intros v; apply offsets_full).
  induction (unit_cube (ndim input)) as [|v l IH]; simpl; [done|].
  rewrite IH. f_equal. unfold effective_value.
  change (shape (not_equal_zero input)) with (shape input).
  rewrite value_at_not_equal_zero.
  by destruct (in_bounds _ _).
Qed.

Lemma foreground_touches {A} `{Dtype A} (input : ndarray A) i :
  i < size (shape input) ->
  value_at (data input) i = true -> touches_foreground input i = true.
Proof.
  intros Hi Hv. unfold touches_foreground. apply existsb_exists.
  exists (replicate (ndim input) 0%Z). split.
  - apply In_unit_cube. rewrite length_replicate. split; [done|].
    apply Forall_replicate. lia.
  - simpl. rewrite vadd_zero by apply length_unravel.
    rewrite in_bounds_unravel, ravel_unravel by done. by rewrite Hv.
Qed.

Lemma checks_full {A} `{Dtype A} (input : ndarray A) :
  erosion_checks (B := bool) (not_equal_zero input)
    (Some (mk_ndarray (replicate (ndim input) 3)
             (replicate (size (replicate (ndim input) 3)) true)))
    None OutNone (Sequence (replicate (ndim input) 0%Z))
  = Ok (mk_ndarray (replicate (ndim input) 3)
          (replicate (size (replicate (ndim input) 3)) true),
        replicate (ndim input) 0%Z, true).
Proof.
  unfold erosion_checks. simpl.
  change (ndim (not_equal_zero input)) with (ndim input).
  unfold ndim at 1. simpl. rewrite length_replicate, Nat.eqb_refl. simpl.
  pose proof (size_pos_full (ndim input)) as Hpos.
  destruct (Nat.ltb_spec (size (replicate (ndim input) 3)) 1); [lia|].
  destruct (decide (length (replicate (ndim input) 0%Z) = ndim input))
    as [_|Hn]; [|by rewrite length_replicate in Hn].
  simpl. unfold _center_is_true. simpl. rewrite center_full.
  assert (Hb : in_bounds (replicate (ndim input) 3)
                 (replicate (ndim input) 1%Z) = true).
  { apply in_bounds_full. rewrite length_replicate. split; [done|].
    apply Forall_replicate. lia. }
  rewrite normalize_coor_in_bounds by done.
  rewrite lookup_replicate_2 by (by apply ravel_lt). done.
Qed.

(** C4 (as the code has it): the working array that the brute-force
    distance transform hands to the scan holds 1 on the foreground, -1 on
    the background cells that have a foreground cell in their full
    neighbourhood (the dilation of the foreground by the structure of
    connectivity [rank], minus the foreground), and 0 on the other
    cells. *)
Theorem C4_working_array {A} `{Dtype A} (input : ndarray A) :
  wf_array input ->
  bf_working_array input
  = Some (Ok (mk_ndarray (shape input)
                (map (working_value input) (seq 0 (size (shape input)))))).
Proof.
  intros Hwf. unfold bf_working_array.
  change (ndim (not_equal_zero input)) with (ndim input).
  rewrite full_structure.
  set (S := mk_ndarray (replicate (ndim input) 3)
              (replicate (size (replicate (ndim input) 3)) true)).
  rewrite (binary_dilation_unfold 0 (not_equal_zero input) (Some S) 1 None
             false (Scalar 0%Z) false (replicate (ndim input) 0%Z)
             (replicate (ndim input) 0%Z));
    [|done|apply reflect_origin_full].
  unfold S. rewrite flip_all_full. fold S.
  rewrite (binary_erosion_passes _ _ _ _ _ _ _ _ _ S
             (replicate (ndim input) 0%Z) true) by apply checks_full.
  rewrite passes_single by done. rewrite buffer_of_first.
  cbn [return_value]. do 2 f_equal.
  unfold int8_sub, logical_xor, astype_int8. cbn [shape data not_equal_zero].
  f_equal. apply list_eq. intros i.
  rewrite list_lookup_fmap.
  destruct (decide (i < size (shape input))) as [Hi|Hi].
  2:{ rewrite lookup_seq_ge by lia. simpl. apply lookup_ge_None_2.
      rewrite length_zip_with, !length_map. unfold wf_array in Hwf. lia. }
  rewrite lookup_seq_lt by done. simpl.
  rewrite lookup_zip_with, !list_lookup_fmap, lookup_zip_with.
  rewrite list_lookup_fmap.
  rewrite erode_data_lookup by done.
  change (mk_ndarray (shape input) (map nonzero (data input)))
    with (not_equal_zero input).
  unfold S. rewrite dilation_full_cell by done.
  unfold working_value.
  pose proof (foreground_touches input i Hi) as Ht.
  unfold value_at in *.
  destruct (data input !! i) as [x|] eqn:Hx.
  2:{ apply lookup_ge_None_1 in Hx. unfold wf_array in Hwf. lia. }
  simpl. destruct (nonzero x); simpl.
  - by rewrite Ht.
  - by destruct (touches_foreground input i).
Qed.

Lemma C4_working_array_witness :
  bf_working_array (mk_ndarray [5] [0; 7; 1; 1; 0]%Z)
  = Some (Ok (mk_ndarray [5]
                (map (working_value (mk_ndarray [5] [0; 7; 1; 1; 0]%Z))
                   (seq 0 5)))).
Proof.
  apply (C4_working_array (mk_ndarray [5] [0; 7; 1; 1; 0]%Z)).
  reflexivity.
Defined.

(** C4, an input on which the marked cells are not the boundary set: in
    [[0, 1, 1, 1, 0]] the foreground cells 1 and 3 have a background
    neighbour; the working array gives them the value 1 of the inner
    foreground cell 2 and marks the background cells 0 and 4. *)
Lemma C4_counterexample :
  spec_boundary_set (mk_ndarray [5] [0; 1; 1; 1; 0]%Z)
  = mk_ndarray [5] [false; true; false; true; false]
  /\ bf_working_array (mk_ndarray [5] [0; 1; 1; 1; 0]%Z)
     = Some (Ok (mk_ndarray [5] [-1; 1; 1; 1; -1]%Z)).
Proof. split; reflexivity. Qed.

(** * Further properties of the module *)

(** ** The structures of [generate_binary_structure] *)

Lemma abs_flip_full r c :
  in_bounds (replicate r 3) c = true ->
  map (fun x => Z.abs (x - 1)) (flip_coord (replicate r 3) c)
  = map (fun x => Z.abs (x - 1)) c.
Proof.
  revert c; induction r as [|r IH]; intros [|x xs]; simpl; try done.
  intros Hb. apply andb_prop in Hb as [_ Hb]. unfold flip_coord in *.
  rewrite (IH xs Hb). f_equal. lia.
Qed.

Lemma wf_generate_binary_structure rank connectivity :
  wf_array (generate_binary_structure rank connectivity).
Proof.
  unfold wf_array, generate_binary_structure.
  destruct (rank <? 1); [done|]. simpl. by rewrite length_map, length_seq.
Qed.

Lemma flip_all_palindrome {X} `{Inhabited X} (a : ndarray X) :
  wf_array a -> reverse (data a) = data a -> flip_all a = a.
Proof.
  intros Hwf Hrev. pose proof (flip_all_reverse a Hwf) as Hd.
  pose proof (shape_flip_all a) as Hs.
  destruct (flip_all a) as [shp d], a as [shp0 d0]. simpl in *.
  by rewrite Hs, Hd, Hrev.
Qed.

(** [generate_binary_structure] is symmetric about its centre: reversing
    every axis gives the same structure, so that a dilation by it uses the
    structure itself. *)
Theorem generate_binary_structure_symmetric rank connectivity :
  flip_all (generate_binary_structure rank connectivity)
  = generate_binary_structure rank connectivity.
Proof.
  apply flip_all_palindrome; [apply wf_generate_binary_structure|].
  unfold generate_binary_structure.
  destruct (rank <? 1); [done|]. cbn [data].
  apply list_eq. intros i.
  destruct (decide (i < size (replicate rank 3))) as [Hi|Hi].
  2:{ rewrite !lookup_ge_None_2;
        rewrite ?length_reverse, ?length_map, ?length_seq; (done || lia). }
  rewrite reverse_lookup by (rewrite length_map, length_seq; done).
  rewrite length_map, length_seq.
  rewrite !list_lookup_fmap, !lookup_seq_lt by lia.
  cbn [fmap option_fmap option_map Nat.add]. do 2 f_equal.
  pose proof (ravel_flip_coord (replicate rank 3) i Hi) as Hr.
  replace (size (replicate rank 3) - Datatypes.S i)
    with (size (replicate rank 3) - 1 - i) by lia.
  rewrite <- Hr.
  rewrite unravel_ravel
    by (apply in_bounds_flip_coord; by apply in_bounds_unravel).
  f_equal. apply abs_flip_full. by apply in_bounds_unravel.
Qed.

Lemma sum_abs_centre r :
  sum_list_Z (map (fun x => Z.abs (x - 1)) (replicate r 1%Z)) = 0%Z.
Proof. induction r as [|r IH]; simpl; [done|]. by rewrite IH. Qed.

(** The centre cell of every structure of [generate_binary_structure] is
    on, whatever the connectivity: with the default origin, the test
    [_center_is_true] that selects the worklist branch succeeds. *)
Theorem generate_binary_structure_centre rank connectivity :
  _center_is_true (generate_binary_structure rank connectivity)
    (replicate rank 0%Z) = Ok true.
Proof.
  unfold generate_binary_structure.
  destruct rank as [|r]; [done|].
  change (Datatypes.S r <? 1) with false. cbv iota.
  set (rank := Datatypes.S r).
  unfold _center_is_true. cbn [shape data]. rewrite center_full.
  assert (Hb : in_bounds (replicate rank 3) (replicate rank 1%Z) = true).
  { apply in_bounds_full. rewrite length_replicate. split; [done|].
    apply Forall_replicate. lia. }
  rewrite normalize_coor_in_bounds by done.
  rewrite list_lookup_fmap, lookup_seq_lt by (by apply ravel_lt).
  cbn [fmap option_fmap option_map Nat.add].
  rewrite unravel_ravel by done. rewrite sum_abs_centre.
  destruct (connectivity <? 1)%Z eqn:Hc; [done|].
  apply Z.ltb_ge in Hc.
  by destruct (Z.leb_spec 0 connectivity); [|lia].
Qed.

(** A connectivity of at least the rank gives the structure with every
    cell on. *)
Theorem generate_binary_structure_full rank connectivity :
  (Z.of_nat rank <= connectivity)%Z ->
  generate_binary_structure rank connectivity
  = mk_ndarray (replicate rank 3) (replicate (size (replicate rank 3)) true).
Proof.
  intros Hc. unfold generate_binary_structure. destruct rank as [|r]; [done|].
  change (Datatypes.S r <? 1) with false. cbv iota.
  f_equal. apply map_seq_replicate. intros i Hi.
  assert (Hk : (if (connectivity <? 1)%Z then 1%Z else connectivity)
               = connectivity)
    by (destruct (Z.ltb_spec connectivity 1); [lia|done]).
  rewrite Hk. apply Z.leb_le.
  pose proof (in_bounds_unravel _ _ Hi) as Hb.
  apply in_bounds_full in Hb as [Hl Hall].
  assert (Hsum : (sum_list_Z
                    (map (fun x => Z.abs (x - 1))
                       (unravel (replicate (Datatypes.S r) 3%nat) i))
                  <= Z.of_nat (Datatypes.S r))%Z).
  { revert Hl Hall.
    generalize (unravel (replicate (Datatypes.S r) 3) i). intros c <- Hall.
    clear -Hall. induction Hall as [|x xs Hx Hall IH]; simpl; [lia|].
    rewrite Nat2Z.inj_succ. lia. }
  lia.
Qed.

Lemma generate_binary_structure_full_witness :
  generate_binary_structure 2 5
  = mk_ndarray (replicate 2 3) (replicate (size (replicate 2 3)) true).
Proof. apply generate_binary_structure_full. simpl. lia. Defined.

(** ** Runs of the drivers as iterates of the single-iteration operator *)

(** Every run of the driver that has enough fuel returns an iterate of
    the single-iteration operator: the [iterations]-th when
    [iterations >= 1], a fixed point otherwise (the centre cell of the
    structure being on). *)
Lemma erosion_run (input : ndarray bool) structure mask bv origin inv
    iterations brute_force fuel S o cit :
  wf_array input -> wf_array S ->
  erosion_checks (B := bool) input structure mask OutNone origin
  = Ok (S, o, cit) ->
  in_bounds (shape S) (center (shape S) o) = true ->
  ((iterations < 1)%Z -> cit = true) ->
  Z.to_nat iterations + size (shape input) + 2 <= fuel ->
  exists k,
    _binary_erosion (B := bool) fuel input structure iterations mask OutNone
      bv origin inv brute_force
    = Some (Ok (mk_erosion_result
                  (Some (Nat.iter k (single_iteration S mask bv o inv) input))
                  None))
    /\ ((1 <= iterations)%Z -> k = Z.to_nat iterations)
    /\ ((iterations < 1)%Z ->
        single_iteration S mask bv o inv
          (Nat.iter k (single_iteration S mask bv o inv) input)
        = Nat.iter k (single_iteration S mask bv o inv) input).
Proof.
  intros Hwf HwfS Hchk Hvalid Hcit Hf.
  destruct (Z_lt_le_dec iterations 1) as [Hit|Hit].
  - specialize (Hcit Hit). subst cit.
    pose proof (driver_centre_cell _ _ _ _ _ _ _ Hchk Hvalid) as Hc.
    destruct (driver_terminates input structure mask bv origin inv iterations
                S o true Hwf HwfS Hchk fuel brute_force) as [res Hres];
      [done|done|lia|].
    destruct (driver_fixed input structure mask bv origin inv iterations S o
                true Hwf HwfS Hchk Hvalid fuel brute_force res Hit Hres)
      as (r & -> & k & -> & Hfix & _).
    exists k. split; [done|]. split; [lia|done].
  - exists (Z.to_nat iterations). split; [|split; [done|lia]].
    apply (driver_count input structure mask bv origin inv iterations S o
             cit); [done|done|done|done|lia].
Qed.

Lemma dilation_run (input : ndarray bool) structure mask bv origin
    iterations brute_force fuel S o o' cit :
  wf_array input -> wf_array S ->
  erosion_checks (B := bool) input structure mask OutNone origin
  = Ok (S, o, cit) ->
  in_bounds (shape S) (center (shape S) o) = true ->
  reflect_origin (shape S) o = Ok o' ->
  ((iterations < 1)%Z -> cit = true) ->
  Z.to_nat iterations + size (shape input) + 2 <= fuel ->
  exists k,
    binary_dilation (B := bool) fuel input structure iterations mask OutNone
      bv origin brute_force
    = Some (Ok (mk_erosion_result
                  (Some (Nat.iter k
                           (single_iteration (flip_all S) mask bv o' true)
                           input)) None))
    /\ ((1 <= iterations)%Z -> k = Z.to_nat iterations)
    /\ ((iterations < 1)%Z ->
        single_iteration (flip_all S) mask bv o' true
          (Nat.iter k (single_iteration (flip_all S) mask bv o' true) input)
        = Nat.iter k (single_iteration (flip_all S) mask bv o' true) input).
Proof.
  intros Hwf HwfS Hchk Hvalid Hr Hcit Hf.
  destruct (erosion_checks_ok _ _ _ _ _ _ _ Hchk) as (HS & _ & Ho & _ & _).
  destruct (erosion_checks_flip _ _ _ _ _ _ _ _ HwfS Hchk Hvalid Hr)
    as (Hchk' & Hvalid' & _).
  rewrite HS in Hr.
  rewrite (binary_dilation_unfold _ _ _ _ _ _ _ _ o o' Ho Hr).
  rewrite <- HS.
  by apply (erosion_run input (Some (flip_all S)) mask bv (Sequence o') true
              iterations brute_force fuel (flip_all S) o' cit Hwf
              (wf_flip_all S)).
Qed.

(** ** Erosion shrinks and dilation grows when the centre is on *)

Lemma single_iteration_shape S mask bv o inv a :
  shape (single_iteration S mask bv o inv a) = shape a.
Proof. done. Qed.

Lemma iter_single_iteration_shape S mask bv o inv a k :
  shape (Nat.iter k (single_iteration S mask bv o inv) a) = shape a.
Proof. induction k as [|k IH]; [done|]. simpl. by rewrite IH. Qed.

Lemma iter_single_iteration_wf S mask bv o inv a k :
  wf_array a -> wf_array (Nat.iter k (single_iteration S mask bv o inv) a).
Proof.
  intros Hwf. destruct k as [|k]; [done|]. simpl.
  unfold wf_array, single_iteration. simpl. apply erode_data_length.
Qed.

Lemma nth_single_iteration S mask bv o inv a i :
  i < size (shape a) ->
  nth i (data (single_iteration S mask bv o inv a)) false
  = erode_point (mk_ndarray (shape a) (data a)) (offsets S o) mask bv inv i.
Proof. intros Hi. unfold single_iteration. simpl. by apply erode_data_nth. Qed.

Lemma nth_beyond {X} (l : list X) i d : length l <= i -> nth i l d = d.
Proof. apply nth_overflow. Qed.

(** One erosion pass with the centre on clears cells only; one dilation
    pass sets cells only. *)
Lemma single_iteration_centre_on S mask bv o inv a i :
  wf_array a ->
  length (shape S) = length (shape a) -> length o = length (shape a) ->
  getitem S (center (shape S) o) = Some true ->
  nth i (data (single_iteration S mask bv o inv a)) false = negb inv ->
  nth i (data a) false = negb inv.
Proof.
  intros Hwf HrS Hro Hc Hv.
  destruct (decide (i < size (shape a))) as [Hi|Hi].
  - rewrite nth_single_iteration in Hv by done.
    apply (pK_shrinks (shape a) (offsets S o) mask bv inv); [|done|done].
    by apply centre_in_offsets.
  - destruct inv; simpl in *.
    + apply nth_beyond. unfold wf_array in Hwf. lia.
    + rewrite nth_beyond in Hv; [done|].
      unfold single_iteration. simpl. rewrite erode_data_length. lia.
Qed.

Lemma iterate_centre_on S mask bv o inv a k i :
  wf_array a ->
  length (shape S) = length (shape a) -> length o = length (shape a) ->
  getitem S (center (shape S) o) = Some true ->
  nth i (data (Nat.iter k (single_iteration S mask bv o inv) a)) false
  = negb inv ->
  nth i (data a) false = negb inv.
Proof.
  intros Hwf HrS Hro Hc. induction k as [|k IH]; [done|].
  intros Hv. apply IH. simpl in Hv.
  apply (single_iteration_centre_on S mask bv o inv) in Hv; try done.
  - by apply iter_single_iteration_wf.
  - by rewrite iter_single_iteration_shape.
  - by rewrite iter_single_iteration_shape.
Qed.

(** Binary erosion by a structure whose centre cell is on is
    anti-extensive: for every iteration count, mask and border value the
    result has the shape of the input and is included in it. *)
Theorem binary_erosion_anti_extensive (input : ndarray bool) structure mask
    border_value origin iterations brute_force fuel S o cit :
  wf_array input -> wf_array S ->
  erosion_checks (B := bool) input structure mask OutNone origin
  = Ok (S, o, cit) ->
  getitem S (center (shape S) o) = Some true ->
  Z.to_nat iterations + size (shape input) + 2 <= fuel ->
  exists out,
    binary_erosion (B := bool) fuel input structure iterations mask OutNone
      border_value origin brute_force
    = Some (Ok (mk_erosion_result (Some out) None))
    /\ shape out = shape input
    /\ included out input.
Proof.
  intros Hwf HwfS Hchk Hc Hf.
  assert (Hvalid : in_bounds (shape S) (center (shape S) o) = true)
    by (by apply getitem_Some in Hc as [? _]).
  assert (Hcit : cit = true).
  { pose proof (driver_centre_cell _ _ _ _ _ _ _ Hchk Hvalid). congruence. }
  destruct (erosion_checks_ok _ _ _ _ _ _ _ Hchk) as (_ & HrS & _ & Hro & _).
  destruct (erosion_run input structure mask border_value origin false
              iterations brute_force fuel S o cit Hwf HwfS Hchk Hvalid
              (fun _ => Hcit) Hf) as (k & Hrun & _).
  eexists. split; [exact Hrun|]. split.
  - apply iter_single_iteration_shape.
  - intros i Hi.
    by apply (iterate_centre_on S mask border_value o false input k i).
Qed.

Lemma binary_erosion_anti_extensive_witness :
  exists out,
    binary_erosion (B := bool) 9
      (mk_ndarray [5] [true; true; true; false; true]) None 2 None OutNone
      false (Scalar 0%Z) false
    = Some (Ok (mk_erosion_result (Some out) None))
    /\ shape out = [5]
    /\ included out (mk_ndarray [5] [true; true; true; false; true]).
Proof.
  apply (binary_erosion_anti_extensive
           (mk_ndarray [5] [true; true; true; false; true]) None None false
           (Scalar 0%Z) 2 false 9 (generate_binary_structure 1 1) [0%Z] true);
    (reflexivity || (simpl; lia)).
Defined.

(** Binary dilation by a structure whose centre cell is on is extensive:
    for every iteration count, mask and border value the result has the
    shape of the input and includes it. *)
Theorem binary_dilation_extensive (input : ndarray bool) structure mask
    border_value origin iterations brute_force fuel S o cit :
  wf_array input -> wf_array S ->
  erosion_checks (B := bool) input structure mask OutNone origin
  = Ok (S, o, cit) ->
  getitem S (center (shape S) o) = Some true ->
  Z.to_nat iterations + size (shape input) + 2 <= fuel ->
  exists out,
    binary_dilation (B := bool) fuel input structure iterations mask OutNone
      border_value origin brute_force
    = Some (Ok (mk_erosion_result (Some out) None))
    /\ shape out = shape input
    /\ included input out.
Proof.
  intros Hwf HwfS Hchk Hc Hf.
  assert (Hvalid : in_bounds (shape S) (center (shape S) o) = true)
    by (by apply getitem_Some in Hc as [? _]).
  assert (Hcit : cit = true).
  { pose proof (driver_centre_cell _ _ _ _ _ _ _ Hchk Hvalid). congruence. }
  destruct (erosion_checks_ok _ _ _ _ _ _ _ Hchk) as (_ & HrS & _ & Hro & _).
  destruct (reflect_origin_ok (shape S) o) as (o' & Hr & Hlo'); [lia|].
  destruct (erosion_checks_flip _ _ _ _ _ _ _ _ HwfS Hchk Hvalid Hr)
    as (_ & _ & Hc').
  rewrite Hcit in Hc'.
  destruct (dilation_run input structure mask border_value origin
              iterations brute_force fuel S o o' cit Hwf HwfS Hchk Hvalid Hr
              (fun _ => Hcit) Hf) as (k & Hrun & _).
  eexists. split; [exact Hrun|]. split.
  - apply iter_single_iteration_shape.
  - intros i Hi.
    destruct (nth i (data (Nat.iter k
                (single_iteration (flip_all S) mask border_value o' true)
                input)) false) eqn:Hv; [done|].
    apply (iterate_centre_on (flip_all S) mask border_value o' true input k i)
      in Hv; try done.
    + simpl in Hv. congruence.
    + lia.
Qed.

Lemma binary_dilation_extensive_witness :
  exists out,
    binary_dilation (B := bool) 9
      (mk_ndarray [5] [false; true; false; false; false]) None 0 None OutNone
      false (Scalar 0%Z) false
    = Some (Ok (mk_erosion_result (Some out) None))
    /\ shape out = [5]
    /\ included (mk_ndarray [5] [false; true; false; false; false]) out.
Proof.
  apply (binary_dilation_extensive
           (mk_ndarray [5] [false; true; false; false; false]) None None
           false (Scalar 0%Z) 0 false 9 (generate_binary_structure 1 1)
           [0%Z] true);
    (reflexivity || (simpl; lia)).
Defined.

(** ** Monotonicity *)

Lemma erosion_checks_shape (a b : ndarray bool) structure mask origin :
  shape a = shape b ->
  erosion_checks (B := bool) a structure mask OutNone origin
  = erosion_checks (B := bool) b structure mask OutNone origin.
Proof. intros Hs. unfold erosion_checks, ndim. by rewrite Hs. Qed.

Lemma effective_value_mono (a b : ndarray bool) bv c :
  shape a = shape b -> included a b ->
  effective_value a bv c = true -> effective_value b bv c = true.
Proof.
  intros Hs Hab. unfold effective_value. rewrite <- Hs.
  destruct (in_bounds (shape a) c); [|done].
  rewrite !value_at_bool. apply Hab.
Qed.

Lemma erode_point_mono (a b : ndarray bool) offs mask bv inv i :
  shape a = shape b -> included a b ->
  erode_point a offs mask bv inv i = true ->
  erode_point b offs mask bv inv i = true.
Proof.
  intros Hs Hab. unfold erode_point. rewrite <- Hs.
  destruct (mask_at mask i).
  2:{ rewrite !value_at_bool. apply Hab. }
  destruct inv; cbn [xorb].
  - change (negb (forallb (fun o => negb (effective_value a bv
                                            (vadd (unravel (shape a) i) o)))
                    offs) = true
            -> negb (forallb (fun o => negb (effective_value b bv
                                               (vadd (unravel (shape a) i) o)))
                       offs) = true).
    rewrite !negb_forallb_negb, !existsb_exists.
    intros (o & Ho & E). exists o. split; [done|].
    by apply (effective_value_mono a b).
  - rewrite !forallb_forall. intros Hall o Ho. specialize (Hall o Ho).
    destruct (effective_value a bv (vadd (unravel (shape a) i) o)) eqn:E;
      [|done].
    apply (effective_value_mono a b) in E; [|done|done]. by rewrite E.
Qed.

Lemma single_iteration_mono S mask bv o inv (a b : ndarray bool) :
  shape a = shape b -> included a b ->
  included (single_iteration S mask bv o inv a)
    (single_iteration S mask bv o inv b).
Proof.
  intros Hs Hab i Hi.
  destruct (decide (i < size (shape a))) as [Hlt|Hge].
  - rewrite nth_single_iteration in Hi by done.
    rewrite nth_single_iteration by (by rewrite <- Hs).
    revert Hi. apply erode_point_mono; [done|]. intros j. apply Hab.
  - rewrite nth_beyond in Hi; [done|].
    unfold single_iteration. simpl. rewrite erode_data_length. lia.
Qed.

Lemma iterate_mono S mask bv o inv (a b : ndarray bool) k :
  shape a = shape b -> included a b ->
  included (Nat.iter k (single_iteration S mask bv o inv) a)
    (Nat.iter k (single_iteration S mask bv o inv) b).
Proof.
  intros Hs Hab. induction k as [|k IH]; [done|]. simpl.
  apply single_iteration_mono; [|done].
  by rewrite !iter_single_iteration_shape.
Qed.

Lemma iter_stable {X} (f : X -> X) k j x :
  f (Nat.iter k f x) = Nat.iter k f x -> k <= j ->
  Nat.iter j f x = Nat.iter k f x.
Proof.
  intros Hfix Hle. replace j with ((j - k) + k) by lia.
  rewrite Nat.iter_add. by apply iter_fixed.
Qed.

(** Two runs on inputs ordered by inclusion give results ordered by
    inclusion. *)
Lemma runs_mono S mask bv o inv (a b : ndarray bool) iterations k1 k2 :
  shape a = shape b -> included a b ->
  ((1 <= iterations)%Z -> k1 = Z.to_nat iterations) ->
  ((1 <= iterations)%Z -> k2 = Z.to_nat iterations) ->
  ((iterations < 1)%Z ->
   single_iteration S mask bv o inv
     (Nat.iter k1 (single_iteration S mask bv o inv) a)
   = Nat.iter k1 (single_iteration S mask bv o inv) a) ->
  ((iterations < 1)%Z ->
   single_iteration S mask bv o inv
     (Nat.iter k2 (single_iteration S mask bv o inv) b)
   = Nat.iter k2 (single_iteration S mask bv o inv) b) ->
  included (Nat.iter k1 (single_iteration S mask bv o inv) a)
    (Nat.iter k2 (single_iteration S mask bv o inv) b).
Proof.
  intros Hs Hab Hn1 Hn2 Hf1 Hf2.
  destruct (Z_lt_le_dec iterations 1) as [Hit|Hit].
  - rewrite <- (iter_stable _ k1 (k1 + k2)) by (by apply Hf1 || lia).
    rewrite <- (iter_stable _ k2 (k1 + k2)) by (by apply Hf2 || lia).
    by apply iterate_mono.
  - rewrite (Hn1 Hit), (Hn2 Hit). by apply iterate_mono.
Qed.

(** Binary erosion and binary dilation are monotone in the input: of two
    inputs of one shape, the one included in the other has its erosion
    included in the other's erosion, and likewise its dilation, for every
    structure (its centre cell being on when [iterations < 1]), mask,
    border value and iteration count. *)
Theorem binary_morphology_monotone (a b : ndarray bool) structure mask
    border_value origin iterations brute_force fuel S o cit :
  wf_array a -> wf_array b -> wf_array S ->
  shape a = shape b -> included a b ->
  erosion_checks (B := bool) a structure mask OutNone origin
  = Ok (S, o, cit) ->
  in_bounds (shape S) (center (shape S) o) = true ->
  ((iterations < 1)%Z -> cit = true) ->
  Z.to_nat iterations + size (shape a) + 2 <= fuel ->
  (exists ea eb,
      binary_erosion (B := bool) fuel a structure iterations mask OutNone
        border_value origin brute_force
      = Some (Ok (mk_erosion_result (Some ea) None))
      /\ binary_erosion (B := bool) fuel b structure iterations mask OutNone
           border_value origin brute_force
         = Some (Ok (mk_erosion_result (Some eb) None))
      /\ included ea eb)
  /\ (exists da db,
         binary_dilation (B := bool) fuel a structure iterations mask OutNone
           border_value origin brute_force
         = Some (Ok (mk_erosion_result (Some da) None))
         /\ binary_dilation (B := bool) fuel b structure iterations mask
              OutNone border_value origin brute_force
            = Some (Ok (mk_erosion_result (Some db) None))
         /\ included da db).
Proof.
  intros Hwfa Hwfb HwfS Hs Hab Hchk Hvalid Hcit Hf.
  pose proof Hchk as Hchkb. rewrite (erosion_checks_shape a b) in Hchkb by done.
  assert (Hfb : Z.to_nat iterations + size (shape b) + 2 <= fuel)
    by (by rewrite <- Hs).
  destruct (erosion_checks_ok _ _ _ _ _ _ _ Hchk) as (_ & HrS & _ & Hro & _).
  destruct (reflect_origin_ok (shape S) o) as (o' & Hr & _); [lia|].
  split.
  - destruct (erosion_run a structure mask border_value origin false
                iterations brute_force fuel S o cit Hwfa HwfS Hchk Hvalid
                Hcit Hf) as (k1 & Hrun1 & Hn1 & Hf1).
    destruct (erosion_run b structure mask border_value origin false
                iterations brute_force fuel S o cit Hwfb HwfS Hchkb Hvalid
                Hcit Hfb) as (k2 & Hrun2 & Hn2 & Hf2).
    do 2 eexists. split; [exact Hrun1|]. split; [exact Hrun2|].
    by apply (runs_mono S mask border_value o false a b iterations).
  - destruct (dilation_run a structure mask border_value origin
                iterations brute_force fuel S o o' cit Hwfa HwfS Hchk Hvalid
                Hr Hcit Hf) as (k1 & Hrun1 & Hn1 & Hf1).
    destruct (dilation_run b structure mask border_value origin
                iterations brute_force fuel S o o' cit Hwfb HwfS Hchkb Hvalid
                Hr Hcit Hfb) as (k2 & Hrun2 & Hn2 & Hf2).
    do 2 eexists. split; [exact Hrun1|]. split; [exact Hrun2|].
    by apply (runs_mono (flip_all S) mask border_value o' true a b
                iterations).
Qed.

Lemma binary_morphology_monotone_witness :
  exists ea eb,
    binary_erosion (B := bool) 9
      (mk_ndarray [5] [false; true; true; true; false]) None 1 None OutNone
      false (Scalar 0%Z) false
    = Some (Ok (mk_erosion_result (Some ea) None))
    /\ binary_erosion (B := bool) 9
         (mk_ndarray [5] [true; true; true; true; false]) None 1 None OutNone
         false (Scalar 0%Z) false
       = Some (Ok (mk_erosion_result (Some eb) None))
    /\ included ea eb.
Proof.
  apply (binary_morphology_monotone
           (mk_ndarray [5] [false; true; true; true; false])
           (mk_ndarray [5] [true; true; true; true; false]) None None false
           (Scalar 0%Z) 1 false 9 (generate_binary_structure 1 1) [0%Z] true);
    try (reflexivity || (simpl; lia)).
  intros [|[|[|[|[|i]]]]]; simpl; done.
Defined.

(** ** Composition of runs *)

(** Running [n] iterations and then [m] iterations on the result is
    running [n + m] iterations, for erosion and for dilation. *)
Theorem binary_morphology_iterations_add (input : ndarray bool) structure
    mask border_value origin n m brute_force fuel S o cit :
  wf_array input -> wf_array S ->
  erosion_checks (B := bool) input structure mask OutNone origin
  = Ok (S, o, cit) ->
  in_bounds (shape S) (center (shape S) o) = true ->
  (1 <= n)%Z -> (1 <= m)%Z -> Z.to_nat (n + m) <= fuel ->
  (exists mid out,
      binary_erosion (B := bool) fuel input structure n mask OutNone
        border_value origin brute_force
      = Some (Ok (mk_erosion_result (Some mid) None))
      /\ binary_erosion (B := bool) fuel mid structure m mask OutNone
           border_value origin brute_force
         = Some (Ok (mk_erosion_result (Some out) None))
      /\ binary_erosion (B := bool) fuel input structure (n + m) mask OutNone
           border_value origin brute_force
         = Some (Ok (mk_erosion_result (Some out) None)))
  /\ (exists mid out,
         binary_dilation (B := bool) fuel input structure n mask OutNone
           border_value origin brute_force
         = Some (Ok (mk_erosion_result (Some mid) None))
         /\ binary_dilation (B := bool) fuel mid structure m mask OutNone
              border_value origin brute_force
            = Some (Ok (mk_erosion_result (Some out) None))
         /\ binary_dilation (B := bool) fuel input structure (n + m) mask
              OutNone border_value origin brute_force
            = Some (Ok (mk_erosion_result (Some out) None))).
Proof.
  intros Hwf HwfS Hchk Hvalid Hn Hm Hf.
  destruct (erosion_checks_ok _ _ _ _ _ _ _ Hchk)
    as (HS & HrS & Ho & Hro & _).
  destruct (reflect_origin_ok (shape S) o) as (o' & Hr & _); [lia|].
  destruct (erosion_checks_flip _ _ _ _ _ _ _ _ HwfS Hchk Hvalid Hr)
    as (Hchk' & Hvalid' & _).
  assert (Hadd : Z.to_nat (n + m) = Z.to_nat m + Z.to_nat n) by lia.
  split.
  - set (f := single_iteration S mask border_value o false).
    exists (Nat.iter (Z.to_nat n) f input).
    exists (Nat.iter (Z.to_nat m) f (Nat.iter (Z.to_nat n) f input)).
    repeat split.
    + apply (driver_count input structure mask border_value origin false n S
               o cit); [done|done|done|done|lia].
    + apply (driver_count _ structure mask border_value origin false m S o
               cit); [done| |done|done|lia].
      rewrite <- Hchk. apply erosion_checks_shape.
      apply iter_single_iteration_shape.
    + rewrite <- Nat.iter_add, <- Hadd.
      apply (driver_count input structure mask border_value origin false
               (n + m) S o cit); [done|done|done|lia|lia].
  - set (f := single_iteration (flip_all S) mask border_value o' true).
    assert (Hd : forall (x : ndarray bool) k,
               shape x = shape input ->
               binary_dilation (B := bool) fuel x structure k mask OutNone
                 border_value origin brute_force
               = _binary_erosion (B := bool) fuel x (Some (flip_all S)) k
                   mask OutNone border_value (Sequence o') true brute_force).
    { intros x k Hx.
      assert (Hnd : ndim x = ndim input) by (unfold ndim; by rewrite Hx).
      rewrite HS at 1. rewrite <- Hnd.
      apply (binary_dilation_unfold _ _ _ _ _ _ _ _ o o').
      - by rewrite Hnd.
      - rewrite Hnd. by rewrite <- HS. }
    exists (Nat.iter (Z.to_nat n) f input).
    exists (Nat.iter (Z.to_nat m) f (Nat.iter (Z.to_nat n) f input)).
    repeat split.
    + rewrite Hd by done.
      apply (driver_count input _ mask border_value _ true n (flip_all S) o'
               cit); [apply wf_flip_all|done|done|done|lia].
    + rewrite Hd by apply iter_single_iteration_shape.
      apply (driver_count _ _ mask border_value _ true m (flip_all S) o'
               cit); [apply wf_flip_all| |done|done|lia].
      rewrite <- Hchk'. apply erosion_checks_shape.
      apply iter_single_iteration_shape.
    + rewrite Hd by done. rewrite <- Nat.iter_add, <- Hadd.
      apply (driver_count input _ mask border_value _ true (n + m)
               (flip_all S) o' cit); [apply wf_flip_all|done|done|lia|lia].
Qed.

Lemma binary_morphology_iterations_add_witness :
  exists mid out,
    binary_erosion (B := bool) 3
      (mk_ndarray [7] [true; true; true; true; true; true; true]) None 1 None
      OutNone false (Scalar 0%Z) false
    = Some (Ok (mk_erosion_result (Some mid) None))
    /\ binary_erosion (B := bool) 3 mid None 2 None OutNone false
         (Scalar 0%Z) false
       = Some (Ok (mk_erosion_result (Some out) None))
    /\ binary_erosion (B := bool) 3
         (mk_ndarray [7] [true; true; true; true; true; true; true]) None
         (1 + 2) None OutNone false (Scalar 0%Z) false
       = Some (Ok (mk_erosion_result (Some out) None)).
Proof.
  apply (binary_morphology_iterations_add
           (mk_ndarray [7] [true; true; true; true; true; true; true]) None
           None false (Scalar 0%Z) 1 2 false 3
           (generate_binary_structure 1 1) [0%Z] true);
    (reflexivity || (simpl; lia)).
Defined.

(** ** Duality of dilation and erosion for every iteration count *)

Lemma logical_not_involutive (a : ndarray bool) :
  logical_not (logical_not a) = a.
Proof.
  destruct a as [shp d]. unfold logical_not. simpl. f_equal.
  rewrite map_map. rewrite <- (map_id d) at 2. apply map_ext.
  intros x. apply negb_involutive.
Qed.

Lemma wf_logical_not (a : ndarray bool) : wf_array a -> wf_array (logical_not a).
Proof. unfold wf_array, logical_not. simpl. by rewrite length_map. Qed.

Lemma single_iteration_dual S mask bv o (a : ndarray bool) :
  wf_array a ->
  single_iteration S mask bv o true a
  = logical_not (single_iteration S mask (negb bv) o false (logical_not a)).
Proof.
  intros Hwf. unfold single_iteration, logical_not at 1.
  cbn [shape data nonzero bool_dtype]. f_equal.
  unfold erode_data. rewrite map_map. apply map_ext_in. intros i Hi.
  apply in_seq in Hi.
  change (mk_ndarray (shape (logical_not a)) (data (logical_not a)))
    with (logical_not a).
  replace (mk_ndarray (shape a) (data a)) with a by (by destruct a).
  change (shape (logical_not a)) with (shape a) in Hi.
  apply erode_point_dual; [done|lia].
Qed.

Lemma iterate_dual S mask bv o (a : ndarray bool) k :
  wf_array a ->
  Nat.iter k (single_iteration S mask bv o true) a
  = logical_not
      (Nat.iter k (single_iteration S mask (negb bv) o false) (logical_not a)).
Proof.
  intros Hwf. induction k as [|k IH]; simpl.
  - by rewrite logical_not_involutive.
  - rewrite single_iteration_dual by (by apply iter_single_iteration_wf).
    by rewrite IH, logical_not_involutive.
Qed.

(** For every iteration count, the dilation of an array is the
    complement of the erosion of the complemented array by the reflected
    structure, with the negated origin and the complemented border
    value. *)
Theorem dilation_erosion_duality_iterated (input : ndarray bool) structure
    mask border_value origin iterations brute_force fuel S o o' cit :
  wf_array input -> wf_array S ->
  erosion_checks (B := bool) input structure mask OutNone origin
  = Ok (S, o, cit) ->
  in_bounds (shape S) (center (shape S) o) = true ->
  reflect_origin (shape S) o = Ok o' ->
  ((iterations < 1)%Z -> cit = true) ->
  Z.to_nat iterations + size (shape input) + 2 <= fuel ->
  exists out,
    binary_dilation (B := bool) fuel input structure iterations mask OutNone
      border_value origin brute_force
    = Some (Ok (mk_erosion_result (Some (logical_not out)) None))
    /\ binary_erosion (B := bool) fuel (logical_not input)
         (Some (flip_all S)) iterations mask OutNone (negb border_value)
         (Sequence o') brute_force
       = Some (Ok (mk_erosion_result (Some out) None)).
Proof.
  intros Hwf HwfS Hchk Hvalid Hr Hcit Hf.
  destruct (erosion_checks_flip _ _ _ _ _ _ _ _ HwfS Hchk Hvalid Hr)
    as (Hchk' & Hvalid' & _).
  destruct (dilation_run input structure mask border_value origin
              iterations brute_force fuel S o o' cit Hwf HwfS Hchk Hvalid Hr
              Hcit Hf) as (k1 & Hrun1 & Hn1 & Hf1).
  assert (Hchk2 : erosion_checks (B := bool) (logical_not input)
                    (Some (flip_all S)) mask OutNone (Sequence o')
                  = Ok (flip_all S, o', cit)).
  { rewrite <- Hchk'. by apply erosion_checks_shape. }
  destruct (erosion_run (logical_not input) (Some (flip_all S)) mask
              (negb border_value) (Sequence o') false iterations brute_force
              fuel (flip_all S) o' cit (wf_logical_not _ Hwf)
              (wf_flip_all S) Hchk2 Hvalid' Hcit Hf)
    as (k2 & Hrun2 & Hn2 & Hf2).
  eexists. split; [|exact Hrun2].
  rewrite Hrun1. do 4 f_equal.
  rewrite <- (iterate_dual (flip_all S) mask border_value o' input k2 Hwf).
  destruct (Z_lt_le_dec iterations 1) as [Hit|Hit].
  - assert (Hfix2 : single_iteration (flip_all S) mask border_value o' true
                      (Nat.iter k2 (single_iteration (flip_all S) mask
                                      border_value o' true) input)
                    = Nat.iter k2 (single_iteration (flip_all S) mask
                                     border_value o' true) input).
    { rewrite single_iteration_dual by (by apply iter_single_iteration_wf).
      rewrite (iterate_dual _ _ _ _ _ _ Hwf) at 1.
      rewrite logical_not_involutive, (Hf2 Hit).
      by rewrite <- iterate_dual. }
    rewrite <- (iter_stable _ k1 (k1 + k2)) by (by apply Hf1 || lia).
    rewrite <- (iter_stable _ k2 (k1 + k2)) by (done || lia).
    done.
  - by rewrite (Hn1 Hit), (Hn2 Hit).
Qed.

Lemma dilation_erosion_duality_iterated_witness :
  exists out,
    binary_dilation (B := bool) 9
      (mk_ndarray [5] [false; true; false; false; false]) None 2 None OutNone
      false (Scalar 0%Z) false
    = Some (Ok (mk_erosion_result (Some (logical_not out)) None))
    /\ binary_erosion (B := bool) 9
         (logical_not (mk_ndarray [5] [false; true; false; false; false]))
         (Some (flip_all (generate_binary_structure 1 1))) 2 None OutNone
         (negb false) (Sequence [0%Z]) false
       = Some (Ok (mk_erosion_result (Some out) None)).
Proof.
  apply (dilation_erosion_duality_iterated
           (mk_ndarray [5] [false; true; false; false; false]) None None
           false (Scalar 0%Z) 2 false 9 (generate_binary_structure 1 1)
           [0%Z] [0%Z] true);
    (reflexivity || (simpl; lia)).
Defined.

(** ** Opening and closing *)

Lemma erosion_cell S mask o (a : ndarray bool) bv i :
  i < size (shape a) -> mask_at mask i = true ->
  nth i (data (single_iteration S mask bv o false a)) false = true
  <-> forall w, In w (offsets S o) ->
        effective_value a bv (vadd (unravel (shape a) i) w) = true.
Proof.
  intros Hi Hm. rewrite nth_single_iteration by done.
  apply (pK_enabled (shape a) (offsets S o) mask bv false (data a) i Hm).
Qed.

Lemma dilation_cell S mask o (a : ndarray bool) bv i :
  i < size (shape a) -> mask_at mask i = true ->
  nth i (data (single_iteration S mask bv o true a)) false = false
  <-> forall v, In v (offsets S o) ->
        effective_value a bv (vadd (unravel (shape a) i) v) = false.
Proof.
  intros Hi Hm. rewrite nth_single_iteration by done.
  apply (pK_enabled (shape a) (offsets S o) mask bv true (data a) i Hm).
Qed.

Lemma effective_value_cell (a : ndarray bool) bv i :
  i < size (shape a) ->
  effective_value a bv (unravel (shape a) i) = nth i (data a) false.
Proof.
  intros Hi. unfold effective_value.
  rewrite in_bounds_unravel, ravel_unravel by done. apply value_at_bool.
Qed.

Lemma effective_value_inside (a : ndarray bool) bv c :
  in_bounds (shape a) c = true ->
  effective_value a bv c = nth (ravel (shape a) c) (data a) false.
Proof.
  intros Hb. unfold effective_value. rewrite Hb. apply value_at_bool.
Qed.

(** The step of an opening: a dilation by the reflected structure after
    an erosion, with the border value 0 in both, sets no cell that the
    array did not hold. *)
Lemma opening_step S o o' (a : ndarray bool) :
  wf_array S ->
  length (shape S) = length (shape a) -> length o = length (shape a) ->
  reflect_origin (shape S) o = Ok o' ->
  included
    (single_iteration (flip_all S) None false o' true
       (single_iteration S None false o false a)) a.
Proof.
  intros HwfS HrS Hro Hr i Hi.
  destruct (decide (i < size (shape a))) as [Hlt|Hge].
  2:{ rewrite nth_beyond in Hi; [done|].
      unfold single_iteration. simpl. rewrite erode_data_length. lia. }
  destruct (nth i (data a) false) eqn:Ha; [done|].
  assert (Hd : nth i (data (single_iteration (flip_all S) None false o' true
                              (single_iteration S None false o false a)))
                 false = false); [|congruence].
  apply dilation_cell; [done|done|]. intros v Hv.
  rewrite ?single_iteration_shape.
  set (E := single_iteration S None false o false a).
  assert (HE : shape E = shape a) by done.
  destruct (in_bounds (shape a) (vadd (unravel (shape a) i) v)) eqn:Hb.
  2:{ unfold effective_value. by rewrite HE, Hb. }
  rewrite effective_value_inside by (by rewrite HE).
  rewrite HE.
  destruct (nth _ (data E) false) eqn:He; [|done].
  unfold E in He.
  pose proof (proj1 (erosion_cell S None o a false _ (ravel_lt _ _ Hb)
                       eq_refl) He) as Hall.
  apply (In_offsets_reflected S o o' v) in Hv; [|done|lia|done].
  specialize (Hall _ Hv). clear He. rename Hall into He.
  rewrite unravel_ravel in He by done.
  rewrite vadd_vneg_cancel in He.
  - rewrite effective_value_cell in He by done. congruence.
  - rewrite length_unravel.
    apply (length_offset S o) in Hv; [|lia]. rewrite length_vneg in Hv. lia.
Qed.

Lemma opening_iterates S o o' (a : ndarray bool) n :
  wf_array S ->
  length (shape S) = length (shape a) -> length o = length (shape a) ->
  reflect_origin (shape S) o = Ok o' ->
  included
    (Nat.iter n (single_iteration (flip_all S) None false o' true)
       (Nat.iter n (single_iteration S None false o false) a)) a.
Proof.
  intros HwfS HrS Hro Hr. induction n as [|n IH]; [by intros i Hi|].
  rewrite iter_succ_r. cbn [Nat.iter]. intros i Hi. apply IH.
  revert i Hi. apply iterate_mono.
  - by rewrite !single_iteration_shape.
  - apply opening_step; try done.
    + by rewrite iter_single_iteration_shape.
    + by rewrite iter_single_iteration_shape.
Qed.

Lemma erosion_checks_some (input : ndarray bool) structure mask origin S o
    cit :
  erosion_checks (B := bool) input structure mask OutNone origin
  = Ok (S, o, cit) ->
  erosion_checks (B := bool) input (Some S) mask OutNone origin
  = Ok (S, o, cit).
Proof.
  intros Hchk.
  destruct (erosion_checks_ok _ _ _ _ _ _ _ Hchk) as (HS & _).
  by destruct structure as [s|]; rewrite HS in *.
Qed.

(** Binary opening is anti-extensive: for every structure (whatever its
    centre cell), origin and iteration count [>= 1] the result has the
    shape of the input and is included in it. *)
Theorem binary_opening_anti_extensive (input : ndarray bool) structure
    origin iterations fuel S o cit :
  wf_array input -> wf_array S ->
  erosion_checks (B := bool) input structure None OutNone origin
  = Ok (S, o, cit) ->
  in_bounds (shape S) (center (shape S) o) = true ->
  (1 <= iterations)%Z -> Z.to_nat iterations <= fuel ->
  exists out,
    binary_opening (B := bool) fuel input structure iterations OutNone origin
    = Some (Ok (mk_erosion_result (Some out) None))
    /\ shape out = shape input
    /\ included out input.
Proof.
  intros Hwf HwfS Hchk Hvalid Hit Hf.
  destruct (erosion_checks_ok _ _ _ _ _ _ _ Hchk)
    as (HS & HrS & Ho & Hro & _).
  destruct (reflect_origin_ok (shape S) o) as (o' & Hr & _); [lia|].
  pose proof (erosion_checks_some _ _ _ _ _ _ _ Hchk) as HchkS.
  unfold binary_opening. rewrite <- HS.
  unfold binary_erosion.
  rewrite (driver_count input (Some S) None false origin false iterations S o
             cit HwfS HchkS Hvalid fuel false Hit Hf).
  cbn [return_value].
  set (E := Nat.iter (Z.to_nat iterations)
              (single_iteration S None false o false) input).
  assert (HshE : shape E = shape input)
    by apply iter_single_iteration_shape.
  assert (HchkE : erosion_checks (B := bool) E (Some S) None OutNone origin
                  = Ok (S, o, cit)).
  { rewrite <- HchkS. by apply erosion_checks_shape. }
  destruct (erosion_checks_flip _ _ _ _ _ _ _ _ HwfS HchkE Hvalid Hr)
    as (Hchk' & Hvalid' & _).
  rewrite (binary_dilation_unfold fuel E (Some S) iterations None false
             origin false o o').
  2:{ unfold ndim. rewrite HshE. exact Ho. }
  2:{ exact Hr. }
  rewrite (driver_count E (Some (flip_all S)) None false (Sequence o') true
             iterations (flip_all S) o' cit (wf_flip_all S) Hchk' Hvalid'
             fuel false Hit Hf).
  eexists. split; [done|]. split.
  - by rewrite iter_single_iteration_shape.
  - by apply opening_iterates.
Qed.

Lemma binary_opening_anti_extensive_witness :
  exists out,
    binary_opening (B := bool) 2
      (mk_ndarray [6] [true; true; true; false; true; false]) None 1 OutNone
      (Scalar 0%Z)
    = Some (Ok (mk_erosion_result (Some out) None))
    /\ shape out = [6]
    /\ included out (mk_ndarray [6] [true; true; true; false; true; false]).
Proof.
  apply (binary_opening_anti_extensive
           (mk_ndarray [6] [true; true; true; false; true; false]) None
           (Scalar 0%Z) 1 2 (generate_binary_structure 1 1) [0%Z] true);
    (reflexivity || (simpl; lia)).
Defined.

(** The step of a closing: an erosion after a dilation by the reflected
    structure keeps every cell that is on and whose neighbourhood lies
    inside the array. *)
Lemma closing_step S o o' (a : ndarray bool) i :
  wf_array S ->
  length (shape S) = length (shape a) -> length o = length (shape a) ->
  reflect_origin (shape S) o = Ok o' ->
  i < size (shape a) ->
  (forall w, In w (offsets S o) ->
     in_bounds (shape a) (vadd (unravel (shape a) i) w) = true) ->
  nth i (data a) false = true ->
  nth i (data (single_iteration S None false o false
                 (single_iteration (flip_all S) None false o' true a)))
    false = true.
Proof.
  intros HwfS HrS Hro Hr Hi Hin Ha.
  apply erosion_cell; [done|done|]. intros w Hw.
  rewrite ?single_iteration_shape.
  specialize (Hin w Hw).
  rewrite effective_value_inside by done. rewrite ?single_iteration_shape.
  set (q := vadd (unravel (shape a) i) w) in *.
  destruct (nth (ravel (shape a) q)
              (data (single_iteration (flip_all S) None false o' true a))
              false) eqn:Hd; [done|].
  pose proof (proj1 (dilation_cell (flip_all S) None o' a false _
                       (ravel_lt _ _ Hin) eq_refl) Hd) as Hall.
  assert (Hv : In (vneg w) (offsets (flip_all S) o')).
  { apply (In_offsets_reflected S o o'); [done|lia|done|].
    by rewrite vneg_involutive. }
  specialize (Hall _ Hv). clear Hd. rename Hall into Hd.
  rewrite unravel_ravel in Hd by done.
  unfold q in Hd. rewrite vadd_vneg_cancel in Hd.
  - rewrite effective_value_cell in Hd by done. congruence.
  - rewrite length_unravel. apply (length_offset S o) in Hw; lia.
Qed.

(** Binary closing with one iteration keeps every foreground cell whose
    structure neighbourhood lies inside the array (the border value of
    its erosion is 0, so that a foreground cell next to the edge of the
    array may be lost). *)
Theorem binary_closing_keeps_inner_cells (input : ndarray bool) structure
    origin fuel S o cit i :
  wf_array input -> wf_array S ->
  erosion_checks (B := bool) input structure None OutNone origin
  = Ok (S, o, cit) ->
  in_bounds (shape S) (center (shape S) o) = true ->
  i < size (shape input) ->
  (forall w, In w (offsets S o) ->
     in_bounds (shape input) (vadd (unravel (shape input) i) w) = true) ->
  nth i (data input) false = true ->
  exists out,
    binary_closing (B := bool) fuel input structure 1 OutNone origin
    = Some (Ok (mk_erosion_result (Some out) None))
    /\ shape out = shape input
    /\ nth i (data out) false = true.
Proof.
  intros Hwf HwfS Hchk Hvalid Hi Hin Ha.
  destruct (erosion_checks_ok _ _ _ _ _ _ _ Hchk)
    as (HS & HrS & Ho & Hro & _).
  destruct (reflect_origin_ok (shape S) o) as (o' & Hr & _); [lia|].
  pose proof (erosion_checks_some _ _ _ _ _ _ _ Hchk) as HchkS.
  destruct (erosion_checks_flip _ _ _ _ _ _ _ _ HwfS HchkS Hvalid Hr)
    as (Hchk' & Hvalid' & _).
  unfold binary_closing. rewrite <- HS.
  rewrite (binary_dilation_unfold fuel input (Some S) 1 None false origin
             false o o' Ho Hr).
  rewrite (binary_erosion_passes _ _ _ _ _ _ _ _ _ (flip_all S) o' cit)
    by done.
  rewrite passes_single by done. rewrite buffer_of_first.
  cbn [return_value].
  set (D := mk_ndarray (shape input)
              (erode_data (shape input) (offsets (flip_all S) o') None false
                 true (data input))).
  change D with (single_iteration (flip_all S) None false o' true input).
  clear D.
  set (D := single_iteration (flip_all S) None false o' true input).
  assert (HchkD : erosion_checks (B := bool) D (Some S) None OutNone origin
                  = Ok (S, o, cit)).
  { rewrite <- HchkS. by apply erosion_checks_shape. }
  unfold binary_erosion.
  rewrite (binary_erosion_passes _ _ _ _ _ _ _ _ _ S o cit) by done.
  rewrite passes_single by done. rewrite buffer_of_first.
  eexists. split; [done|]. split; [done|].
  change (mk_ndarray (shape D)
            (erode_data (shape D) (offsets S o) None false false (data D)))
    with (single_iteration S None false o false D).
  by apply (closing_step S o o' input i).
Qed.

Lemma binary_closing_keeps_inner_cells_witness :
  exists out,
    binary_closing (B := bool) 0
      (mk_ndarray [5] [false; true; false; true; false]) None 1 OutNone
      (Scalar 0%Z)
    = Some (Ok (mk_erosion_result (Some out) None))
    /\ shape out = [5]
    /\ nth 1 (data out) false = true.
Proof.
  apply (binary_closing_keeps_inner_cells
           (mk_ndarray [5] [false; true; false; true; false]) None
           (Scalar 0%Z) 0 (generate_binary_structure 1 1) [0%Z] true 1);
    try (reflexivity || (simpl; lia)).
  intros w [<-|[<-|[<-|[]]]]; reflexivity.
Defined.

(** ** Propagation and hole filling *)

Lemma single_iteration_masked S mask bv o inv (a : ndarray bool) i :
  wf_array a -> mask_at mask i = false ->
  nth i (data (single_iteration S mask bv o inv a)) false
  = nth i (data a) false.
Proof.
  intros Hwf Hm. destruct (decide (i < size (shape a))) as [Hi|Hi].
  - rewrite nth_single_iteration by done.
    apply (pK_masked (shape a) (offsets S o) mask bv inv (data a) i Hm).
  - rewrite !nth_beyond; [done| |].
    + unfold wf_array in Hwf. lia.
    + unfold single_iteration. simpl. rewrite erode_data_length. lia.
Qed.

Lemma iterate_masked S mask bv o inv (a : ndarray bool) k i :
  wf_array a -> mask_at mask i = false ->
  nth i (data (Nat.iter k (single_iteration S mask bv o inv) a)) false
  = nth i (data a) false.
Proof.
  intros Hwf Hm. induction k as [|k IH]; [done|]. rewrite Nat.iter_succ.
  rewrite single_iteration_masked; [done| |done].
  by apply iter_single_iteration_wf.
Qed.

(** Binary propagation by a structure whose centre cell is on returns:
    its result has the shape of the input, includes the input, differs
    from the input only on cells that the mask enables, and is stable (one
    more dilation under the mask leaves it as it is). *)
Theorem binary_propagation_spec (input : ndarray bool) structure mask
    border_value origin fuel S o cit :
  wf_array input -> wf_array S ->
  erosion_checks (B := bool) input structure mask OutNone origin
  = Ok (S, o, cit) ->
  getitem S (center (shape S) o) = Some true ->
  size (shape input) + 2 <= fuel ->
  exists out,
    binary_propagation (B := bool) fuel input structure mask OutNone
      border_value origin
    = Some (Ok (mk_erosion_result (Some out) None))
    /\ shape out = shape input
    /\ included input out
    /\ (forall i, mask_at mask i = false ->
          nth i (data out) false = nth i (data input) false)
    /\ binary_dilation (B := bool) fuel out structure 1 mask OutNone
         border_value origin false
       = Some (Ok (mk_erosion_result (Some out) None)).
Proof.
  intros Hwf HwfS Hchk Hc Hf.
  assert (Hvalid : in_bounds (shape S) (center (shape S) o) = true)
    by (by apply getitem_Some in Hc as [? _]).
  assert (Hcit : cit = true).
  { pose proof (driver_centre_cell _ _ _ _ _ _ _ Hchk Hvalid). congruence. }
  destruct (erosion_checks_ok _ _ _ _ _ _ _ Hchk) as (_ & HrS & _ & Hro & _).
  destruct (reflect_origin_ok (shape S) o) as (o' & Hr & Hlo'); [lia|].
  destruct (erosion_checks_flip _ _ _ _ _ _ _ _ HwfS Hchk Hvalid Hr)
    as (_ & _ & Hc').
  rewrite Hcit in Hc'.
  unfold binary_propagation.
  destruct (dilation_run input structure mask border_value origin (-1) false
              fuel S o o' cit Hwf HwfS Hchk Hvalid Hr (fun _ => Hcit))
    as (k & Hrun & _ & Hfix); [simpl; lia|].
  specialize (Hfix ltac:(lia)).
  set (f := single_iteration (flip_all S) mask border_value o' true) in *.
  exists (Nat.iter k f input). split; [exact Hrun|]. split.
  { apply iter_single_iteration_shape. }
  split.
  { intros i Hi.
    destruct (nth i (data (Nat.iter k f input)) false) eqn:Hv; [done|].
    apply (iterate_centre_on (flip_all S) mask border_value o' true input k i)
      in Hv; try done; [simpl in Hv; congruence|lia]. }
  split.
  { intros i Hm. by apply iterate_masked. }
  assert (Hchk2 : erosion_checks (B := bool) (Nat.iter k f input) structure
                    mask OutNone origin = Ok (S, o, cit)).
  { rewrite <- Hchk. apply erosion_checks_shape.
    apply iter_single_iteration_shape. }
  destruct (erosion_checks_ok _ _ _ _ _ _ _ Hchk2) as (HS2 & _ & Ho2 & _ & _).
  destruct (erosion_checks_flip _ _ _ _ _ _ _ _ HwfS Hchk2 Hvalid Hr)
    as (Hchk2' & Hvalid2' & _).
  rewrite (binary_dilation_unfold fuel (Nat.iter k f input) structure 1 mask
             border_value origin false o o' Ho2);
    [|by rewrite <- HS2].
  rewrite <- HS2.
  rewrite (driver_count (Nat.iter k f input) (Some (flip_all S)) mask
             border_value (Sequence o') true 1 (flip_all S) o' cit
             (wf_flip_all S) Hchk2' Hvalid2' fuel false);
    [|lia|simpl; lia].
  simpl. fold f. by rewrite Hfix.
Qed.

Lemma binary_propagation_spec_witness :
  exists out,
    binary_propagation (B := bool) 7
      (mk_ndarray [5] [false; true; false; false; false]) None
      (Some (mk_ndarray [5] [true; true; true; false; true])) OutNone false
      (Scalar 0%Z)
    = Some (Ok (mk_erosion_result (Some out) None))
    /\ shape out = [5]
    /\ included (mk_ndarray [5] [false; true; false; false; false]) out
    /\ (forall i,
          mask_at (Some (mk_ndarray [5] [true; true; true; false; true])) i
          = false ->
          nth i (data out) false
          = nth i [false; true; false; false; false] false)
    /\ binary_dilation (B := bool) 7 out None 1
         (Some (mk_ndarray [5] [true; true; true; false; true])) OutNone false
         (Scalar 0%Z) false
       = Some (Ok (mk_erosion_result (Some out) None)).
Proof.
  apply (binary_propagation_spec
           (mk_ndarray [5] [false; true; false; false; false]) None
           (Some (mk_ndarray [5] [true; true; true; false; true])) false
           (Scalar 0%Z) 7 (generate_binary_structure 1 1) [0%Z] true);
    (reflexivity || (simpl; lia)).
Defined.

Lemma nth_logical_not_into (a : ndarray bool) i :
  i < length (data a) ->
  nth i (data (logical_not_into a)) false = negb (nth i (data a) false).
Proof.
  intros Hi. unfold logical_not_into. simpl.
  rewrite !nth_lookup, list_lookup_fmap.
  destruct (data a !! i) eqn:E; [done|].
  apply lookup_ge_None_1 in E. lia.
Qed.

Lemma mask_at_logical_not {A} `{Dtype A} (input : ndarray A) i :
  i < length (data input) ->
  mask_at (Some (logical_not input)) i = negb (value_at (data input) i).
Proof.
  intros Hi. unfold mask_at, logical_not, value_at. simpl.
  rewrite nth_lookup, list_lookup_fmap.
  destruct (data input !! i) eqn:E; [done|].
  apply lookup_ge_None_1 in E. lia.
Qed.

Lemma nth_zeros shp i : nth i (data (zeros shp)) false = false.
Proof.
  unfold zeros. simpl. rewrite nth_lookup.
  destruct (replicate (size shp) false !! i) as [b|] eqn:E; [|done].
  by apply lookup_replicate in E as [-> _].
Qed.

Lemma wf_zeros shp : wf_array (zeros shp).
Proof. unfold wf_array, zeros. simpl. by rewrite length_replicate. Qed.

(** Hole filling with a structure whose centre cell is on returns an
    array of the shape of the input in which every foreground cell of the
    input is on, and in which a background cell stays off when the
    structure, placed on it, reaches outside the array. The input is read
    by truth value: a complex input is not refused. *)
Theorem binary_fill_holes_spec {A} `{Dtype A} (input : ndarray A) structure
    origin fuel S o cit :
  wf_array input -> wf_array S ->
  erosion_checks (B := bool) (zeros (shape input)) structure
    (Some (logical_not input)) OutNone origin = Ok (S, o, cit) ->
  getitem S (center (shape S) o) = Some true ->
  size (shape input) + 2 <= fuel ->
  exists out,
    binary_fill_holes (B := bool) fuel input structure OutNone origin
    = Some (Ok (mk_erosion_result (Some out) None))
    /\ shape out = shape input
    /\ (forall i, value_at (data input) i = true ->
          nth i (data out) false = true)
    /\ (forall i w,
          i < size (shape input) ->
          value_at (data input) i = false ->
          In w (offsets S o) ->
          in_bounds (shape input)
            (vadd (unravel (shape input) i) (vneg w)) = false ->
          nth i (data out) false = false).
Proof.
  intros Hwf HwfS Hchk Hc Hf.
  assert (Hvalid : in_bounds (shape S) (center (shape S) o) = true)
    by (by apply getitem_Some in Hc as [? _]).
  assert (Hcit : cit = true).
  { pose proof (driver_centre_cell _ _ _ _ _ _ _ Hchk Hvalid). congruence. }
  destruct (erosion_checks_ok _ _ _ _ _ _ _ Hchk) as (_ & HrS & _ & Hro & _).
  destruct (reflect_origin_ok (shape S) o) as (o' & Hr & Hlo'); [simpl in *; lia|].
  destruct (erosion_checks_flip _ _ _ _ _ _ _ _ HwfS Hchk Hvalid Hr)
    as (_ & _ & Hc').
  rewrite Hcit in Hc'.
  unfold binary_fill_holes.
  change (shape (logical_not input)) with (shape input).
  destruct (dilation_run (zeros (shape input)) structure
              (Some (logical_not input)) true origin (-1) false fuel S o o'
              cit (wf_zeros _) HwfS Hchk Hvalid Hr (fun _ => Hcit))
    as (k & Hrun & _ & Hfix); [simpl; lia|].
  specialize (Hfix ltac:(lia)).
  rewrite Hrun. cbn [return_value out_buffer option_map].
  set (f := single_iteration (flip_all S) (Some (logical_not input)) true o'
              true) in *.
  set (D := Nat.iter k f (zeros (shape input))) in *.
  assert (HshD : shape D = shape input)
    by apply iter_single_iteration_shape.
  assert (HwfD : wf_array D)
    by (apply iter_single_iteration_wf; apply wf_zeros).
  eexists. split; [done|]. split; [done|].
  assert (Hlen : length (data D) = length (data input)).
  { unfold wf_array in *. by rewrite HwfD, HshD, Hwf. }
  split.
  - intros i Hv.
    assert (Hi : i < length (data input)).
    { unfold value_at in Hv. destruct (data input !! i) eqn:E; [|done].
      by apply lookup_lt_Some in E. }
    rewrite nth_logical_not_into by lia.
    unfold D, f. rewrite iterate_masked; [by rewrite nth_zeros|apply wf_zeros|].
    rewrite mask_at_logical_not by done. by rewrite Hv.
  - intros i w Hi Hv Hw Hout.
    assert (Hil : i < length (data input))
      by (unfold wf_array in Hwf; lia).
    rewrite nth_logical_not_into by lia.
    apply negb_false_iff.
    assert (Hone : nth i (data (f (zeros (shape input)))) false = true).
    { destruct (nth i (data (f (zeros (shape input)))) false) eqn:E; [done|].
      unfold f in E.
      pose proof (proj1 (dilation_cell (flip_all S)
                           (Some (logical_not input)) o' (zeros (shape input))
                           true i Hi
                           ltac:(rewrite mask_at_logical_not by done;
                                 by rewrite Hv)) E) as Hall.
      assert (Hv' : In (vneg w) (offsets (flip_all S) o')).
      { apply (In_offsets_reflected S o o'); [done|simpl in *; lia|done|].
        by rewrite vneg_involutive. }
      specialize (Hall _ Hv'). unfold effective_value in Hall.
      cbn [shape zeros] in Hall. by rewrite Hout in Hall. }
    destruct k as [|k].
    + unfold D in *. simpl in Hfix. rewrite Hfix in Hone.
      by rewrite nth_zeros in Hone.
    + destruct (nth i (data D) false) eqn:E; [done|].
      unfold D in E. rewrite iter_succ_r in E. unfold f in E at 1.
      apply (iterate_centre_on (flip_all S) (Some (logical_not input)) true
               o' true) in E; try done.
      * rewrite Hone in E. done.
      * apply (iter_single_iteration_wf _ _ _ _ _ _ 1). apply wf_zeros.
      * simpl in *. lia.
Qed.

Lemma binary_fill_holes_spec_witness :
  exists out,
    binary_fill_holes (B := bool) 7
      (mk_ndarray [5] [0; 3; 0; 1; 0]%Z) None OutNone (Scalar 0%Z)
    = Some (Ok (mk_erosion_result (Some out) None))
    /\ shape out = [5]
    /\ (forall i, value_at [0; 3; 0; 1; 0]%Z i = true ->
          nth i (data out) false = true)
    /\ (forall i w,
          i < 5 ->
          value_at [0; 3; 0; 1; 0]%Z i = false ->
          In w (offsets (generate_binary_structure 1 1) [0%Z]) ->
          in_bounds [5] (vadd (unravel [5] i) (vneg w)) = false ->
          nth i (data out) false = false).
Proof.
  apply (binary_fill_holes_spec (mk_ndarray [5] [0; 3; 0; 1; 0]%Z) None
           (Scalar 0%Z) 7 (generate_binary_structure 1 1) [0%Z] true);
    (reflexivity || (simpl; lia)).
Defined.

(** ** The hit-or-miss transform *)

Lemma erosion_checks_inv {A} `{Dtype A} (input : ndarray A) structure mask
    origin S o cit :
  erosion_checks (B := bool) input structure mask OutNone origin
  = Ok (S, o, cit) ->
  iscomplexobj A = false
  /\ S = match structure with
         | None => generate_binary_structure (ndim input) 1
         | Some s => s
         end
  /\ _normalize_sequence origin (ndim input) = Ok o
  /\ length o = ndim input.
Proof.
  unfold erosion_checks. destruct (iscomplexobj A); [done|].
  set (S0 := match structure with
             | Some s => s
             | None => generate_binary_structure (ndim input) 1
             end).
  destruct (negb (ndim S0 =? ndim input)); [done|].
  destruct (size (shape S0) <? 1); [done|].
  destruct (match mask with Some m => _ | None => false end); [done|].
  destruct (_normalize_sequence origin (ndim input)) as [o0|] eqn:Ho;
    simpl; [|done].
  destruct (_center_is_true S0 o0) as [c0|] eqn:Hc; simpl; [|done].
  intros [= <- <- <-]. repeat split; try done.
  by apply normalize_sequence_length in Ho.
Qed.

(** The checks pass again on the structure and the origin they give. *)
Lemma erosion_checks_normal {A} `{Dtype A} (input : ndarray A) structure mask
    origin S o cit :
  erosion_checks (B := bool) input structure mask OutNone origin
  = Ok (S, o, cit) ->
  erosion_checks (B := bool) input (Some S) mask OutNone (Sequence o)
  = Ok (S, o, cit).
Proof.
  intros Hchk.
  destruct (erosion_checks_inv _ _ _ _ _ _ _ Hchk) as (Hcx & HS & Ho & Hlo).
  revert Hchk. unfold erosion_checks. rewrite Hcx, <- HS, Ho.
  destruct (negb (ndim S =? ndim input)); [done|].
  destruct (size (shape S) <? 1); [done|].
  destruct (match mask with Some m => _ | None => false end); [done|].
  unfold _normalize_sequence. by destruct (decide (length o = ndim input)).
Qed.

Lemma single_pass_returned {A} `{Dtype A} (input : ndarray A) S o cit inv
    brute_force fuel :
  erosion_checks (B := bool) input (Some S) None OutNone (Sequence o)
  = Ok (S, o, cit) ->
  _binary_erosion (B := bool) fuel input (Some S) 1 None OutNone false
    (Sequence o) inv brute_force
  = Some (Ok (mk_erosion_result
                (Some (mk_ndarray (shape input)
                         (map (erode_point input (offsets S o) None false inv)
                            (seq 0 (size (shape input))))))
                None)).
Proof.
  intros Hchk. unfold _binary_erosion. rewrite Hchk.
  unfold erosion_passes. cbn [Z.eqb Pos.eqb]. rewrite kernel_out.
  unfold write. cbn [bufA bufB shape zeros of_bool bool_dtype].
  by rewrite map_id.
Qed.

Lemma single_pass_in_place {A} `{Dtype A} (input : ndarray A) S o cit inv
    brute_force fuel (buf : ndarray bool) :
  erosion_checks (B := bool) input (Some S) None OutNone (Sequence o)
  = Ok (S, o, cit) ->
  shape buf = shape input ->
  _binary_erosion (B := bool) fuel input (Some S) 1 None (OutArray buf) false
    (Sequence o) inv brute_force
  = Some (Ok (mk_erosion_result None
                (Some (mk_ndarray (shape input)
                         (map (erode_point input (offsets S o) None false inv)
                            (seq 0 (size (shape input)))))))).
Proof.
  intros Hchk Hs. unfold _binary_erosion.
  assert (Hchk' : erosion_checks (B := bool) input (Some S) None
                    (OutArray buf) (Sequence o) = Ok (S, o, cit)).
  { revert Hchk. unfold erosion_checks.
    destruct (iscomplexobj A); [done|].
    destruct (negb (ndim S =? ndim input)); [done|].
    destruct (size (shape S) <? 1); [done|].
    destruct (_normalize_sequence (Sequence o) (ndim input)) as [o0|]; [|done].
    simpl. destruct (_center_is_true S o0) as [c0|]; [|done]. simpl.
    rewrite bool_decide_eq_true_2 by done. done. }
  rewrite Hchk'.
  unfold erosion_passes. cbn [Z.eqb Pos.eqb]. rewrite kernel_out.
  unfold write. cbn [bufA bufB shape zeros of_bool bool_dtype].
  by rewrite map_id, Hs.
Qed.

Lemma forallb_pointwise {X} (f g : X -> bool) l :
  (forall x, f x = g x) -> forallb f l = forallb g l.
Proof.
  intros Hfg. induction l as [|x l IH]; simpl; [done|]. by rewrite Hfg, IH.
Qed.

Lemma erode_point_erosion {A} `{Dtype A} (input : ndarray A) offs bv i :
  erode_point input offs None bv false i
  = forallb (fun v =>
               effective_value input bv (vadd (unravel (shape input) i) v))
      offs.
Proof.
  unfold erode_point, mask_at.
  rewrite (forallb_pointwise _
             (fun v => effective_value input bv
                         (vadd (unravel (shape input) i) v)))
    by (intros v; by destruct (effective_value _ _ _)).
  by destruct (forallb _ _).
Qed.

Lemma erode_point_dilation {A} `{Dtype A} (input : ndarray A) offs bv i :
  erode_point input offs None bv true i
  = negb (forallb (fun v =>
                     negb (effective_value input bv
                             (vadd (unravel (shape input) i) v)))
            offs).
Proof.
  unfold erode_point, mask_at.
  rewrite (forallb_pointwise _
             (fun v => negb (effective_value input bv
                               (vadd (unravel (shape input) i) v))))
    by (intros v; by destruct (effective_value _ _ _)).
  by destruct (forallb _ _).
Qed.

Lemma zip_with_fmap_same {X Y Z W} (f : Y -> Z -> W) (g : X -> Y)
    (h : X -> Z) (l : list X) :
  zip_with f (map g l) (map h l) = map (fun x => f (g x) (h x)) l.
Proof. induction l as [|x l IH]; simpl; [done|by rewrite IH]. Qed.

(** [binary_hit_or_miss] computes the hit-or-miss transform of the truth
    values of its input: a cell of the result is on exactly when every
    cell under [structure1] is foreground and every cell under
    [structure2] is background. A caller's boolean array of the shape of
    the input receives the same array, and None is returned. *)
Theorem binary_hit_or_miss_cells {A} `{Dtype A} (input : ndarray A)
    structure1 structure2 origin1 origin2 S1 o1 c1 S2 o2 c2 :
  erosion_checks (B := bool) input structure1 None OutNone origin1
  = Ok (S1, o1, c1) ->
  S2 = match structure2 with
       | None => logical_not S1
       | Some s => s
       end ->
  match origin2 with
  | None => Ok o1
  | Some o => _normalize_sequence o (ndim input)
  end = Ok o2 ->
  erosion_checks (B := bool) input (Some S2) None OutNone (Sequence o2)
  = Ok (S2, o2, c2) ->
  let transform :=
    mk_ndarray (shape input)
      (map (hit_or_miss_cell input (offsets S1 o1) (offsets S2 o2))
         (seq 0 (size (shape input)))) in
  binary_hit_or_miss (B := bool) input structure1 structure2 OutNone origin1
    origin2
  = Some (Ok (mk_erosion_result (Some transform) None))
  /\ forall buf : ndarray bool,
       shape buf = shape input ->
       binary_hit_or_miss (B := bool) input structure1 structure2
         (OutArray buf) origin1 origin2
       = Some (Ok (mk_erosion_result None (Some transform))).
Proof.
  intros Hchk1 HS2 Ho2 Hchk2 transform.
  destruct (erosion_checks_inv _ _ _ _ _ _ _ Hchk1) as (_ & HS1 & Ho1 & _).
  pose proof (erosion_checks_normal _ _ _ _ _ _ _ Hchk1) as Hn1.
  assert (Hcells :
    logical_and_into
      (mk_ndarray (shape input)
         (map (erode_point input (offsets S1 o1) None false false)
            (seq 0 (size (shape input)))))
      (logical_not_into
         (mk_ndarray (shape input)
            (map (erode_point input (offsets S2 o2) None false true)
               (seq 0 (size (shape input))))))
    = transform).
  { unfold logical_and_into, logical_not_into, transform.
    cbn [shape data nonzero of_bool bool_dtype]. f_equal.
    rewrite map_map, zip_with_fmap_same. apply map_ext. intros i.
    rewrite erode_point_erosion, erode_point_dilation, negb_involutive.
    done. }
  assert (Hhead : forall (output : output_arg bool),
    binary_hit_or_miss (B := bool) input structure1 structure2 output origin1
      origin2
    = match _binary_erosion (B := bool) 0 input (Some S2) 1 None output false
              (Sequence o2) true false with
      | Some (Ok r) =>
          Some (Ok (mk_erosion_result
                      (option_map
                         (fun res =>
                            logical_and_into
                              (mk_ndarray (shape input)
                                 (map (erode_point input (offsets S1 o1) None
                                         false false)
                                    (seq 0 (size (shape input)))))
                              (logical_not_into res))
                         (return_value r))
                      (option_map
                         (fun out =>
                            logical_and_into
                              (mk_ndarray (shape input)
                                 (map (erode_point input (offsets S1 o1) None
                                         false false)
                                    (seq 0 (size (shape input)))))
                              (logical_not_into out))
                         (out_buffer r))))
      | other => other
      end).
  { intros output. unfold binary_hit_or_miss.
    rewrite <- HS1, <- HS2, Ho1. cbn [bind]. rewrite Ho2. cbn [bind].
    rewrite (single_pass_returned input S1 o1 c1 false false 0 Hn1).
    done. }
  split.
  - rewrite Hhead.
    rewrite (single_pass_returned input S2 o2 c2 true false 0 Hchk2).
    cbn [return_value out_buffer option_map]. by rewrite Hcells.
  - intros buf Hbuf. rewrite Hhead.
    rewrite (single_pass_in_place input S2 o2 c2 true false 0 buf Hchk2 Hbuf).
    cbn [return_value out_buffer option_map]. by rewrite Hcells.
Qed.

Lemma binary_hit_or_miss_cells_witness :
  binary_hit_or_miss (B := bool)
    (mk_ndarray [5] [0; 1; 1; 0; 1]%Z) (Some (mk_ndarray [3] [false; true; true]))
    None OutNone (Scalar 0%Z) None
  = Some (Ok (mk_erosion_result
                (Some (mk_ndarray [5]
                         (map (hit_or_miss_cell
                                 (mk_ndarray [5] [0; 1; 1; 0; 1]%Z)
                                 (offsets (mk_ndarray [3] [false; true; true])
                                    [0%Z])
                                 (offsets (mk_ndarray [3] [true; false; false])
                                    [0%Z]))
                            (seq 0 5))))
                None)).
Proof.
  apply (binary_hit_or_miss_cells (mk_ndarray [5] [0; 1; 1; 0; 1]%Z)
           (Some (mk_ndarray [3] [false; true; true])) None (Scalar 0%Z) None
           (mk_ndarray [3] [false; true; true]) [0%Z] true
           (mk_ndarray [3] [true; false; false]) [0%Z] false);
    reflexivity.
Defined.

(** ** Iterated structures *)

Lemma size_pos_dims shp : Forall (fun d => 1 <= d) shp -> 1 <= size shp.
Proof.
  induction 1 as [|d rest Hd Hall IH]; simpl; [lia|]. nia.
Qed.

Lemma center_zero_in_bounds shp :
  Forall (fun d => 1 <= d) shp ->
  in_bounds shp (center shp (replicate (length shp) 0%Z)) = true.
Proof.
  unfold center. induction 1 as [|d rest Hd Hall IH]; [done|].
  cbn [length replicate zip_with in_bounds]. rewrite IH, andb_true_r.
  assert (d / 2 < d) by (apply Nat.div_lt; lia).
  apply andb_true_intro; split; [apply Z.leb_le|apply Z.ltb_lt]; lia.
Qed.

Lemma existsb_zero_dims shp :
  Forall (fun d => 1 <= d) shp -> existsb (fun ii => ii =? 0) shp = false.
Proof.
  induction 1 as [|d rest Hd Hall IH]; [done|]. simpl. rewrite IH.
  destruct (Nat.eqb_spec d 0); [lia|done].
Qed.

Lemma wf_embed_structure S ni : wf_array (embed_structure S ni).
Proof.
  unfold wf_array, embed_structure. simpl. by rewrite length_map, length_seq.
Qed.

(** The checks of the dilation that [iterate_structure] runs pass for a
    structure without empty axis. *)
Lemma iterate_checks (S : ndarray bool) (a : ndarray bool) :
  wf_array S -> Forall (fun d => 1 <= d) (shape S) ->
  length (shape a) = length (shape S) ->
  exists cit,
    erosion_checks (B := bool) a (Some S) None OutNone (Scalar 0%Z)
    = Ok (S, replicate (length (shape S)) 0%Z, cit).
Proof.
  intros HwfS Hdims Hrank.
  pose proof (center_zero_in_bounds _ Hdims) as Hb.
  pose proof (size_pos_dims _ Hdims) as Hsz.
  unfold erosion_checks. cbn [iscomplexobj bool_dtype].
  unfold ndim. rewrite Hrank, Nat.eqb_refl. cbn [negb].
  destruct (Nat.ltb_spec (size (shape S)) 1); [lia|].
  cbn [_normalize_sequence bind]. unfold _center_is_true.
  rewrite normalize_coor_in_bounds by done.
  destruct (data S !! ravel (shape S)
              (center (shape S) (replicate (length (shape S)) 0%Z)))
    as [b|] eqn:E.
  - by exists b.
  - apply lookup_ge_None_1 in E. apply ravel_lt in Hb.
    unfold wf_array in HwfS. lia.
Qed.

(** For [iterations >= 2] and a structure without empty axis,
    [iterate_structure] returns an array with [d + (iterations - 1) *
    (d - 1)] cells on an axis of [d] cells, together with the origin
    multiplied by [iterations] when an origin is given. *)
Theorem iterate_structure_shape (S : ndarray bool) iterations origin
    (normalized : option (list Z)) fuel :
  wf_array S -> Forall (fun d => 1 <= d) (shape S) ->
  (2 <= iterations)%Z -> Z.to_nat iterations <= fuel ->
  match origin with
  | None => normalized = None
  | Some og =>
      exists l, _normalize_sequence og (ndim S) = Ok l /\ normalized = Some l
  end ->
  exists out,
    iterate_structure fuel S iterations origin
    = Some (inl (out,
                 option_map (map (fun o => (iterations * o)%Z)) normalized))
    /\ shape out
       = map (fun d => d + Z.to_nat (iterations - 1) * (d - 1)) (shape S).
Proof.
  intros HwfS Hdims Hit Hf Horigin.
  unfold iterate_structure.
  destruct (Z.ltb_spec iterations 2) as [?|_]; [lia|].
  rewrite existsb_zero_dims by done.
  set (ni := (iterations - 1)%Z).
  set (a := embed_structure S (Z.to_nat ni)).
  assert (Hrank : length (shape a) = length (shape S))
    by (unfold a, embed_structure; simpl; by rewrite length_map).
  destruct (iterate_checks S a HwfS Hdims Hrank) as [cit Hchk].
  pose proof (center_zero_in_bounds _ Hdims) as Hvalid.
  destruct (reflect_origin_ok (shape S) (replicate (length (shape S)) 0%Z))
    as (o' & Hr & _); [by rewrite length_replicate|].
  destruct (erosion_checks_flip _ _ _ _ _ _ _ _ HwfS Hchk Hvalid Hr)
    as (Hchk' & Hvalid' & _).
  rewrite (binary_dilation_unfold fuel a (Some S) ni None false (Scalar 0%Z)
             false (replicate (length (shape S)) 0%Z) o');
    [|unfold ndim; by rewrite Hrank|done].
  rewrite (driver_count a (Some (flip_all S)) None false (Sequence o') true
             ni (flip_all S) o' cit (wf_flip_all S) Hchk' Hvalid' fuel false)
    by (unfold ni; lia).
  cbn [return_value].
  eexists. split.
  - destruct origin as [og|].
    + destruct Horigin as (l & -> & ->). done.
    + by rewrite Horigin.
  - by rewrite iter_single_iteration_shape.
Qed.

Lemma iterate_structure_shape_witness :
  exists out,
    iterate_structure 3 (generate_binary_structure 2 1) 3
      (Some (Scalar 1%Z))
    = Some (inl (out, option_map (map (fun o => (3 * o)%Z))
                        (Some [1%Z; 1%Z])))
    /\ shape out
       = map (fun d => d + Z.to_nat (3 - 1) * (d - 1))
           (shape (generate_binary_structure 2 1)).
Proof.
  apply (iterate_structure_shape (generate_binary_structure 2 1) 3
           (Some (Scalar 1%Z)) (Some [1%Z; 1%Z]) 3).
  - reflexivity.
  - simpl. repeat (apply Forall_cons; split; [lia|]). by apply Forall_nil.
  - lia.
  - simpl. lia.
  - exists [1%Z; 1%Z]. split; reflexivity.
Defined.

(** ** Metric names of the brute-force distance transform *)

(** Metric names that differ only in the case of their letters give the
    same outcome of [distance_transform_bf]. *)
Theorem distance_transform_bf_metric_case {A F} `{Dtype A} `{Float64 F}
    (K : nd_image F) (input : ndarray A) (metric1 metric2 : string) sampling
    return_distances return_indices distances indices :
  lower metric1 = lower metric2 ->
  distance_transform_bf K input metric1 sampling return_distances
    return_indices distances indices
  = distance_transform_bf K input metric2 sampling return_distances
      return_indices distances indices.
Proof.
  intros Hm. unfold distance_transform_bf, bf_metric. by rewrite Hm.
Qed.

Lemma distance_transform_bf_metric_case_witness :
  distance_transform_bf idle_kernels (mk_ndarray [3] [0; 1; 1]%Z) "CityBlock"
    None true false None None
  = distance_transform_bf idle_kernels (mk_ndarray [3] [0; 1; 1]%Z)
      "cityblock" None true false None None.
Proof.
  apply (distance_transform_bf_metric_case idle_kernels
           (mk_ndarray [3] [0; 1; 1]%Z) "CityBlock" "cityblock").
  reflexivity.
Defined.

(** The working array of the brute-force transform exists for every
    well-formed input. *)
Lemma bf_working_array_ok {A} `{Dtype A} (input : ndarray A) :
  wf_array input ->
  exists w, bf_working_array input = Some (Ok w) /\ shape w = shape input.
Proof.
  intros Hwf. unfold bf_working_array.
  change (ndim (not_equal_zero input)) with (ndim input).
  rewrite full_structure.
  set (S := mk_ndarray (replicate (ndim input) 3)
              (replicate (size (replicate (ndim input) 3)) true)).
  rewrite (binary_dilation_unfold 0 (not_equal_zero input) (Some S) 1 None
             false (Scalar 0%Z) false (replicate (ndim input) 0%Z)
             (replicate (ndim input) 0%Z));
    [|done|apply reflect_origin_full].
  unfold S. rewrite flip_all_full. fold S.
  rewrite (binary_erosion_passes _ _ _ _ _ _ _ _ _ S
             (replicate (ndim input) 0%Z) true) by apply checks_full.
  rewrite passes_single by done. rewrite buffer_of_first.
  cbn [return_value]. by eexists.
Qed.

(** A metric name that is none of the five known ones, whatever its
    case, is refused by [distance_transform_bf] with a RuntimeError, and
    the caller's arrays are left as they were. *)
Theorem distance_transform_bf_unknown_metric {A F} `{Dtype A} `{Float64 F}
    (K : nd_image F) (input : ndarray A) (metric : string) sampling
    return_distances return_indices distances indices :
  wf_array input ->
  return_distances || return_indices = true ->
  string_in (lower metric)
    ["euclidean"; "taxicab"; "cityblock"; "manhattan"; "chessboard"]%string
  = false ->
  distance_transform_bf K input metric sampling return_distances
    return_indices distances indices
  = Some (Raise (RuntimeError "distance metric not supported"),
          mk_dt_buffers distances indices).
Proof.
  intros Hwf Hflags Hm. unfold distance_transform_bf.
  assert (Hn : negb return_distances && negb return_indices = false)
    by (by destruct return_distances, return_indices).
  rewrite Hn.
  destruct (bf_working_array_ok input Hwf) as (w & -> & _).
  unfold bf_metric. unfold string_in in *. cbn [existsb] in Hm.
  apply orb_false_elim in Hm as [-> Hm].
  apply orb_false_elim in Hm as [H1 Hm].
  apply orb_false_elim in Hm as [H2 Hm].
  apply orb_false_elim in Hm as [H3 Hm].
  apply orb_false_elim in Hm as [H4 _].
  cbn [existsb]. by rewrite H1, H2, H3, H4.
Qed.

Lemma distance_transform_bf_unknown_metric_witness :
  distance_transform_bf idle_kernels (mk_ndarray [3] [0; 1; 1]%Z) "Minkowski"
    None true false None None
  = Some (Raise (RuntimeError "distance metric not supported"),
          mk_dt_buffers None None).
Proof.
  apply (distance_transform_bf_unknown_metric idle_kernels
           (mk_ndarray [3] [0; 1; 1]%Z) "Minkowski"); reflexivity.
Defined.

(** ** A distances array of the wrong shape in the Euclidean transform *)

(** When [distance_transform_edt] is given a [distances] array whose
    shape is not that of the input, it raises a RuntimeError whose message
    names the indices ("indices has wrong shape"), and it does so after
    the feature transform has run: a caller's [indices] array has already
    been overwritten. *)
Theorem distance_transform_edt_bad_distances {A F} `{Dtype A} `{Float64 F}
    (K : nd_image F) (input : ndarray A) sampling s return_indices
    (d ind : array F) :
  normalize_sampling sampling (ndim (where_1_0_atleast_1d input)) = Ok s ->
  shape (arr ind)
  = length (shape (where_1_0_atleast_1d input))
    :: shape (where_1_0_atleast_1d input) ->
  dtype_of ind = dt_int32 ->
  shape (arr d) <> shape (where_1_0_atleast_1d input) ->
  distance_transform_edt K input sampling true return_indices (Some d)
    (Some ind)
  = (Raise (RuntimeError "indices has wrong shape"),
     mk_dt_buffers (Some d)
       (Some (int_array dt_int32
                (mk_ndarray (shape (arr ind))
                   (nd_euclidean_feature_transform K
                      (where_1_0_atleast_1d input) s
                      (mk_ndarray (shape (arr ind))
                         (map as_int (data (arr ind))))))))).
Proof.
  intros Hs Hshape Hdtype Hd. unfold distance_transform_edt.
  cbn [negb andb is_some]. rewrite Hs. cbn [bind].
  rewrite bool_decide_eq_true_2 by done. cbn [negb].
  rewrite bool_decide_eq_true_2 by done. cbn [negb bind shape].
  by rewrite bool_decide_eq_false_2 by done.
Qed.

Lemma distance_transform_edt_bad_distances_witness :
  distance_transform_edt idle_kernels (mk_ndarray [2] [0; 1]%Z) None true
    true
    (Some (mk_array dt_float64 (mk_ndarray [3] [SFloat 0; SFloat 0; SFloat 0]%Z)))
    (Some (mk_array dt_int32 (mk_ndarray [1; 2] [SInt 7; SInt 7]%Z)))
  = (Raise (RuntimeError "indices has wrong shape"),
     mk_dt_buffers
       (Some (mk_array dt_float64
                (mk_ndarray [3] [SFloat 0; SFloat 0; SFloat 0]%Z)))
       (Some (int_array dt_int32
                (mk_ndarray [1; 2]
                   (nd_euclidean_feature_transform idle_kernels
                      (where_1_0_atleast_1d (mk_ndarray [2] [0; 1]%Z)) None
                      (mk_ndarray [1; 2] [7; 7]%Z)))))).
Proof.
  apply (distance_transform_edt_bad_distances idle_kernels
           (mk_ndarray [2] [0; 1]%Z) None None true
           (mk_array dt_float64 (mk_ndarray [3] [SFloat 0; SFloat 0; SFloat 0]%Z))
           (mk_array dt_int32 (mk_ndarray [1; 2] [SInt 7; SInt 7]%Z)));
    (reflexivity || discriminate).
Defined.

(** ** The indices arrays of the chamfer and brute-force transforms *)

Lemma take_indices_valid {X} (row : list X) (ft : list Z) :
  Forall (fun k => (0 <= k < Z.of_nat (length row))%Z) ft ->
  exists rt,
    take_indices row ft = Ok rt
    /\ length rt = length ft
    /\ forall p k, ft !! p = Some k -> rt !! p = row !! Z.to_nat k.
Proof.
  induction 1 as [|k ks Hk Hall IH]; simpl.
  - exists []. by split.
  - unfold normalize_index.
    destruct (Z.leb_spec 0 k); [|lia].
    destruct (Z.ltb_spec k (Z.of_nat (length row))); [|lia]. simpl.
    destruct (row !! Z.to_nat k) as [x|] eqn:E.
    2:{ apply lookup_ge_None_1 in E. lia. }
    destruct IH as (rt & -> & Hl & Hrt). simpl.
    exists (x :: rt). split; [done|]. split; [simpl; by rewrite Hl|].
    intros [|p] k'; simpl.
    + by intros [= <-].
    + apply Hrt.
Qed.

Lemma length_subarray {X} n (l : list X) ii R :
  length l = R * n -> ii < R -> length (subarray n l ii) = n.
Proof.
  intros Hl Hii. unfold subarray. rewrite length_take, length_drop. nia.
Qed.

Lemma lookup_subarray {X} n (l : list X) ii k :
  k < n -> subarray n l ii !! k = l !! (ii * n + k).
Proof.
  intros Hk. unfold subarray. by rewrite lookup_take_lt, lookup_drop.
Qed.

(** The gather loop replaces, in every row it visits, the cell [p] by
    the cell that the feature index of [p] names in the same row. *)
Lemma gather_rows_valid {X} n (ft : list Z) R count :
  length ft = n ->
  Forall (fun k => (0 <= k < Z.of_nat n)%Z) ft ->
  forall ii (l : list X),
    length l = R * n -> ii + count <= R ->
    exists l',
      gather_rows n ft count ii l = Ok l'
      /\ length l' = length l
      /\ forall r p k, r < R -> ft !! p = Some k ->
           l' !! (r * n + p)
           = if decide (ii <= r < ii + count)
             then l !! (r * n + Z.to_nat k)
             else l !! (r * n + p).
Proof.
  intros Hft Hall. induction count as [|count IH]; intros ii l Hl Hii.
  - exists l. split; [done|]. split; [done|]. intros r p k Hr Hp.
    case_decide; [lia|done].
  - cbn [gather_rows].
    assert (Hrow : length (subarray n l ii) = n)
      by (apply (length_subarray n l ii R); [done|lia]).
    destruct (take_indices_valid (subarray n l ii) ft)
      as (rt & -> & Hlrt & Hrt); [by rewrite Hrow|].
    cbn [bind]. rewrite Hlrt, Hft.
    set (l1 := take (ii * n) l ++ rt ++ drop (ii * n + n) l).
    assert (Htk : length (take (ii * n) l) = ii * n).
    { rewrite length_take. apply Nat.min_l. nia. }
    assert (Hl1 : length l1 = R * n).
    { unfold l1. rewrite !length_app, Htk, length_drop. nia. }
    destruct (IH (Datatypes.S ii) l1 Hl1 ltac:(lia)) as (l' & -> & Hl' & Hget).
    exists l'. split; [done|]. split; [lia|].
    intros r p k Hr Hp.
    assert (Hpn : p < n) by (apply lookup_lt_Some in Hp; lia).
    assert (Hk : (0 <= k < Z.of_nat n)%Z).
    { rewrite Forall_lookup in Hall. by apply (Hall p). }
    assert (Hl1get : forall q, q < n ->
               l1 !! (r * n + q)
               = if decide (r = ii) then rt !! q else l !! (r * n + q)).
    { intros q Hq. unfold l1. case_decide as Hri.
      - subst r. rewrite lookup_app_r by (rewrite Htk; nia).
        rewrite Htk.
        replace (ii * n + q - ii * n) with q by nia.
        by rewrite lookup_app_l by lia.
      - destruct (decide (r < ii)) as [Hlt|Hge].
        + rewrite lookup_app_l by (rewrite Htk; nia).
          by rewrite lookup_take_lt by nia.
        + rewrite lookup_app_r by (rewrite Htk; nia).
          rewrite Htk.
          rewrite lookup_app_r by nia.
          rewrite lookup_drop. f_equal. nia. }
    rewrite (Hget r p k Hr Hp).
    destruct (decide (Datatypes.S ii <= r < Datatypes.S ii + count))
      as [H1|H1];
      destruct (decide (ii <= r < ii + Datatypes.S count)) as [H2|H2];
      try lia.
    + rewrite Hl1get by lia. destruct (decide (r = ii)); [lia|done].
    + assert (r = ii) by lia. subst r.
      rewrite Hl1get by lia. destruct (decide (ii = ii)); [|lia].
      rewrite (Hrt p k Hp). apply lookup_subarray. lia.
    + rewrite Hl1get by lia. destruct (decide (r = ii)); [lia|done].
Qed.

(** Without a caller's [indices] array, [distance_transform_cdt] returns
    the coordinates of the features: on axis [ii], the cell [p] holds the
    [ii]-th coordinate of the cell whose flat index the feature array
    gives for [p]. *)
Theorem distance_transform_cdt_indices {A F} `{Dtype A} (K : nd_image F)
    (input : ndarray A) metric M (f : ndarray Z) :
  cdt_metric (ndim input) metric = Ok M ->
  (cdt_passes K M (where_minus1_0 input)
     (Some (arange_like (shape input)))).2 = Some f ->
  length (data f) = size (shape input) ->
  Forall (fun k => (0 <= k < Z.of_nat (size (shape input)))%Z) (data f) ->
  exists d,
    distance_transform_cdt K input metric false true None None
    = (Ok (ROne (mk_array dt_int32
                   (mk_ndarray (length (shape input) :: shape input) d))),
       mk_dt_buffers None None)
    /\ forall ii p k,
         ii < length (shape input) -> data f !! p = Some k ->
         d !! (ii * size (shape input) + p)
         = Some (SInt (nth ii (unravel (shape input) (Z.to_nat k)) 0%Z)).
Proof.
  intros HM Hf Hlen Hall. unfold distance_transform_cdt.
  cbn [negb andb is_some]. rewrite HM.
  cbn [shape where_minus1_0] in *.
  change (shape (where_minus1_0 input)) with (shape input).
  rewrite Hf.
  assert (Hshape : shape (cdt_passes K M (where_minus1_0 input)
                            (Some (arange_like (shape input)))).1
                   = shape input).
  { unfold cdt_passes. cbn [fst]. by rewrite !shape_flip_all. }
  rewrite Hshape. unfold indices_from_features.
  destruct (gather_rows_valid (size (shape input)) (data f)
              (length (shape input)) (length (shape input)) Hlen Hall 0
              (data (np_indices (shape input))))
    as (l' & -> & Hl' & Hget); [apply length_np_indices|lia|].
  cbn [bind]. eexists. split; [done|].
  intros ii p k Hii Hp.
  rewrite list_lookup_fmap, (Hget ii p k Hii Hp).
  case_decide; [|lia].
  assert (Hk : (0 <= k < Z.of_nat (size (shape input)))%Z).
  { rewrite Forall_lookup in Hall. by apply (Hall p). }
  rewrite np_indices_lookup by lia. done.
Qed.

(** With a caller's [indices] array, [distance_transform_cdt] returns
    None and leaves in the array its own previous content, gathered
    through the feature array: the cell [p] of row [ii] receives what the
    row held at the flat index that the feature array gives for [p]. *)
Theorem distance_transform_cdt_indices_in_place {A F} `{Dtype A}
    (K : nd_image F) (input : ndarray A) metric M (f : ndarray Z)
    (ind : array F) :
  cdt_metric (ndim input) metric = Ok M ->
  (cdt_passes K M (where_minus1_0 input)
     (Some (arange_like (shape input)))).2 = Some f ->
  length (data f) = size (shape input) ->
  Forall (fun k => (0 <= k < Z.of_nat (size (shape input)))%Z) (data f) ->
  dtype_of ind = dt_int32 ->
  shape (arr ind) = length (shape input) :: shape input ->
  wf_array (arr ind) ->
  exists d,
    distance_transform_cdt K input metric false true None (Some ind)
    = (Ok RNone,
       mk_dt_buffers None
         (Some (mk_array dt_int32
                  (mk_ndarray (length (shape input) :: shape input) d))))
    /\ forall ii p k,
         ii < length (shape input) -> data f !! p = Some k ->
         d !! (ii * size (shape input) + p)
         = data (arr ind) !! (ii * size (shape input) + Z.to_nat k).
Proof.
  intros HM Hf Hlen Hall Hdt Hsh Hwf. unfold distance_transform_cdt.
  cbn [negb andb is_some]. rewrite HM.
  change (shape (where_minus1_0 input)) with (shape input).
  rewrite Hf.
  assert (Hshape : shape (cdt_passes K M (where_minus1_0 input)
                            (Some (arange_like (shape input)))).1
                   = shape input).
  { unfold cdt_passes. cbn [fst]. by rewrite !shape_flip_all. }
  rewrite Hshape. unfold indices_from_features.
  rewrite !bool_decide_eq_true_2 by done. cbn [negb].
  destruct (gather_rows_valid (size (shape input)) (data f)
              (length (shape input)) (length (shape input)) Hlen Hall 0
              (data (arr ind)))
    as (l' & -> & Hl' & Hget).
  { unfold wf_array in Hwf. by rewrite Hwf, Hsh. }
  { lia. }
  cbn [bind]. eexists. split; [done|].
  intros ii p k Hii Hp.
  rewrite (Hget ii p k Hii Hp). case_decide; [done|lia].
Qed.

Lemma distance_transform_cdt_indices_witness :
  exists d,
    distance_transform_cdt idle_kernels (mk_ndarray [3] [0; 1; 1]%Z)
      (MetricName "chessboard") false true None None
    = (Ok (ROne (mk_array dt_int32 (mk_ndarray [1; 3] d))),
       mk_dt_buffers None None)
    /\ forall ii p k,
         ii < 1 -> [0; 1; 2]%Z !! p = Some k ->
         d !! (ii * 3 + p)
         = Some (SInt (nth ii (unravel [3] (Z.to_nat k)) 0%Z)).
Proof.
  apply (distance_transform_cdt_indices idle_kernels
           (mk_ndarray [3] [0; 1; 1]%Z) (MetricName "chessboard")
           (generate_binary_structure 1 1) (mk_ndarray [3] [0; 1; 2]%Z));
    try reflexivity.
  simpl. repeat (apply Forall_cons; split; [lia|]). by apply Forall_nil.
Defined.

Lemma distance_transform_cdt_indices_in_place_witness :
  exists d,
    distance_transform_cdt idle_kernels (mk_ndarray [3] [0; 1; 1]%Z)
      (MetricName "chessboard") false true None
      (Some (mk_array dt_int32 (mk_ndarray [1; 3] [SInt 5; SInt 6; SInt 7]%Z)))
    = (Ok RNone,
       mk_dt_buffers None (Some (mk_array dt_int32 (mk_ndarray [1; 3] d))))
    /\ forall ii p k,
         ii < 1 -> [0; 1; 2]%Z !! p = Some k ->
         d !! (ii * 3 + p)
         = [SInt 5; SInt 6; SInt 7]%Z !! (ii * 3 + Z.to_nat k).
Proof.
  apply (distance_transform_cdt_indices_in_place idle_kernels
           (mk_ndarray [3] [0; 1; 1]%Z) (MetricName "chessboard")
           (generate_binary_structure 1 1) (mk_ndarray [3] [0; 1; 2]%Z)
           (mk_array dt_int32 (mk_ndarray [1; 3] [SInt 5; SInt 6; SInt 7]%Z)));
    try reflexivity.
  simpl. repeat (apply Forall_cons; split; [lia|]). by apply Forall_nil.
Defined.

(** ** A caller's output array, for a positive iteration count *)

Lemma write_output_shape (out : list bool) (z buf1 buf2 : ndarray bool) :
  shape buf1 = shape buf2 ->
  write SlotB out (mk_buffers z buf1) = write SlotB out (mk_buffers z buf2).
Proof. intros Hs. unfold write. cbn [bufA bufB]. by rewrite Hs. Qed.

Lemma land_one_odd (z : Z) : (Z.land z 1 =? 0)%Z = Z.even z.
Proof.
  change 1%Z with (Z.ones 1). rewrite Z.land_ones by lia.
  change (2 ^ 1)%Z with 2%Z. rewrite Zeven_mod. done.
Qed.

(** With [iterations >= 1] the passes do not read the output array
    before they have written it: its content on entry is irrelevant. *)
Lemma erosion_passes_output (input : ndarray bool) S iterations mask
    (buf : ndarray bool) bv o inv cit brute_force fuel :
  (1 <= iterations)%Z -> shape buf = shape input ->
  erosion_passes fuel input S iterations mask buf bv o inv cit brute_force
  = erosion_passes fuel input S iterations mask (zeros (shape input)) bv o
      inv cit brute_force.
Proof.
  intros Hit Hs. unfold erosion_passes.
  destruct (iterations =? 1)%Z eqn:H1.
  { by rewrite (write_output_shape _ _ buf (zeros (shape input))). }
  destruct (cit && negb brute_force).
  { by rewrite (write_output_shape _ _ buf (zeros (shape input))). }
  rewrite land_one_odd. destruct (Z.even iterations) eqn:Hev.
  2:{ by rewrite (write_output_shape _ _ buf (zeros (shape input))). }
  assert (H2 : (2 <= iterations)%Z).
  { apply Z.eqb_neq in H1. lia. }
  destruct fuel as [|fuel]; [done|]. cbn [brute_force_loop].
  destruct (Z.ltb_spec 1 iterations) as [_|?]; [|lia]. cbn [orb].
  unfold pass_from, write. cbn [bufA bufB shape zeros].
  by rewrite Hs.
Qed.

(** The name that the brute-force loop returns, by the parity of the
    passes that remain. *)
Lemma brute_force_loop_slot {C} `{Dtype C} fuel S mask bv o inv cit
    iterations :
  (1 <= iterations)%Z ->
  forall ii tmp_in tmp_out (st : buffers C) changed s' st',
    (ii <= iterations)%Z ->
    brute_force_loop fuel S mask bv o inv cit iterations ii tmp_in tmp_out st
      changed = Some (s', st') ->
    s' = if Z.even (iterations - ii) then tmp_out else tmp_in.
Proof.
  intros Hit. induction fuel as [|fuel IH];
    intros ii tmp_in tmp_out st changed s' st' Hii; [done|].
  cbn [brute_force_loop].
  destruct (Z.ltb_spec iterations 1) as [?|_]; [lia|]. cbn [andb].
  rewrite orb_false_r.
  destruct (Z.ltb_spec ii iterations) as [Hlt|Hge].
  - intros Hrun. apply IH in Hrun; [|lia]. rewrite Hrun.
    replace (iterations - ii)%Z with (Z.succ (iterations - (ii + 1)))%Z by lia.
    rewrite Z.even_succ, <- Z.negb_even.
    by destruct (Z.even (iterations - (ii + 1))).
  - intros [= <- <-]. by replace (iterations - ii)%Z with 0%Z by lia.
Qed.

Lemma erosion_passes_slot {A C} `{Dtype A} `{Dtype C} (input : ndarray A) S
    iterations mask (buf : ndarray C) bv o inv cit brute_force fuel s st :
  (1 <= iterations)%Z ->
  erosion_passes fuel input S iterations mask buf bv o inv cit brute_force
  = Some (Ok (s, st)) ->
  s = SlotB.
Proof.
  intros Hit. unfold erosion_passes.
  destruct (iterations =? 1)%Z; [by intros [= <- _]|].
  destruct (cit && negb brute_force).
  { destruct (reflect_origin _ _); [|done].
    destruct (nd_binary_erosion2 _ _ _ _ _ _ _ _); [|done].
    by intros [= <- _]. }
  rewrite land_one_odd.
  destruct (Z.even iterations) eqn:Hev.
  - destruct (brute_force_loop _ _ _ _ _ _ _ _ _ _ _ _ _) as [[s0 st0]|] eqn:E;
      [|done].
    intros [= <- <-]. apply brute_force_loop_slot in E; [|done|lia].
    replace iterations with (Z.succ (iterations - 1)) in Hev by lia.
    rewrite Z.even_succ, <- Z.negb_even in Hev.
    destruct (Z.even (iterations - 1)); [done|]. done.
  - destruct (brute_force_loop _ _ _ _ _ _ _ _ _ _ _ _ _) as [[s0 st0]|] eqn:E;
      [|done].
    intros [= <- <-]. apply brute_force_loop_slot in E; [|done|lia].
    replace iterations with (Z.succ (iterations - 1)) in Hev by lia.
    rewrite Z.even_succ, <- Z.negb_even in Hev.
    destruct (Z.even (iterations - 1)); [done|]. done.
Qed.

Lemma erosion_checks_output (input : ndarray bool) structure mask origin S o
    cit (buf : ndarray bool) :
  erosion_checks (B := bool) input structure mask OutNone origin
  = Ok (S, o, cit) ->
  shape buf = shape input ->
  erosion_checks (B := bool) input structure mask (OutArray buf) origin
  = Ok (S, o, cit).
Proof.
  intros Hchk Hs. revert Hchk. unfold erosion_checks.
  cbn [iscomplexobj bool_dtype].
  destruct (negb (ndim _ =? ndim input)); [done|].
  destruct (size (shape _) <? 1); [done|].
  destruct (match mask with Some m => _ | None => false end); [done|].
  destruct (_normalize_sequence origin (ndim input)) as [o0|]; [|done].
  cbn [bind]. destruct (_center_is_true _ o0) as [c0|]; [|done]. cbn [bind].
  by rewrite bool_decide_eq_true_2 by done.
Qed.

(** What a run with a caller's array of the right shape leaves in it. *)
Lemma driver_in_place (input : ndarray bool) structure mask bv origin inv
    iterations brute_force fuel S o cit (buf : ndarray bool) out :
  erosion_checks (B := bool) input structure mask OutNone origin
  = Ok (S, o, cit) ->
  shape buf = shape input -> (1 <= iterations)%Z ->
  _binary_erosion (B := bool) fuel input structure iterations mask OutNone bv
    origin inv brute_force
  = Some (Ok (mk_erosion_result (Some out) None)) ->
  _binary_erosion (B := bool) fuel input structure iterations mask
    (OutArray buf) bv origin inv brute_force
  = Some (Ok (mk_erosion_result None (Some out))).
Proof.
  intros Hchk Hs Hit. unfold _binary_erosion.
  rewrite (erosion_checks_output _ _ _ _ _ _ _ buf Hchk Hs), Hchk.
  rewrite (erosion_passes_output input S iterations mask buf) by done.
  destruct (erosion_passes _ _ _ _ _ _ _ _ _ _ _) as [[[s st]|e]|] eqn:E;
    [|done|done].
  apply erosion_passes_slot in E; [|done]. subst s.
  by intros [= <-].
Qed.

(** For [iterations >= 1], in both branches, binary erosion and binary
    dilation with a caller's boolean output array of the shape of the
    input return None and leave in that array exactly the array that the
    call without output array returns. *)
Theorem binary_morphology_in_place (input : ndarray bool) structure mask
    border_value origin iterations brute_force fuel S o cit
    (buf : ndarray bool) :
  wf_array S ->
  erosion_checks (B := bool) input structure mask OutNone origin
  = Ok (S, o, cit) ->
  in_bounds (shape S) (center (shape S) o) = true ->
  shape buf = shape input ->
  (1 <= iterations)%Z -> Z.to_nat iterations <= fuel ->
  (exists out,
      binary_erosion (B := bool) fuel input structure iterations mask OutNone
        border_value origin brute_force
      = Some (Ok (mk_erosion_result (Some out) None))
      /\ binary_erosion (B := bool) fuel input structure iterations mask
           (OutArray buf) border_value origin brute_force
         = Some (Ok (mk_erosion_result None (Some out))))
  /\ (exists out,
         binary_dilation (B := bool) fuel input structure iterations mask
           OutNone border_value origin brute_force
         = Some (Ok (mk_erosion_result (Some out) None))
         /\ binary_dilation (B := bool) fuel input structure iterations mask
              (OutArray buf) border_value origin brute_force
            = Some (Ok (mk_erosion_result None (Some out)))).
Proof.
  intros HwfS Hchk Hvalid Hs Hit Hf.
  destruct (erosion_checks_ok _ _ _ _ _ _ _ Hchk)
    as (HS & HrS & Ho & Hro & _).
  destruct (reflect_origin_ok (shape S) o) as (o' & Hr & _); [lia|].
  destruct (erosion_checks_flip _ _ _ _ _ _ _ _ HwfS Hchk Hvalid Hr)
    as (Hchk' & Hvalid' & _).
  split.
  - pose proof (driver_count input structure mask border_value origin false
                  iterations S o cit HwfS Hchk Hvalid fuel brute_force Hit Hf)
      as Hrun.
    eexists. split; [exact Hrun|].
    by apply (driver_in_place input structure mask border_value origin false
                iterations brute_force fuel S o cit).
  - pose proof (driver_count input (Some (flip_all S)) mask border_value
                  (Sequence o') true iterations (flip_all S) o' cit
                  (wf_flip_all S) Hchk' Hvalid' fuel brute_force Hit Hf)
      as Hrun.
    assert (Hd : forall output : output_arg bool,
               binary_dilation (B := bool) fuel input structure iterations
                 mask output border_value origin brute_force
               = _binary_erosion (B := bool) fuel input (Some (flip_all S))
                   iterations mask output border_value (Sequence o') true
                   brute_force).
    { intros output. unfold binary_dilation.
      rewrite <- HS, Ho, shape_flip_all, Hr. done. }
    eexists. rewrite !Hd. split; [exact Hrun|].
    by apply (driver_in_place input (Some (flip_all S)) mask border_value
                (Sequence o') true iterations brute_force fuel (flip_all S)
                o' cit).
Qed.

Lemma binary_morphology_in_place_witness :
  exists out,
    binary_erosion (B := bool) 2
      (mk_ndarray [5] [true; true; true; true; true]) None 2 None OutNone
      false (Scalar 0%Z) true
    = Some (Ok (mk_erosion_result (Some out) None))
    /\ binary_erosion (B := bool) 2
         (mk_ndarray [5] [true; true; true; true; true]) None 2 None
         (OutArray (mk_ndarray [5] [true; false; true; false; true])) false
         (Scalar 0%Z) true
       = Some (Ok (mk_erosion_result None (Some out))).
Proof.
  apply (binary_morphology_in_place
           (mk_ndarray [5] [true; true; true; true; true]) None None false
           (Scalar 0%Z) 2 true 2 (generate_binary_structure 1 1) [0%Z] true
           (mk_ndarray [5] [true; false; true; false; true]));
    (reflexivity || (simpl; lia)).
Defined.

(** ** Runs to a fixed point are idempotent *)

(** With [iterations < 1] and the centre cell on, running binary erosion
    (or binary dilation, hence binary propagation) again on its own result
    returns that result. *)
Theorem binary_morphology_fixed_point_idempotent (input : ndarray bool)
    structure mask border_value origin iterations brute_force fuel S o cit :
  wf_array input -> wf_array S ->
  erosion_checks (B := bool) input structure mask OutNone origin
  = Ok (S, o, cit) ->
  getitem S (center (shape S) o) = Some true ->
  (iterations < 1)%Z ->
  size (shape input) + 2 <= fuel ->
  (exists out,
      binary_erosion (B := bool) fuel input structure iterations mask OutNone
        border_value origin brute_force
      = Some (Ok (mk_erosion_result (Some out) None))
      /\ binary_erosion (B := bool) fuel out structure iterations mask OutNone
           border_value origin brute_force
         = Some (Ok (mk_erosion_result (Some out) None)))
  /\ (exists out,
         binary_dilation (B := bool) fuel input structure iterations mask
           OutNone border_value origin brute_force
         = Some (Ok (mk_erosion_result (Some out) None))
         /\ binary_dilation (B := bool) fuel out structure iterations mask
              OutNone border_value origin brute_force
            = Some (Ok (mk_erosion_result (Some out) None))).
Proof.
  intros Hwf HwfS Hchk Hc Hit Hf.
  assert (Hvalid : in_bounds (shape S) (center (shape S) o) = true)
    by (by apply getitem_Some in Hc as [? _]).
  assert (Hcit : cit = true).
  { pose proof (driver_centre_cell _ _ _ _ _ _ _ Hchk Hvalid). congruence. }
  destruct (erosion_checks_ok _ _ _ _ _ _ _ Hchk) as (_ & HrS & _ & Hro & _).
  destruct (reflect_origin_ok (shape S) o) as (o' & Hr & _); [lia|].
  assert (Hfuel : Z.to_nat iterations + size (shape input) + 2 <= fuel)
    by lia.
  split.
  - destruct (erosion_run input structure mask border_value origin false
                iterations brute_force fuel S o cit Hwf HwfS Hchk Hvalid
                (fun _ => Hcit) Hfuel) as (k & Hrun & _ & Hfix).
    specialize (Hfix Hit).
    set (f := single_iteration S mask border_value o false) in *.
    exists (Nat.iter k f input). split; [exact Hrun|].
    assert (Hchk2 : erosion_checks (B := bool) (Nat.iter k f input) structure
                      mask OutNone origin = Ok (S, o, cit)).
    { rewrite <- Hchk. apply erosion_checks_shape.
      apply iter_single_iteration_shape. }
    destruct (erosion_run (Nat.iter k f input) structure mask border_value
                origin false iterations brute_force fuel S o cit
                (iter_single_iteration_wf _ _ _ _ _ _ k Hwf) HwfS Hchk2 Hvalid
                (fun _ => Hcit)) as (k2 & Hrun2 & _ & _).
    { unfold f. by rewrite iter_single_iteration_shape. }
    unfold binary_erosion.
    rewrite Hrun2. fold f. by rewrite (iter_fixed f k2 _ Hfix).
  - destruct (dilation_run input structure mask border_value origin
                iterations brute_force fuel S o o' cit Hwf HwfS Hchk Hvalid Hr
                (fun _ => Hcit) Hfuel) as (k & Hrun & _ & Hfix).
    specialize (Hfix Hit).
    set (f := single_iteration (flip_all S) mask border_value o' true) in *.
    exists (Nat.iter k f input). split; [exact Hrun|].
    assert (Hchk2 : erosion_checks (B := bool) (Nat.iter k f input) structure
                      mask OutNone origin = Ok (S, o, cit)).
    { rewrite <- Hchk. apply erosion_checks_shape.
      apply iter_single_iteration_shape. }
    destruct (dilation_run (Nat.iter k f input) structure mask border_value
                origin iterations brute_force fuel S o o' cit
                (iter_single_iteration_wf _ _ _ _ _ _ k Hwf) HwfS Hchk2 Hvalid
                Hr (fun _ => Hcit)) as (k2 & Hrun2 & _ & _).
    { unfold f. by rewrite iter_single_iteration_shape. }
    rewrite Hrun2. fold f. by rewrite (iter_fixed f k2 _ Hfix).
Qed.

Lemma binary_morphology_fixed_point_idempotent_witness :
  exists out,
    binary_dilation (B := bool) 7
      (mk_ndarray [5] [false; true; false; false; false]) None (-1)
      (Some (mk_ndarray [5] [true; true; true; false; true])) OutNone false
      (Scalar 0%Z) false
    = Some (Ok (mk_erosion_result (Some out) None))
    /\ binary_dilation (B := bool) 7 out None (-1)
         (Some (mk_ndarray [5] [true; true; true; false; true])) OutNone false
         (Scalar 0%Z) false
       = Some (Ok (mk_erosion_result (Some out) None)).
Proof.
  apply (binary_morphology_fixed_point_idempotent
           (mk_ndarray [5] [false; true; false; false; false]) None
           (Some (mk_ndarray [5] [true; true; true; false; true])) false
           (Scalar 0%Z) (-1) false 7 (generate_binary_structure 1 1) [0%Z]
           true);
    (reflexivity || (simpl; lia)).
Defined.

(** ** Dilation of a union, erosion of an intersection *)

Lemma value_at_zip_with (f : bool -> bool -> bool) (da db : list bool) j :
  length da = length db -> f false false = false ->
  value_at (zip_with f da db) j = f (value_at da j) (value_at db j).
Proof.
  intros Hl Hf. unfold value_at. rewrite lookup_zip_with.
  destruct (da !! j) as [x|] eqn:Ea, (db !! j) as [y|] eqn:Eb; simpl;
    try done.
  - apply lookup_lt_Some in Ea. apply lookup_ge_None_1 in Eb. lia.
  - apply lookup_ge_None_1 in Ea. apply lookup_lt_Some in Eb. lia.
Qed.

Lemma effective_value_or (a b : ndarray bool) bv c :
  shape a = shape b -> length (data a) = length (data b) ->
  effective_value (array_or a b) bv c
  = effective_value a bv c || effective_value b bv c.
Proof.
  intros Hs Hl. unfold effective_value, array_or. cbn [shape data].
  rewrite <- Hs. destruct (in_bounds (shape a) c).
  - by apply value_at_zip_with.
  - by destruct bv.
Qed.

Lemma effective_value_and (a b : ndarray bool) bv c :
  shape a = shape b -> length (data a) = length (data b) ->
  effective_value (array_and a b) bv c
  = effective_value a bv c && effective_value b bv c.
Proof.
  intros Hs Hl. unfold effective_value, array_and. cbn [shape data].
  rewrite <- Hs. destruct (in_bounds (shape a) c).
  - by apply value_at_zip_with.
  - by destruct bv.
Qed.

Lemma forallb_andb {X} (f g : X -> bool) l :
  forallb (fun x => f x && g x) l = forallb f l && forallb g l.
Proof.
  induction l as [|x l IH]; simpl; [done|]. rewrite IH.
  destruct (f x), (g x), (forallb f l), (forallb g l); done.
Qed.

Lemma erode_point_and (a b : ndarray bool) offs mask bv i :
  shape a = shape b -> length (data a) = length (data b) ->
  erode_point (array_and a b) offs mask bv false i
  = erode_point a offs mask bv false i && erode_point b offs mask bv false i.
Proof.
  intros Hs Hl. unfold erode_point.
  change (shape (array_and a b)) with (shape a). rewrite <- Hs.
  destruct (mask_at mask i).
  - rewrite !xorb_false_l.
    rewrite <- forallb_andb. apply forallb_pointwise. intros v.
    rewrite !xorb_false_l. by apply effective_value_and.
  - unfold array_and. cbn [data]. by apply value_at_zip_with.
Qed.

Lemma erode_point_or (a b : ndarray bool) offs mask bv i :
  shape a = shape b -> length (data a) = length (data b) ->
  erode_point (array_or a b) offs mask bv true i
  = erode_point a offs mask bv true i || erode_point b offs mask bv true i.
Proof.
  intros Hs Hl. unfold erode_point.
  change (shape (array_or a b)) with (shape a). rewrite <- Hs.
  destruct (mask_at mask i).
  - rewrite !xorb_true_l, <- negb_andb. f_equal.
    rewrite <- forallb_andb. apply forallb_pointwise. intros v.
    rewrite !xorb_true_l, effective_value_or by done.
    apply negb_orb.
  - unfold array_or. cbn [data]. by apply value_at_zip_with.
Qed.

Lemma single_iteration_and S mask bv o (a b : ndarray bool) :
  shape a = shape b -> length (data a) = length (data b) ->
  single_iteration S mask bv o false (array_and a b)
  = array_and (single_iteration S mask bv o false a)
      (single_iteration S mask bv o false b).
Proof.
  intros Hs Hl. destruct a as [sa da], b as [sb db].
  cbn [shape data] in *. subst sb.
  unfold single_iteration, array_and, erode_data. cbn [shape data].
  f_equal. rewrite zip_with_fmap_same. apply map_ext. intros i.
  change (mk_ndarray sa (zip_with andb da db))
    with (array_and (mk_ndarray sa da) (mk_ndarray sa db)).
  by rewrite erode_point_and.
Qed.

Lemma single_iteration_or S mask bv o (a b : ndarray bool) :
  shape a = shape b -> length (data a) = length (data b) ->
  single_iteration S mask bv o true (array_or a b)
  = array_or (single_iteration S mask bv o true a)
      (single_iteration S mask bv o true b).
Proof.
  intros Hs Hl. destruct a as [sa da], b as [sb db].
  cbn [shape data] in *. subst sb.
  unfold single_iteration, array_or, erode_data. cbn [shape data].
  f_equal. rewrite zip_with_fmap_same. apply map_ext. intros i.
  change (mk_ndarray sa (zip_with orb da db))
    with (array_or (mk_ndarray sa da) (mk_ndarray sa db)).
  by rewrite erode_point_or.
Qed.

Lemma iterate_and S mask bv o (a b : ndarray bool) k :
  wf_array a -> wf_array b -> shape a = shape b ->
  Nat.iter k (single_iteration S mask bv o false) (array_and a b)
  = array_and (Nat.iter k (single_iteration S mask bv o false) a)
      (Nat.iter k (single_iteration S mask bv o false) b).
Proof.
  intros Hwa Hwb Hs. induction k as [|k IH]; [done|].
  rewrite !Nat.iter_succ, IH. apply single_iteration_and.
  - by rewrite !iter_single_iteration_shape.
  - pose proof (iter_single_iteration_wf S mask bv o false a k Hwa) as H1.
    pose proof (iter_single_iteration_wf S mask bv o false b k Hwb) as H2.
    unfold wf_array in H1, H2.
    by rewrite H1, H2, !iter_single_iteration_shape, Hs.
Qed.

Lemma iterate_or S mask bv o (a b : ndarray bool) k :
  wf_array a -> wf_array b -> shape a = shape b ->
  Nat.iter k (single_iteration S mask bv o true) (array_or a b)
  = array_or (Nat.iter k (single_iteration S mask bv o true) a)
      (Nat.iter k (single_iteration S mask bv o true) b).
Proof.
  intros Hwa Hwb Hs. induction k as [|k IH]; [done|].
  rewrite !Nat.iter_succ, IH. apply single_iteration_or.
  - by rewrite !iter_single_iteration_shape.
  - pose proof (iter_single_iteration_wf S mask bv o true a k Hwa) as H1.
    pose proof (iter_single_iteration_wf S mask bv o true b k Hwb) as H2.
    unfold wf_array in H1, H2.
    by rewrite H1, H2, !iter_single_iteration_shape, Hs.
Qed.

(** For [iterations >= 1], binary erosion commutes with the intersection
    of two arrays of one shape and binary dilation with their union, for
    every structure, mask, origin and border value. *)
Theorem binary_morphology_lattice (a b : ndarray bool) structure mask
    border_value origin iterations brute_force fuel S o cit :
  wf_array a -> wf_array b -> wf_array S -> shape a = shape b ->
  erosion_checks (B := bool) a structure mask OutNone origin
  = Ok (S, o, cit) ->
  in_bounds (shape S) (center (shape S) o) = true ->
  (1 <= iterations)%Z -> Z.to_nat iterations <= fuel ->
  (exists ea eb,
      binary_erosion (B := bool) fuel a structure iterations mask OutNone
        border_value origin brute_force
      = Some (Ok (mk_erosion_result (Some ea) None))
      /\ binary_erosion (B := bool) fuel b structure iterations mask OutNone
           border_value origin brute_force
         = Some (Ok (mk_erosion_result (Some eb) None))
      /\ binary_erosion (B := bool) fuel (array_and a b) structure iterations
           mask OutNone border_value origin brute_force
         = Some (Ok (mk_erosion_result (Some (array_and ea eb)) None)))
  /\ (exists da db,
         binary_dilation (B := bool) fuel a structure iterations mask OutNone
           border_value origin brute_force
         = Some (Ok (mk_erosion_result (Some da) None))
         /\ binary_dilation (B := bool) fuel b structure iterations mask
              OutNone border_value origin brute_force
            = Some (Ok (mk_erosion_result (Some db) None))
         /\ binary_dilation (B := bool) fuel (array_or a b) structure
              iterations mask OutNone border_value origin brute_force
            = Some (Ok (mk_erosion_result (Some (array_or da db)) None))).
Proof.
  intros Hwa Hwb HwfS Hs Hchk Hvalid Hit Hf.
  assert (Hchkb : erosion_checks (B := bool) b structure mask OutNone origin
                  = Ok (S, o, cit)).
  { rewrite <- Hchk. symmetry. by apply erosion_checks_shape. }
  destruct (erosion_checks_ok _ _ _ _ _ _ _ Hchk)
    as (HS & HrS & Ho & Hro & _).
  destruct (reflect_origin_ok (shape S) o) as (o' & Hr & _); [lia|].
  destruct (erosion_checks_flip _ _ _ _ _ _ _ _ HwfS Hchk Hvalid Hr)
    as (Hchk' & Hvalid' & _).
  split.
  - do 2 eexists. split; [|split].
    + by apply (driver_count a structure mask border_value origin false
                  iterations S o cit).
    + by apply (driver_count b structure mask border_value origin false
                  iterations S o cit).
    + rewrite <- iterate_and by done.
      apply (driver_count (array_and a b) structure mask border_value origin
               false iterations S o cit); try done.
  - assert (Hd : forall (x : ndarray bool),
               shape x = shape a ->
               binary_dilation (B := bool) fuel x structure iterations mask
                 OutNone border_value origin brute_force
               = Some (Ok (mk_erosion_result
                             (Some (Nat.iter (Z.to_nat iterations)
                                      (single_iteration (flip_all S) mask
                                         border_value o' true) x)) None))).
    { intros x Hx.
      assert (Hnd : ndim x = ndim a) by (unfold ndim; by rewrite Hx).
      rewrite (binary_dilation_unfold fuel x structure iterations mask
                 border_value origin brute_force o o');
        [|by rewrite Hnd|rewrite Hnd; by rewrite <- HS].
      rewrite Hnd, <- HS.
      apply (driver_count x (Some (flip_all S)) mask border_value
               (Sequence o') true iterations (flip_all S) o' cit);
        [apply wf_flip_all| |done|done|done].
      rewrite <- Hchk'. by apply erosion_checks_shape. }
    do 2 eexists. split; [|split].
    + by apply Hd.
    + by apply Hd.
    + rewrite <- iterate_or by done. by apply Hd.
Qed.

Lemma binary_morphology_lattice_witness :
  exists da db,
    binary_dilation (B := bool) 2
      (mk_ndarray [5] [false; true; false; false; false]) None 2 None OutNone
      false (Scalar 0%Z) false
    = Some (Ok (mk_erosion_result (Some da) None))
    /\ binary_dilation (B := bool) 2
         (mk_ndarray [5] [false; false; false; false; true]) None 2 None
         OutNone false (Scalar 0%Z) false
       = Some (Ok (mk_erosion_result (Some db) None))
    /\ binary_dilation (B := bool) 2
         (array_or (mk_ndarray [5] [false; true; false; false; false])
            (mk_ndarray [5] [false; false; false; false; true])) None 2 None
         OutNone false (Scalar 0%Z) false
       = Some (Ok (mk_erosion_result (Some (array_or da db)) None)).
Proof.
  apply (binary_morphology_lattice
           (mk_ndarray [5] [false; true; false; false; false])
           (mk_ndarray [5] [false; false; false; false; true]) None None
           false (Scalar 0%Z) 2 false 2 (generate_binary_structure 1 1)
           [0%Z] true);
    (reflexivity || (simpl; lia)).
Defined.

(** ** Grey-scale morphology without a neighbourhood *)

(** Every grey-scale function raises the ValueError "size, footprint or
    structure must be specified" when none of the three is given,
    whatever the other arguments and whatever the filter: the filter is
    not reached. *)
Theorem grey_morphology_unspecified {V} `{Inhabited V} `{Arith V}
    (Fl : filters V) (input : ndarray V) (output : output_arg V)
    (mode : string) (cval : V) (origin : int_or_seq Z) :
  grey_erosion Fl input None None None output mode cval origin
  = inr unspecified_neighbourhood
  /\ grey_dilation Fl input None None None output mode cval origin
     = inr unspecified_neighbourhood
  /\ grey_opening Fl input None None None output mode cval origin
     = inr unspecified_neighbourhood
  /\ grey_closing Fl input None None None output mode cval origin
     = inr unspecified_neighbourhood
  /\ morphological_gradient Fl input None None None output mode cval origin
     = inr unspecified_neighbourhood
  /\ morphological_laplace Fl input None None None output mode cval origin
     = inr unspecified_neighbourhood
  /\ white_tophat Fl input None None None output mode cval origin
     = inr unspecified_neighbourhood
  /\ black_tophat Fl input None None None output mode cval origin
     = inr unspecified_neighbourhood.
Proof. repeat split. Qed.

(** ** What [grey_dilation] hands to the filter *)

Lemma grey_reflect_origin_shape (shp : list nat) ii origin :
  grey_reflect_origin
    (fun ii => match shp !! ii with
               | Some d => Ok (Z.of_nat d)
               | None => Raise (IndexError "tuple index out of range")
               end) ii origin
  = reflect_origin (drop ii shp) origin.
Proof.
  revert ii; induction origin as [|o os IH]; intros ii.
  - by destruct (drop ii shp).
  - cbn [grey_reflect_origin].
    destruct (shp !! ii) as [d|] eqn:E.
    + rewrite (drop_S _ _ _ E). cbn [bind reflect_origin]. by rewrite IH.
    + rewrite drop_ge by (by apply lookup_ge_None_1). done.
Qed.

(** With a footprint, or else a structure, [grey_dilation] calls the
    filter for a maximum with the footprint and the structure reversed on
    every axis and with the origin that [binary_dilation] computes for a
    structure of that shape: negated, and one less on the axes of even
    length; a neighbourhood with fewer axes than the input raises the
    IndexError of that computation before the filter is reached. *)
Theorem grey_dilation_filter_call {V} `{Inhabited V} (Fl : filters V)
    (input : ndarray V) size footprint structure (output : output_arg V)
    (mode : string) (cval : V) (origin : int_or_seq Z) (shp : list nat) :
  match footprint, structure with
  | Some f, _ => shp = shape f
  | None, Some s => shp = shape s
  | None, None => False
  end ->
  grey_dilation Fl input size footprint structure output mode cval origin
  = match (let! o := _normalize_sequence origin (ndim input) in
           reflect_origin shp o) with
    | Ok o' =>
        _min_or_max_filter Fl input size (option_map flip_all footprint)
          (option_map flip_all structure) output mode cval (Sequence o') 0
    | Raise e => inr (Propagated e)
    end.
Proof.
  intros Hshp. unfold grey_dilation.
  assert (Hsz : grey_axis_length size (option_map flip_all footprint)
                  (option_map flip_all structure)
                = fun ii => match shp !! ii with
                            | Some d => Ok (Z.of_nat d)
                            | None =>
                                Raise (IndexError "tuple index out of range")
                            end).
  { unfold grey_axis_length.
    destruct footprint as [f|]; [by subst shp|].
    destruct structure as [s|]; [by subst shp|done]. }
  rewrite Hsz.
  assert (Hloop : (let! o := _normalize_sequence origin (ndim input) in
                   grey_reflect_origin
                     (fun ii => match shp !! ii with
                                | Some d => Ok (Z.of_nat d)
                                | None =>
                                    Raise (IndexError
                                             "tuple index out of range")
                                end) 0 o)
                  = (let! o := _normalize_sequence origin (ndim input) in
                     reflect_origin shp o)).
  { destruct (_normalize_sequence origin (ndim input)) as [o|e]; [|done].
    cbn [bind]. by rewrite grey_reflect_origin_shape. }
  rewrite Hloop.
  destruct size, footprint, structure; try done.
Qed.

Lemma grey_dilation_filter_call_witness :
  grey_dilation
    (mk_filters Z (fun a _ _ _ _ _ _ _ _ => inl (mk_grey_result (Some a) None)))
    (mk_ndarray [2; 3] [1; 2; 3; 4; 5; 6]%Z) None
    (Some (mk_ndarray [2; 3] [true; true; false; true; true; true])) None
    OutNone "reflect" 0%Z (Scalar 0%Z)
  = match (let! o := _normalize_sequence (Scalar 0%Z) 2 in
           reflect_origin [2; 3] o) with
    | Ok o' =>
        _min_or_max_filter
          (mk_filters Z
             (fun a _ _ _ _ _ _ _ _ => inl (mk_grey_result (Some a) None)))
          (mk_ndarray [2; 3] [1; 2; 3; 4; 5; 6]%Z) None
          (option_map flip_all
             (Some (mk_ndarray [2; 3] [true; true; false; true; true; true])))
          (option_map flip_all None) OutNone "reflect" 0%Z (Sequence o') 0
    | Raise e => inr (Propagated e)
    end.
Proof.
  apply (grey_dilation_filter_call
           (mk_filters Z
              (fun a _ _ _ _ _ _ _ _ => inl (mk_grey_result (Some a) None)))
           (mk_ndarray [2; 3] [1; 2; 3; 4; 5; 6]%Z) None
           (Some (mk_ndarray [2; 3] [true; true; false; true; true; true]))
           None OutNone "reflect" 0%Z (Scalar 0%Z) [2; 3]).
  reflexivity.
Defined.
